(** * Session-key normalisation, legacy state migration and session
      initialisation of openclaw

    A shallow embedding of [src/infra/state-migrations.ts]:
      - the key normaliser, the sessions merge and the auto-migration gate
        (lines 59-488), and
      - the session module that the sources carry in the same file
        (lines 541-891): the session forker and [initSessionState],
    and of the Zalo Personal monitor of [src/unnamed/part_000]
    ([isSenderAllowed], the line buffer of [startZcaListener] and
    [deliverZalouserReply]), together with the properties stated about
    them.

    Conventions.  JavaScript strings are modelled by [string]; session keys
    are ASCII, and on ASCII the string primitives below agree with the
    ECMAScript ones.  Plain objects used as dictionaries are finite maps of
    their own properties ([gmap string _]); reading and assigning by key
    ([jsget], [jsset]) take the members inherited from [Object.prototype]
    into account; where the source iterates over [Object.entries] the
    object is given as the list of its entries in iteration order.
    Functions imported from modules that are not part of the sources at
    hand are parameters. *)

From Stdlib Require Import ZArith Ascii String DecimalString List Bool Lia.
From stdpp Require Import base option gmap strings list fin_maps.

Local Open Scope string_scope.
Local Open Scope Z_scope.
Set Warnings "-register-all".

(* ===================================================================== *)
(** ** ECMAScript string primitives *)
(* ===================================================================== *)

Module JsString.

(** WhiteSpace and LineTerminator code points of ECMAScript in the ASCII
    range: TAB, LF, VT, FF, CR, SP. *)
Definition isWhiteSpace (c : ascii) : bool :=
  let n := nat_of_ascii c in
  ((9 <=? n)%nat && (n <=? 13)%nat) || (n =? 32)%nat.

(** [String.prototype.trimStart] *)
Fixpoint trimStart (s : string) : string :=
  match s with
  | EmptyString => EmptyString
  | String c s' => if isWhiteSpace c then trimStart s' else s
  end.

(** [String.prototype.trimEnd] *)
Fixpoint trimEnd (s : string) : string :=
  match s with
  | EmptyString => EmptyString
  | String c s' =>
      match trimEnd s' with
      | EmptyString => if isWhiteSpace c then EmptyString else String c EmptyString
      | t => String c t
      end
  end.

(** [String.prototype.trim] *)
Definition trim (s : string) : string := trimEnd (trimStart s).

(** [s.startsWith(p)] *)
Fixpoint startsWith (s p : string) {struct p} : bool :=
  match p, s with
  | EmptyString, _ => true
  | String _ _, EmptyString => false
  | String a p', String b s' => if Ascii.eqb a b then startsWith s' p' else false
  end.

(** [s.includes(sub)] *)
Fixpoint includes (s sub : string) : bool :=
  if startsWith s sub then true
  else match s with
       | EmptyString => false
       | String _ s' => includes s' sub
       end.

Definition lowerChar (c : ascii) : ascii :=
  let n := nat_of_ascii c in
  if ((65 <=? n)%nat && (n <=? 90)%nat)%bool then ascii_of_nat (n + 32) else c.

(** [String.prototype.toLowerCase] *)
Fixpoint toLowerCase (s : string) : string :=
  match s with
  | EmptyString => EmptyString
  | String c s' => String (lowerChar c) (toLowerCase s')
  end.

(** [s.slice(n)] for [0 <= n] *)
Fixpoint slice (s : string) (n : nat) : string :=
  match n, s with
  | O, _ => s
  | S _, EmptyString => EmptyString
  | S n', String _ s' => slice s' n'
  end.

(** [s.replace(/^p/i, "")] for a literal lower-case ASCII pattern [p]. *)
Definition stripPrefixIgnoreCase (s p : string) : string :=
  if startsWith (toLowerCase s) p then slice s (String.length p) else s.

(** JavaScript truthiness of a string: [!s] is [true] exactly for [""]. *)
Definition nonEmpty (s : string) : bool :=
  match s with EmptyString => false | String _ _ => true end.

End JsString.

Import JsString.

(* ===================================================================== *)
(** ** Key normaliser ([src/infra/state-migrations.ts]) *)
(* ===================================================================== *)

(** [isSurfaceGroupKey] *)
Definition isSurfaceGroupKey (key : string) : bool :=
  includes key ":group:" || includes key ":channel:".

(** [isLegacyGroupKey] *)
Definition isLegacyGroupKey (key : string) : bool :=
  let trimmed := trim key in
  if negb (nonEmpty trimmed) then false
  else if startsWith trimmed "group:" then true
  else
    let lower := toLowerCase trimmed in
    if negb (includes lower "@g.us") then false
    else if negb (includes trimmed ":") then true
    else if startsWith lower "whatsapp:" && negb (includes trimmed ":group:") then true
    else false.

Section Normalizer.

(** [normalizeAgentId] lives in [src/routing/session-key.ts]; the normaliser
    only splices its result into the rewritten key. *)
Variable normalizeAgentId : string -> string.

(** [normalizeSessionKeyForAgent] *)
Definition normalizeSessionKeyForAgent (key agentId : string) : string :=
  let raw := trim key in
  let surfaceOrRaw :=
    if isSurfaceGroupKey raw then "agent:" ++ normalizeAgentId agentId ++ ":" ++ raw
    else raw in
  if negb (nonEmpty raw) then raw
  else if startsWith raw "agent:" then raw
  else if startsWith (toLowerCase raw) "subagent:" then
    let rest := slice raw (String.length "subagent:") in
    "agent:" ++ normalizeAgentId agentId ++ ":subagent:" ++ rest
  else if startsWith raw "group:" then
    let id := trim (slice raw (String.length "group:")) in
    if negb (nonEmpty id) then raw
    else
      let channel := if includes (toLowerCase id) "@g.us" then "whatsapp" else "unknown" in
      "agent:" ++ normalizeAgentId agentId ++ ":" ++ channel ++ ":group:" ++ id
  else if negb (includes raw ":") && includes (toLowerCase raw) "@g.us" then
    "agent:" ++ normalizeAgentId agentId ++ ":whatsapp:group:" ++ raw
  else if startsWith (toLowerCase raw) "whatsapp:" && includes (toLowerCase raw) "@g.us" then
    let remainder := trim (slice raw (String.length "whatsapp:")) in
    let cleaned := trim (stripPrefixIgnoreCase remainder "group:") in
    if nonEmpty cleaned && negb (isSurfaceGroupKey raw) then
      "agent:" ++ normalizeAgentId agentId ++ ":whatsapp:group:" ++ cleaned
    else surfaceOrRaw
  else surfaceOrRaw.

End Normalizer.

(** The rule of section 4.1 of the specification that a key falls under,
    read off the branches of [normalizeSessionKeyForAgent]. *)
Inductive KeyRule :=
  | RuleBlank          (* nothing left after trimming *)
  | RuleAgent          (* rule 1 *)
  | RuleSubagent       (* rule 2 *)
  | RuleGroup          (* rule 3 *)
  | RuleGroupNoId      (* "group:" followed by nothing: left alone *)
  | RuleBareGroupId    (* rule 4 *)
  | RuleWhatsApp       (* rule 5 *)
  | RuleSurface        (* rule 6 *)
  | RuleOther.         (* rule 7 *)

Definition keyRule (key : string) : KeyRule :=
  let raw := trim key in
  let surfaceOrOther := if isSurfaceGroupKey raw then RuleSurface else RuleOther in
  if negb (nonEmpty raw) then RuleBlank
  else if startsWith raw "agent:" then RuleAgent
  else if startsWith (toLowerCase raw) "subagent:" then RuleSubagent
  else if startsWith raw "group:" then
    if negb (nonEmpty (trim (slice raw (String.length "group:")))) then RuleGroupNoId
    else RuleGroup
  else if negb (includes raw ":") && includes (toLowerCase raw) "@g.us" then RuleBareGroupId
  else if startsWith (toLowerCase raw) "whatsapp:" && includes (toLowerCase raw) "@g.us" then
    let remainder := trim (slice raw (String.length "whatsapp:")) in
    let cleaned := trim (stripPrefixIgnoreCase remainder "group:") in
    if nonEmpty cleaned && negb (isSurfaceGroupKey raw) then RuleWhatsApp
    else surfaceOrOther
  else surfaceOrOther.

(** Rules 2 to 6 rewrite the key; the others leave it alone. *)
Definition isRewriteRule (r : KeyRule) : bool :=
  match r with
  | RuleSubagent | RuleGroup | RuleBareGroupId | RuleWhatsApp | RuleSurface => true
  | RuleBlank | RuleAgent | RuleGroupNoId | RuleOther => false
  end.

(* ===================================================================== *)
(** ** JavaScript values as read from a JSON5 session store *)
(* ===================================================================== *)

(** Numbers: the finite values are taken as integers (timestamps are
    milliseconds since the epoch); the three non-finite values of JSON5 are
    kept apart since [Number.isFinite] and [>] treat them specially. *)
Inductive num :=
  | NaN
  | NegInfinity
  | Finite (z : Z)
  | Infinity.

Inductive value :=
  | Undefined
  | Null
  | Bool (b : bool)
  | Num (n : num)
  | Str (s : string)
  | Arr (items : list value)
  | Obj (props : gmap string value).

(** [a > b] on numbers *)
Definition num_gt (a b : num) : bool :=
  match a, b with
  | NaN, _ | _, NaN => false
  | NegInfinity, _ => false
  | Finite _, NegInfinity => true
  | Finite x, Finite y => y <? x
  | Finite _, Infinity => false
  | Infinity, Infinity => false
  | Infinity, _ => true
  end.

(** [Number.isFinite] on numbers *)
Definition num_isFinite (n : num) : bool :=
  match n with Finite _ => true | _ => false end.

(** [a <= b] on numbers *)
Definition num_le (a b : num) : bool :=
  match a, b with
  | NaN, _ | _, NaN => false
  | NegInfinity, _ => true
  | _, Infinity => true
  | Finite x, Finite y => x <=? y
  | Finite _, NegInfinity => false
  | Infinity, _ => false
  end.

(** [Math.max(a, b)] *)
Definition num_max (a b : num) : num :=
  match a, b with
  | NaN, _ | _, NaN => NaN
  | Infinity, _ | _, Infinity => Infinity
  | NegInfinity, x | x, NegInfinity => x
  | Finite x, Finite y => Finite (Z.max x y)
  end.

(** [a * b] on numbers *)
Definition num_mul (a b : num) : num :=
  match a, b with
  | NaN, _ | _, NaN => NaN
  | Finite x, Finite y => Finite (x * y)
  | Finite x, Infinity | Infinity, Finite x =>
      if x =? 0 then NaN else if 0 <? x then Infinity else NegInfinity
  | Finite x, NegInfinity | NegInfinity, Finite x =>
      if x =? 0 then NaN else if 0 <? x then NegInfinity else Infinity
  | Infinity, Infinity | NegInfinity, NegInfinity => Infinity
  | Infinity, NegInfinity | NegInfinity, Infinity => NegInfinity
  end.

(** [!!v] *)
Definition truthy (v : value) : bool :=
  match v with
  | Undefined | Null => false
  | Bool b => b
  | Num NaN | Num (Finite 0) => false
  | Num _ => true
  | Str s => nonEmpty s
  | Arr _ | Obj _ => true
  end.

(** [typeof v === "object"] *)
Definition typeofIsObject (v : value) : bool :=
  match v with Null | Arr _ | Obj _ => true | _ => false end.

Inductive outcome (A : Type) :=
  | Returned (a : A)
  | Thrown.
Arguments Returned {A} a.
Arguments Thrown {A}.

(** [v.name] for a property name that no primitive wrapper or array
    defines (here: sessionId, updatedAt). Reading a property of [null] or
    [undefined] raises a TypeError. *)
Definition getProp (v : value) (name : string) : outcome value :=
  match v with
  | Undefined | Null => Thrown
  | Obj props => Returned (default Undefined (props !! name))
  | _ => Returned Undefined
  end.

(** [v?.name] *)
Definition getPropOpt (v : value) (name : string) : value :=
  match getProp v name with Returned x => x | Thrown => Undefined end.

(** The members that a plain object inherits from [Object.prototype]. *)
Definition objectPrototypeMembers : list string :=
  ["constructor"; "hasOwnProperty"; "isPrototypeOf"; "propertyIsEnumerable";
   "toLocaleString"; "toString"; "valueOf"; "__proto__";
   "__defineGetter__"; "__defineSetter__"; "__lookupGetter__"; "__lookupSetter__"].

Definition inheritedMember (key : string) : bool :=
  existsb (String.eqb key) objectPrototypeMembers.

(** [obj[key]] on a plain object used as a dictionary: the own property;
    failing that the member inherited from [Object.prototype]; failing
    that [undefined].  An inherited member is a function (for
    [__proto__], the prototype itself): no store holds such a value and
    the code only tests it for truthiness, so it is given here as an
    empty object. *)
Definition jsget (obj : gmap string value) (key : string) : value :=
  match obj !! key with
  | Some v => v
  | None => if inheritedMember key then Obj ∅ else Undefined
  end.

(** [obj[key] = v] on a plain object: an own property is created or
    updated, except under the name [__proto__] when the object has no own
    property of that name: the inherited setter then takes [v] as the
    prototype, or ignores it, and no own property appears. *)
Definition jsset (obj : gmap string value) (key : string) (v : value)
  : gmap string value :=
  if String.eqb key "__proto__" && negb (bool_decide (is_Some (obj !! key))) then obj
  else <[key := v]> obj.

(** Own enumerable properties copied by [{ ...v }]. *)
Definition spread (v : value) : gmap string value :=
  match v with Obj props => props | _ => ∅ end.

(* ===================================================================== *)
(** ** Sessions migration ([src/infra/state-migrations.ts]) *)
(* ===================================================================== *)

(** [SessionEntryLike]: what a parsed store holds under a key.  The type
    promises an object; the code re-checks at run time, so an entry may be
    any value here. *)
Abbreviation SessionEntryLike := value (only parsing).

(** A store as iterated by [Object.entries]. *)
Abbreviation StoreEntries := (list (string * value)) (only parsing).

(** One iteration of the loop of [pickLatestLegacyDirectEntry]; the state
    is [(best, bestUpdated)]. *)
Definition pickLatestStep (acc : option value * num) (kv : string * value)
  : option value * num :=
  let '(key, entry) := kv in
  if negb (truthy entry) || negb (typeofIsObject entry) then acc
  else
    let normalized := trim key in
    if negb (nonEmpty normalized) then acc
    else if String.eqb normalized "global" then acc
    else if startsWith normalized "agent:" then acc
    else if startsWith (toLowerCase normalized) "subagent:" then acc
    else if isLegacyGroupKey normalized || isSurfaceGroupKey normalized then acc
    else
      let updatedAt :=
        match getPropOpt entry "updatedAt" with Num n => n | _ => Finite 0 end in
      if num_gt updatedAt (snd acc) then (Some entry, updatedAt) else acc.

(** [pickLatestLegacyDirectEntry]; [None] is [null]. *)
Definition pickLatestLegacyDirectEntry (store : StoreEntries) : option value :=
  fst (fold_left pickLatestStep store (None, Finite (-1))).

(** [normalizeSessionEntry]; [Date.now()] has returned [now]. *)
Definition normalizeSessionEntry (now : Z) (entry : SessionEntryLike)
  : outcome (option value) :=
  match getProp entry "sessionId" with
  | Thrown => Thrown
  | Returned sid =>
      let sessionId := match sid with Str s => Some s | _ => None end in
      match sessionId with
      | None => Returned None
      | Some sessionId =>
          if negb (nonEmpty sessionId) then Returned None
          else
            let updatedAt :=
              match getPropOpt entry "updatedAt" with
              | Num n => if num_isFinite n then n else Finite now
              | _ => Finite now
              end in
            Returned (Some (Obj (<["updatedAt" := Num updatedAt]>
                                 (<["sessionId" := Str sessionId]> (spread entry)))))
      end
  end.

Record ParsedStore (S : Type) := {
  store : S;
  ok : bool;
}.
Arguments store {S} _.
Arguments ok {S} _.

(** [LegacyStateDetection] *)
Record SessionsArea := {
  legacyDir : string;
  legacyStorePath : string;
  targetDir : string;
  targetStorePath : string;
  hasLegacy : bool;
}.

Record DirArea := {
  areaLegacyDir : string;
  areaTargetDir : string;
  areaHasLegacy : bool;
}.

Record LegacyStateDetection := {
  targetAgentId : string;
  targetMainKey : string;
  stateDir : string;
  oauthDir : string;
  sessions : SessionsArea;
  agentDir : DirArea;
  whatsappAuth : DirArea;
  preview : list string;
}.

(** What a migration routine returns. *)
Record MigrationLog := {
  changes : list string;
  warnings : list string;
}.

(** [migrateLegacySessions] up to [saveSessionStore]: the store handed to
    [saveSessionStore] (if it is called) and the log so far. *)
Record SessionsMerge := {
  written : option (gmap string value);
  mergeLog : MigrationLog;
}.

Section SessionsMigration.

Variable normalizeAgentId : string -> string.

(** [buildAgentMainSessionKey({agentId, mainKey})] of
    [src/routing/session-key.ts]. *)
Variable buildAgentMainSessionKey : string -> string -> string.

(** [Date.now()] as read while the entry stored under a key is normalised
    for writing. *)
Variable clockAt : string -> Z.

(** The first loop of [migrateLegacySessions]: legacy keys are normalised,
    the first truthy entry per normalised key is kept; [normalizedLegacy]
    starts as [{}], so under the name of a member of [Object.prototype]
    the test reads that member and no entry is kept.  The assignment is
    reached only after a falsy read, hence never under [__proto__] without
    an own property: it creates or updates an own property. *)
Fixpoint normalizeLegacyStore (targetAgentId : string) (legacyStore : StoreEntries)
    (normalizedLegacy : gmap string value) : gmap string value :=
  match legacyStore with
  | [] => normalizedLegacy
  | (key, entry) :: rest =>
      let nextKey := normalizeSessionKeyForAgent normalizeAgentId key targetAgentId in
      if negb (nonEmpty nextKey) then
        normalizeLegacyStore targetAgentId rest normalizedLegacy
      else if negb (truthy (jsget normalizedLegacy nextKey)) then
        normalizeLegacyStore targetAgentId rest (<[nextKey := entry]> normalizedLegacy)
      else normalizeLegacyStore targetAgentId rest normalizedLegacy
  end.

(** [{ ...normalizedLegacy, ...targetStore }] *)
Definition mergeStores (normalizedLegacy targetStore : gmap string value)
  : gmap string value :=
  targetStore ∪ normalizedLegacy.

(** The loop that prepares the store to be written: entries that do not
    normalise are left out; a [null] entry raises.  [normalized] starts
    as [{}] and is assigned to without a test, so an entry under
    [__proto__] leaves no own property and is not written. *)
Fixpoint normalizeMergedEntries (entries : StoreEntries)
    (normalized : gmap string value) : outcome (gmap string value) :=
  match entries with
  | [] => Returned normalized
  | (key, entry) :: rest =>
      match normalizeSessionEntry (clockAt key) entry with
      | Thrown => Thrown
      | Returned None => normalizeMergedEntries rest normalized
      | Returned (Some normalizedEntry) =>
          normalizeMergedEntries rest (jsset normalized key normalizedEntry)
      end
  end.

(** The main-key block of [migrateLegacySessions]: when [merged] has no
    (truthy) entry under the main key, the latest direct legacy entry is
    put there, provided it has a (truthy) [sessionId]. Returns [merged] and
    the change it logs.  As in the first loop the assignment follows a
    falsy read, so it creates or updates an own property. *)
Definition adoptLatestDirect (mainKey : string) (legacyStore : StoreEntries)
    (merged : gmap string value) : gmap string value * list string :=
  if negb (truthy (jsget merged mainKey)) then
    match pickLatestLegacyDirectEntry legacyStore with
    | Some latest =>
        if truthy (getPropOpt latest "sessionId") then
          (<[mainKey := latest]> merged,
           ["Migrated latest direct-chat session → " ++ mainKey])
        else (merged, [])
    | None => (merged, [])
    end
  else (merged, []).

(** [merged] as it stands before the store is written. *)
Definition mergedSessions (detected : LegacyStateDetection)
    (legacyStore : StoreEntries) (targetStore : gmap string value)
  : gmap string value * list string :=
  let normalizedLegacy := normalizeLegacyStore (targetAgentId detected) legacyStore ∅ in
  let merged := mergeStores normalizedLegacy targetStore in
  let mainKey :=
    buildAgentMainSessionKey (targetAgentId detected) (targetMainKey detected) in
  adoptLatestDirect mainKey legacyStore merged.

(** [migrateLegacySessions], up to [saveSessionStore]; the moves of
    transcript files that follow do not touch the store. [legacyParsed] and
    [targetParsed] are what reading the two store files gave ([{}] and
    [ok] for a file that does not exist), the legacy store in
    [Object.entries] order. *)
Definition migrateLegacySessions (detected : LegacyStateDetection)
    (legacyParsed : ParsedStore StoreEntries)
    (targetParsed : ParsedStore (gmap string value)) : outcome SessionsMerge :=
  if negb (hasLegacy (sessions detected)) then
    Returned {| written := None; mergeLog := {| changes := []; warnings := [] |} |}
  else
    let legacyStore := store legacyParsed in
    let targetStore := store targetParsed in
    let '(merged, changes1) := mergedSessions detected legacyStore targetStore in
    let warnings1 :=
      if negb (ok legacyParsed) then
        ["Legacy sessions store unreadable; left in place at "
         ++ legacyStorePath (sessions detected)]
      else [] in
    if ok legacyParsed
       && ((0 <? length legacyStore)%nat || (0 <? size targetStore)%nat) then
      match normalizeMergedEntries (map_to_list merged) ∅ with
      | Thrown => Thrown
      | Returned normalized =>
          Returned
            {| written := Some normalized;
               mergeLog :=
                 {| changes := changes1
                               ++ ["Merged sessions store → "
                                   ++ targetStorePath (sessions detected)];
                    warnings := warnings1 |} |}
      end
    else
      Returned {| written := None;
                  mergeLog := {| changes := changes1; warnings := warnings1 |} |}.

End SessionsMigration.

(* ===================================================================== *)
(** ** Effects: state and exceptions *)
(* ===================================================================== *)

(** A computation over a state [S] that returns or throws. *)
Definition M (S A : Type) : Type := S -> outcome A * S.

Definition ret {S A} (a : A) : M S A := fun s => (Returned a, s).

Definition bind {S A B} (m : M S A) (k : A -> M S B) : M S B :=
  fun s => match m s with
           | (Returned a, s') => k a s'
           | (Thrown, s') => (Thrown, s')
           end.

Definition throw {S A} : M S A := fun s => (Thrown, s).

(** [try { m } catch { handler }] *)
Definition tryCatch {S A} (m handler : M S A) : M S A :=
  fun s => match m s with
           | (Thrown, s') => handler s'
           | r => r
           end.

Definition gets {S A} (f : S -> A) : M S A := fun s => (Returned (f s), s).
Definition modify {S} (f : S -> S) : M S unit := fun s => (Returned tt, f s).

Notation "'let*' x ':=' m 'in' k" := (bind m (fun x => k))
  (at level 10, x name, m at level 100, k at level 200,
   format "'[v' 'let*'  x  ':='  m  'in' '/' k ']'").
Notation "m ';;' k" := (bind m (fun _ => k))
  (at level 100, k at level 200, right associativity).

(* ===================================================================== *)
(** ** Auto-migration gate ([src/infra/state-migrations.ts]) *)
(* ===================================================================== *)

(** [env.NAME?.trim()] as a condition. *)
Definition envSet (env : gmap string string) (name : string) : bool :=
  match env !! name with
  | Some v => nonEmpty (trim v)
  | None => false
  end.

(** What the gate does to the outside: the routines it runs and the lines
    it logs. *)
Inductive Effect :=
  | RanDetect
  | RanMigrateSessions
  | RanMigrateAgentDir
  | LoggedInfo (message : string)
  | LoggedWarn (message : string).

Record AutoMigrateResult := {
  migrated : bool;
  skipped : bool;
  resultChanges : list string;
  resultWarnings : list string;
}.

Definition newline : string := String (ascii_of_nat 10) EmptyString.

(** [entries.map((entry) => `- ${entry}`).join("\n")] *)
Fixpoint bulletLines (entries : list string) : string :=
  match entries with
  | [] => ""
  | [entry] => "- " ++ entry
  | entry :: rest => "- " ++ entry ++ newline ++ bulletLines rest
  end.

Section AutoMigrate.

(** [ClawdbotConfig], and the state directory as it is on disk. *)
Variables Config FS : Type.

(** The process: the module-level flag, [process.env], the disk, and the
    effects so far. *)
Record Process := {
  autoMigrateChecked : bool;
  processEnv : gmap string string;
  disk : FS;
  effects : list Effect;
}.

(** [detectLegacyStateMigrations] only reads the disk. The two routines
    act on it; they may reject. *)
Variable detectLegacyStateMigrations :
  Config -> gmap string string -> FS -> LegacyStateDetection.
Variable migrateLegacySessionsOnDisk : LegacyStateDetection -> FS -> outcome MigrationLog * FS.
Variable migrateLegacyAgentDir : LegacyStateDetection -> FS -> outcome MigrationLog * FS.

Record AutoMigrateParams := {
  cfg : Config;
  env : option (gmap string string);
}.

Definition setChecked (p : Process) : Process :=
  {| autoMigrateChecked := true; processEnv := processEnv p;
     disk := disk p; effects := effects p |}.

Definition record (e : Effect) : M Process unit :=
  modify (fun p => {| autoMigrateChecked := autoMigrateChecked p;
                      processEnv := processEnv p;
                      disk := disk p; effects := effects p ++ [e] |}).

Definition onDisk (e : Effect) (routine : FS -> outcome MigrationLog * FS)
  : M Process MigrationLog :=
  fun p =>
    let '(r, disk') := routine (disk p) in
    (r, {| autoMigrateChecked := autoMigrateChecked p; processEnv := processEnv p;
           disk := disk'; effects := effects p ++ [e] |}).

Definition skippedResult : AutoMigrateResult :=
  {| migrated := false; skipped := true; resultChanges := []; resultWarnings := [] |}.

(** [autoMigrateLegacyState]; the flag is read and set before the first
    [await]. *)
Definition autoMigrateLegacyState (params : AutoMigrateParams)
  : M Process AutoMigrateResult :=
  let* checked := gets autoMigrateChecked in
  if checked then ret skippedResult
  else
    modify setChecked ;;
    let* procEnv := gets processEnv in
    let env := default procEnv (env params) in
    if envSet env "CLAWDBOT_AGENT_DIR" || envSet env "PI_CODING_AGENT_DIR" then
      ret skippedResult
    else
      record RanDetect ;;
      let* detected := gets (fun p => detectLegacyStateMigrations (cfg params) env (disk p)) in
      if negb (hasLegacy (sessions detected)) && negb (areaHasLegacy (agentDir detected)) then
        ret {| migrated := false; skipped := false;
               resultChanges := []; resultWarnings := [] |}
      else
        let* sessions := onDisk RanMigrateSessions (migrateLegacySessionsOnDisk detected) in
        let* agentDir := onDisk RanMigrateAgentDir (migrateLegacyAgentDir detected) in
        let changes := (changes sessions ++ changes agentDir)%list in
        let warnings := (warnings sessions ++ warnings agentDir)%list in
        (if (0 <? length changes)%nat then
           record (LoggedInfo ("Auto-migrated legacy state:" ++ newline ++ bulletLines changes))
         else ret tt) ;;
        (if (0 <? length warnings)%nat then
           record (LoggedWarn ("Legacy state migration warnings:" ++ newline
                               ++ bulletLines warnings))
         else ret tt) ;;
        ret {| migrated := (0 <? length changes)%nat; skipped := false;
               resultChanges := changes; resultWarnings := warnings |}.

(** Calls made one after the other in one process. *)
Fixpoint runCalls (calls : list AutoMigrateParams) (p : Process)
  : list (outcome AutoMigrateResult) * Process :=
  match calls with
  | [] => ([], p)
  | params :: rest =>
      let '(r, p1) := autoMigrateLegacyState params p in
      let '(rs, p2) := runCalls rest p1 in
      (r :: rs, p2)
  end.

End AutoMigrate.

Arguments autoMigrateChecked {FS} _.
Arguments processEnv {FS} _.
Arguments disk {FS} _.
Arguments effects {FS} _.
Arguments cfg {Config} _.
Arguments env {Config} _.

(* ===================================================================== *)
(** ** Session initialisation (the session module, lines 541-891) *)
(* ===================================================================== *)

Module Session.

(** [SessionEntry], with the fields the lifecycle decisions read or
    write.  The group, display, queue and delivery fields ([channel],
    [subject], [displayName], [queueMode], [lastChannel], ...) are copied
    from the reused entry or recomputed from the message; they are left
    out together with the code that fills them, which reads nothing that
    it does not write. *)
Record SessionEntry := {
  sessionId : string;
  updatedAt : Z;
  systemSent : option bool;
  abortedLastRun : option bool;
  thinkingLevel : option string;
  verboseLevel : option string;
  reasoningLevel : option string;
  modelOverride : option string;
  providerOverride : option string;
  sessionFile : option string;
  compactionCount : option Z;
}.

(** [MsgContext] *)
Record MsgContext := {
  Body : option string;
  RawBody : option string;
  CommandBody : option string;
  BodyForCommands : option string;
  BodyForAgent : option string;
  SessionKey : option string;
  CommandSource : option string;
  CommandTargetSessionKey : option string;
  ChatType : option string;
  ParentSessionKey : option string;
  MessageThreadId : option string;
}.

(** [cfg.session] *)
Record SessionConfig := {
  mainKey : option string;
  resetTriggers : option (list string);
  idleMinutes : option num;
  scope : option string;
  store : option string;
}.

Record ClawdbotConfig := {
  session : option SessionConfig;
}.

Record GroupKeyResolution := {
  channel : option string;
  id : string;
  groupChatType : option string;
}.

(** The outside world of one call: the clock and the UUID source as the
    sequences of values they hand out, the files that exist, which paths
    can be written, and the session stores on disk. *)
Record World := {
  clock : nat -> Z;
  ticks : nat;
  uuids : nat -> string;
  drawn : nat;
  files : gmap string string;
  writable : string -> bool;
  stores : gmap string (gmap string SessionEntry);
}.

(** [Date.now()] *)
Definition Date_now : M World Z :=
  fun w => (Returned (clock w (ticks w)),
            {| clock := clock w; ticks := S (ticks w); uuids := uuids w; drawn := drawn w;
               files := files w; writable := writable w; stores := stores w |}).

(** [crypto.randomUUID()] *)
Definition randomUUID : M World string :=
  fun w => (Returned (uuids w (drawn w)),
            {| clock := clock w; ticks := ticks w; uuids := uuids w; drawn := S (drawn w);
               files := files w; writable := writable w; stores := stores w |}).

(** [fs.existsSync] *)
Definition existsSync (path : string) : M World bool :=
  gets (fun w => bool_decide (is_Some (files w !! path))).

(** [fs.writeFileSync] *)
Definition writeFileSync (path content : string) : M World unit :=
  fun w =>
    if writable w path then
      (Returned tt,
       {| clock := clock w; ticks := ticks w; uuids := uuids w; drawn := drawn w;
          files := <[path := content]> (files w); writable := writable w;
          stores := stores w |})
    else (Thrown, w).

(** [loadSessionStore] *)
Definition loadSessionStore (storePath : string) : M World (gmap string SessionEntry) :=
  gets (fun w => default ∅ (stores w !! storePath)).

(** [updateSessionStore]: the mutator runs on the store as it is on disk. *)
Definition updateSessionStore (storePath : string)
    (mutator : gmap string SessionEntry -> gmap string SessionEntry) : M World unit :=
  modify (fun w =>
    {| clock := clock w; ticks := ticks w; uuids := uuids w; drawn := drawn w;
       files := files w; writable := writable w;
       stores := <[storePath := mutator (default ∅ (stores w !! storePath))]> (stores w) |}).

(** A [SessionManager] of the pi-coding-agent library, as its getters
    show it. *)
Record Manager := {
  getLeafId : option string;
  getSessionFile : option string;
  getSessionId : string;
  getSessionDir : string;
  getCwd : string;
}.

(** The header line of a transcript file. *)
Record SessionHeader := {
  headerVersion : Z;
  headerId : string;
  headerTimestamp : string;
  headerCwd : string;
  headerParentSession : string;
}.

(** The collaborators of [initSessionState]: configuration constants,
    the key resolver, the command authorisation, the text strippers, the
    path resolvers and the session manager. *)
Record Collaborators := {
  DEFAULT_IDLE_MINUTES : Z;
  DEFAULT_RESET_TRIGGERS : list string;
  CURRENT_SESSION_VERSION : Z;
  normalizeMainKey : option string -> string;
  resolveSessionAgentId : option string -> ClawdbotConfig -> string;
  resolveStorePath : option string -> string -> string;
  resolveGroupSessionKey : MsgContext -> option GroupKeyResolution;
  normalizeChatType : option string -> option string;
  stripStructuralPrefixes : string -> string;
  stripMentions : string -> MsgContext -> ClawdbotConfig -> string -> string;
  (* [resolveCommandAuthorization({ctx, cfg, commandAuthorized}).isAuthorizedSender] *)
  resolveCommandAuthorization : MsgContext -> ClawdbotConfig -> bool -> bool;
  resolveSessionKey : string -> MsgContext -> string -> string;
  resolveSessionFilePath : string -> SessionEntry -> option string;
  resolveSessionTranscriptPath : string -> string -> option string -> string;
  (* [SessionManager.open] and [manager.createBranchedSession]; the latter
     returns the new file, if any, and leaves the manager changed *)
  SessionManager_open : string -> M World Manager;
  createBranchedSession : Manager -> string -> M World (option string * Manager);
  toISOString : Z -> string;
  path_join : string -> string -> string;
  JSON_stringify : SessionHeader -> string;
}.

(** JavaScript truthiness of an optional string. *)
Definition truthyString (s : option string) : option string :=
  match s with
  | Some v => if nonEmpty v then Some v else None
  | None => None
  end.

(** [s.replace(/[:.]/g, "-")] *)
Fixpoint replaceColonDot (s : string) : string :=
  match s with
  | EmptyString => EmptyString
  | String c s' =>
      String (if Ascii.eqb c ":" || Ascii.eqb c "." then "-"%char else c)
             (replaceColonDot s')
  end.

Record Forked := {
  forkedSessionId : string;
  forkedSessionFile : string;
}.

(** The body of the [try] block of [forkSessionFromParent]. *)
Definition forkFromFile (C : Collaborators) (parentSessionFile : string)
  : M World (option Forked) :=
  let* manager := SessionManager_open C parentSessionFile in
  let* branched :=
    match truthyString (getLeafId manager) with
    | Some leafId =>
        let* r := createBranchedSession C manager leafId in
        let manager' := r.2 in
        let sessionFile :=
          match r.1 with Some f => Some f | None => getSessionFile manager' end in
        let sessionId := getSessionId manager' in
        ret (manager',
             match truthyString sessionFile with
             | Some sessionFile =>
                 if nonEmpty sessionId then
                   Some {| forkedSessionId := sessionId; forkedSessionFile := sessionFile |}
                 else None
             | None => None
             end)
    | None => ret (manager, None)
    end in
  match branched.2 with
  | Some forked => ret (Some forked)
  | None =>
      let manager := branched.1 in
      let* sessionId := randomUUID in
      let* date := Date_now in
      let timestamp := toISOString C date in
      let fileTimestamp := replaceColonDot timestamp in
      let sessionFile :=
        path_join C (getSessionDir manager) (fileTimestamp ++ "_" ++ sessionId ++ ".jsonl") in
      let header :=
        {| headerVersion := CURRENT_SESSION_VERSION C;
           headerId := sessionId;
           headerTimestamp := timestamp;
           headerCwd := getCwd manager;
           headerParentSession := parentSessionFile |} in
      writeFileSync sessionFile (JSON_stringify C header ++ newline) ;;
      ret (Some {| forkedSessionId := sessionId; forkedSessionFile := sessionFile |})
  end.

(** [forkSessionFromParent]; [None] is [null]. *)
Definition forkSessionFromParent (C : Collaborators) (parentEntry : SessionEntry)
  : M World (option Forked) :=
  match truthyString (resolveSessionFilePath C (sessionId parentEntry) parentEntry) with
  | None => ret None
  | Some parentSessionFile =>
      let* present := existsSync parentSessionFile in
      if negb present then ret None
      else tryCatch (forkFromFile C parentSessionFile) (ret None)
  end.

(** [initSessionState] *)

Record InitParams := {
  ctx : MsgContext;
  cfg : ClawdbotConfig;
  commandAuthorized : bool;
}.

Record SessionInitResult := {
  resultSessionEntry : SessionEntry;
  previousSessionEntry : option SessionEntry;
  resultSessionStore : gmap string SessionEntry;
  resultSessionKey : string;
  resultSessionId : string;
  isNewSession : bool;
  resultSystemSent : bool;
  resultAbortedLastRun : bool;
  resultStorePath : string;
  resultSessionScope : string;
  groupResolution : option GroupKeyResolution;
  isGroup : bool;
  bodyStripped : option string;
  triggerBodyNormalized : string;
}.

(** [{ ...ctx, SessionKey: targetSessionKey }] *)
Definition withSessionKey (c : MsgContext) (key : string) : MsgContext :=
  {| Body := Body c; RawBody := RawBody c; CommandBody := CommandBody c;
     BodyForCommands := BodyForCommands c; BodyForAgent := BodyForAgent c;
     SessionKey := Some key;
     CommandSource := CommandSource c;
     CommandTargetSessionKey := CommandTargetSessionKey c;
     ChatType := ChatType c; ParentSessionKey := ParentSessionKey c;
     MessageThreadId := MessageThreadId c |}.

(** [sessionCtxForState]: a native slash command acts on its target
    session. *)
Definition sessionCtxForState (c : MsgContext) : MsgContext :=
  let targetSessionKey :=
    if bool_decide (CommandSource c = Some "native")
    then trim <$> CommandTargetSessionKey c else None in
  match truthyString targetSessionKey with
  | Some target =>
      if negb (bool_decide (Some target = SessionKey c)) then withSessionKey c target else c
  | None => c
  end.

(** [sessionCfg?.resetTriggers?.length ? sessionCfg.resetTriggers
     : DEFAULT_RESET_TRIGGERS] *)
Definition resetTriggersOf (C : Collaborators) (config : ClawdbotConfig) : list string :=
  match session config ≫= resetTriggers with
  | Some (t :: ts) => t :: ts
  | _ => DEFAULT_RESET_TRIGGERS C
  end.

(** [Math.max(sessionCfg?.idleMinutes ?? DEFAULT_IDLE_MINUTES, 1)] *)
Definition idleMinutesOf (C : Collaborators) (config : ClawdbotConfig) : num :=
  num_max (default (Finite (DEFAULT_IDLE_MINUTES C)) (session config ≫= idleMinutes))
    (Finite 1).

(** [ctx.BodyForCommands ?? ctx.CommandBody ?? ctx.RawBody ?? ctx.Body ?? ""] *)
Definition commandSourceOf (c : MsgContext) : string :=
  match BodyForCommands c, CommandBody c, RawBody c, Body c with
  | Some b, _, _, _ => b
  | None, Some b, _, _ => b
  | None, None, Some b, _ => b
  | None, None, None, Some b => b
  | None, None, None, None => ""
  end.

Definition agentIdOf (C : Collaborators) (params : InitParams) : string :=
  resolveSessionAgentId C (SessionKey (sessionCtxForState (ctx params))) (cfg params).

Definition isGroupOf (C : Collaborators) (c : MsgContext) : bool :=
  match normalizeChatType C (ChatType c) with
  | Some t =>
      if negb (String.eqb t "direct") then true
      else bool_decide (is_Some (resolveGroupSessionKey C (sessionCtxForState c)))
  | None => bool_decide (is_Some (resolveGroupSessionKey C (sessionCtxForState c)))
  end.

Definition triggerBodyNormalizedOf (C : Collaborators) (c : MsgContext) : string :=
  toLowerCase (trim (stripStructuralPrefixes C (commandSourceOf c))).

Definition trimmedBodyOf (c : MsgContext) : string := trim (commandSourceOf c).

Definition strippedForResetOf (C : Collaborators) (params : InitParams) : string :=
  if isGroupOf C (ctx params)
  then stripMentions C (triggerBodyNormalizedOf C (ctx params)) (ctx params) (cfg params)
         (agentIdOf C params)
  else triggerBodyNormalizedOf C (ctx params).

(** The loop over the reset triggers. [Some body] when a reset is
    triggered, [body] being the stripped body; [None] otherwise. *)
Fixpoint scanResetTriggers (triggers : list string) (resetAuthorized : bool)
    (trimmedBody strippedForReset : string) : option string :=
  match triggers with
  | [] => None
  | trigger :: rest =>
      if negb (nonEmpty trigger) then
        scanResetTriggers rest resetAuthorized trimmedBody strippedForReset
      else if negb resetAuthorized then None
      else if String.eqb trimmedBody trigger || String.eqb strippedForReset trigger then
        Some ""
      else
        let triggerPrefix := trigger ++ " " in
        if startsWith trimmedBody triggerPrefix || startsWith strippedForReset triggerPrefix
        then Some (trimStart (slice strippedForReset (String.length trigger)))
        else scanResetTriggers rest resetAuthorized trimmedBody strippedForReset
  end.

Definition resetAuthorizedOf (C : Collaborators) (params : InitParams) : bool :=
  resolveCommandAuthorization C (ctx params) (cfg params) (commandAuthorized params).

Definition resetOf (C : Collaborators) (params : InitParams) : option string :=
  scanResetTriggers (resetTriggersOf C (cfg params)) (resetAuthorizedOf C params)
    (trimmedBodyOf (ctx params)) (strippedForResetOf C params).

Definition sessionScopeOf (params : InitParams) : string :=
  default "per-sender" (session (cfg params) ≫= scope).

Definition sessionKeyOf (C : Collaborators) (params : InitParams) : string :=
  resolveSessionKey C (sessionScopeOf params) (sessionCtxForState (ctx params))
    (normalizeMainKey C (session (cfg params) ≫= mainKey)).

Definition storePathOf (C : Collaborators) (params : InitParams) : string :=
  resolveStorePath C (session (cfg params) ≫= store) (agentIdOf C params).

(** [{ ...old, ...sessionEntry }]: [sessionEntry] always carries the
    fields of its literal; [sessionFile] and [compactionCount] only when
    they were set. *)
Definition spreadOver (old : option SessionEntry) (entry : SessionEntry) : SessionEntry :=
  {| sessionId := sessionId entry; updatedAt := updatedAt entry;
     systemSent := systemSent entry; abortedLastRun := abortedLastRun entry;
     thinkingLevel := thinkingLevel entry; verboseLevel := verboseLevel entry;
     reasoningLevel := reasoningLevel entry; modelOverride := modelOverride entry;
     providerOverride := providerOverride entry;
     sessionFile :=
       match sessionFile entry with Some f => Some f | None => old ≫= sessionFile end;
     compactionCount :=
       match compactionCount entry with
       | Some n => Some n
       | None => old ≫= compactionCount
       end |}.

Definition withFork (entry : SessionEntry) (forked : Forked) : SessionEntry :=
  {| sessionId := forkedSessionId forked; updatedAt := updatedAt entry;
     systemSent := systemSent entry; abortedLastRun := abortedLastRun entry;
     thinkingLevel := thinkingLevel entry; verboseLevel := verboseLevel entry;
     reasoningLevel := reasoningLevel entry; modelOverride := modelOverride entry;
     providerOverride := providerOverride entry;
     sessionFile := Some (forkedSessionFile forked);
     compactionCount := compactionCount entry |}.

Definition withSessionFile (entry : SessionEntry) (file : string) : SessionEntry :=
  {| sessionId := sessionId entry; updatedAt := updatedAt entry;
     systemSent := systemSent entry; abortedLastRun := abortedLastRun entry;
     thinkingLevel := thinkingLevel entry; verboseLevel := verboseLevel entry;
     reasoningLevel := reasoningLevel entry; modelOverride := modelOverride entry;
     providerOverride := providerOverride entry;
     sessionFile := Some file;
     compactionCount := compactionCount entry |}.

Definition withCompactionCount (entry : SessionEntry) (n : Z) : SessionEntry :=
  {| sessionId := sessionId entry; updatedAt := updatedAt entry;
     systemSent := systemSent entry; abortedLastRun := abortedLastRun entry;
     thinkingLevel := thinkingLevel entry; verboseLevel := verboseLevel entry;
     reasoningLevel := reasoningLevel entry; modelOverride := modelOverride entry;
     providerOverride := providerOverride entry;
     sessionFile := sessionFile entry;
     compactionCount := Some n |}.

(** The body follows the source from top to bottom.  The variables that
    the branches of [if (!isNewSession && freshEntry)] assign are given by
    cases on [baseEntry], which is the entry exactly when the first branch
    is taken.  [sessionId] is a string on every path, so the
    [sessionId ?? crypto.randomUUID()] of the returned object is
    [sessionId]. *)
Definition initSessionState (C : Collaborators) (params : InitParams)
  : M World SessionInitResult :=
  let ctx := ctx params in
  let cfg := cfg params in
  let agentId := agentIdOf C params in
  let idleMinutes := idleMinutesOf C cfg in
  let sessionScope := sessionScopeOf params in
  let storePath := storePathOf C params in
  let* sessionStore := loadSessionStore storePath in
  let groupResolution := resolveGroupSessionKey C (sessionCtxForState ctx) in
  let isGroup := isGroupOf C ctx in
  let triggerBodyNormalized := triggerBodyNormalizedOf C ctx in
  (* the loop over [resetTriggers] sets [isNewSession], [bodyStripped] and
     [resetTriggered] together *)
  let reset := resetOf C params in
  let resetTriggered := bool_decide (is_Some reset) in
  let bodyStripped := reset in
  let sessionKey := sessionKeyOf C params in
  let entry := sessionStore !! sessionKey in
  let previousSessionEntry := if resetTriggered then entry else None in
  let idleMs := num_mul idleMinutes (Finite 60000) in
  let* freshEntry :=
    match entry with
    | Some e => let* now := Date_now in ret (num_le (Finite (now - updatedAt e)) idleMs)
    | None => ret false
    end in
  let baseEntry := if negb resetTriggered && freshEntry then entry else None in
  let* sessionId :=
    match baseEntry with
    | Some e => ret (sessionId e)
    | None => randomUUID
    end in
  let isNewSession := match baseEntry with Some _ => false | None => true end in
  let systemSent := default false (baseEntry ≫= systemSent) in
  let abortedLastRun := default false (baseEntry ≫= abortedLastRun) in
  let* now := Date_now in
  let sessionEntry :=
    {| sessionId := sessionId;
       updatedAt := now;
       systemSent := Some systemSent;
       abortedLastRun := Some abortedLastRun;
       thinkingLevel := baseEntry ≫= thinkingLevel;
       verboseLevel := baseEntry ≫= verboseLevel;
       reasoningLevel := baseEntry ≫= reasoningLevel;
       modelOverride := baseEntry ≫= modelOverride;
       providerOverride := baseEntry ≫= providerOverride;
       sessionFile := baseEntry ≫= sessionFile;
       compactionCount := baseEntry ≫= compactionCount |} in
  let parentSessionKey := truthyString (trim <$> ParentSessionKey ctx) in
  let* forked :=
    match parentSessionKey with
    | Some parentKey =>
        if isNewSession && negb (String.eqb parentKey sessionKey) then
          match sessionStore !! parentKey with
          | Some parentEntry => forkSessionFromParent C parentEntry
          | None => ret None
          end
        else ret None
    | None => ret None
    end in
  let sessionId :=
    match forked with Some f => forkedSessionId f | None => sessionId end in
  let sessionEntry :=
    match forked with Some f => withFork sessionEntry f | None => sessionEntry end in
  let sessionEntry :=
    match truthyString (sessionFile sessionEntry) with
    | Some _ => sessionEntry
    | None =>
        withSessionFile sessionEntry
          (resolveSessionTranscriptPath C (Session.sessionId sessionEntry) agentId
             (MessageThreadId ctx))
    end in
  let sessionEntry :=
    if isNewSession then withCompactionCount sessionEntry 0 else sessionEntry in
  let sessionStore :=
    <[sessionKey := spreadOver (sessionStore !! sessionKey) sessionEntry]> sessionStore in
  updateSessionStore storePath
    (fun store => <[sessionKey := spreadOver (store !! sessionKey) sessionEntry]> store) ;;
  ret {| resultSessionEntry := sessionEntry;
         previousSessionEntry := previousSessionEntry;
         resultSessionStore := sessionStore;
         resultSessionKey := sessionKey;
         resultSessionId := sessionId;
         isNewSession := isNewSession;
         resultSystemSent := systemSent;
         resultAbortedLastRun := abortedLastRun;
         resultStorePath := storePath;
         resultSessionScope := sessionScope;
         groupResolution := groupResolution;
         isGroup := isGroup;
         bodyStripped := bodyStripped;
         triggerBodyNormalized := triggerBodyNormalized |}.

End Session.

(* ===================================================================== *)
(** ** The Zalo Personal monitor ([src/unnamed/part_000]) *)
(* ===================================================================== *)

Module Zalouser.

(** [entry.replace(/^(zalouser|zlu):/i, "")]: one prefix is dropped, once. *)
Definition stripChannelPrefix (entry : string) : string :=
  if startsWith (toLowerCase entry) "zalouser:" then slice entry 9
  else stripPrefixIgnoreCase entry "zlu:".

(** [isSenderAllowed] *)
Definition isSenderAllowed (senderId : string) (allowFrom : list string) : bool :=
  if existsb (String.eqb "*") allowFrom then true
  else
    let normalizedSenderId := toLowerCase senderId in
    existsb (fun entry =>
               let normalized := stripChannelPrefix (toLowerCase entry) in
               String.eqb normalized normalizedSenderId)
      allowFrom.

(** *** The listener's line buffer ([startZcaListener]) *)

(** [s.split("\n")] *)
Fixpoint split_newline (s : string) : list string :=
  match s with
  | EmptyString => [EmptyString]
  | String c rest =>
      if Ascii.eqb c (ascii_of_nat 10) then EmptyString :: split_newline rest
      else
        match split_newline rest with
        | line :: lines => String c line :: lines
        | [] => [String c EmptyString]
        end
  end.

(** [for (const x of xs) { body(x) }] *)
Fixpoint forEach {S A} (body : A -> M S unit) (xs : list A) : M S unit :=
  match xs with
  | [] => ret tt
  | x :: rest => body x ;; forEach body rest
  end.

Section Listener.

(** The messages, what [JSON.parse] makes of a line ([None] when it
    throws), and the [onMessage] callback acting on the state [S] outside
    the listener. *)
Variables Msg S : Type.
Variable JSON_parse : string -> option Msg.
Variable onMessage : Msg -> M S unit.

(** The listener: its [buffer], and the state outside. *)
Record Listener := {
  buffer : string;
  outside : S;
}.

(** The body of the loop over the complete lines. *)
Definition handleLine (line : string) : M S unit :=
  let trimmed := trim line in
  if negb (nonEmpty trimmed) then ret tt
  else
    tryCatch
      (match JSON_parse trimmed with
       | Some parsed => onMessage parsed
       | None => throw
       end)
      (ret tt).

(** The [onData] callback. *)
Definition onData (chunk : string) : M Listener unit :=
  fun l =>
    let buffer := buffer l ++ chunk in
    let lines := split_newline buffer in
    (* [lines.pop() ?? ""] *)
    let buffer := List.last lines "" in
    let lines := List.removelast lines in
    let '(r, s) := forEach handleLine lines (outside l) in
    (r, {| buffer := buffer; outside := s |}).

End Listener.

Arguments buffer {S} _.
Arguments outside {S} _.

(** *** Delivery of a reply ([deliverZalouserReply]) *)

Definition ZALOUSER_TEXT_LIMIT : Z := 2000.

(** The arguments of one call of [sendMessageZalouser]. *)
Record Send := {
  sendThreadId : string;
  sendText : string;
  sendProfile : string;
  sendMediaUrl : option string;
  sendIsGroup : bool;
}.

Inductive Event :=
  | Sent (send : Send)
  | Logged (message : string)
  | LoggedError (message : string)
  | StatusOutbound (lastOutboundAt : Z).

(** The outside of a delivery: the clock, [deps.shouldLogVerbose()], the
    sends that [sendMessageZalouser] rejects (with [String(err)]), and
    the events so far.  [runtime.log], [runtime.error] and [statusSink]
    record an event and return. *)
Record Wire := {
  clock : nat -> Z;
  ticks : nat;
  shouldLogVerbose : bool;
  rejects : Send -> option string;
  events : list Event;
}.

Definition emit (e : Event) : M Wire unit :=
  modify (fun w => {| clock := clock w; ticks := ticks w;
                      shouldLogVerbose := shouldLogVerbose w; rejects := rejects w;
                      events := events w ++ [e] |}).

(** [Date.now()] *)
Definition Date_now : M Wire Z :=
  fun w => (Returned (clock w (ticks w)),
            {| clock := clock w; ticks := S (ticks w);
               shouldLogVerbose := shouldLogVerbose w; rejects := rejects w;
               events := events w |}).

(** [logVerbose] *)
Definition logVerbose (message : string) : M Wire unit :=
  let* verbose := gets shouldLogVerbose in
  if verbose then emit (Logged ("[zalouser] " ++ message)) else ret tt.

Definition runtime_error (message : string) : M Wire unit := emit (LoggedError message).

(** [sendMessageZalouser]: the call is made, and rejected or not. *)
Definition sendMessageZalouser (send : Send) : M Wire unit :=
  emit (Sent send) ;;
  let* rejected := gets (fun w => rejects w send) in
  match rejected with
  | Some _ => throw
  | None => ret tt
  end.

Record Payload := {
  text : option string;
  mediaUrls : option (list string);
  mediaUrl : option string;
}.

Record DeliverParams := {
  payload : Payload;
  profile : string;
  chatId : string;
  isGroup : bool;
  (* whether a [statusSink] is given *)
  statusSink : bool;
}.

(** [statusSink?.({ lastOutboundAt: Date.now() })] *)
Definition reportOutbound (params : DeliverParams) : M Wire unit :=
  if statusSink params then
    let* now := Date_now in emit (StatusOutbound now)
  else ret tt.

(** [payload.mediaUrls?.length ? payload.mediaUrls
     : payload.mediaUrl ? [payload.mediaUrl] : []] *)
Definition mediaListOf (payload : Payload) : list string :=
  match mediaUrls payload with
  | Some (url :: urls) => url :: urls
  | _ =>
      match mediaUrl payload with
      | Some url => if nonEmpty url then [url] else []
      | None => []
      end
  end.

(** One send inside its [try]; [String(err)] is what the rejection
    gives. *)
Definition trySend (params : DeliverParams) (announce : M Wire unit) (send : Send)
    (failure : string) : M Wire unit :=
  tryCatch
    (announce ;;
     sendMessageZalouser send ;;
     reportOutbound params)
    (let* rejected := gets (fun w => rejects w send) in
     runtime_error (failure ++ default "" rejected)).

(** The loop over the media; [first] is the variable of that name. *)
Fixpoint sendMedia (params : DeliverParams) (mediaList : list string) (first : bool)
  : M Wire unit :=
  match mediaList with
  | [] => ret tt
  | mediaUrl :: rest =>
      let caption := if first then text (payload params) else None in
      trySend params
        (logVerbose ("Sending media to " ++ chatId params))
        {| sendThreadId := chatId params; sendText := default "" caption;
           sendProfile := profile params; sendMediaUrl := Some mediaUrl;
           sendIsGroup := isGroup params |}
        "Zalouser media send failed: " ;;
      sendMedia params rest false
  end.

Definition sendChunk (params : DeliverParams) (chunk : string) : M Wire unit :=
  trySend params (ret tt)
    {| sendThreadId := chatId params; sendText := chunk;
       sendProfile := profile params; sendMediaUrl := None;
       sendIsGroup := isGroup params |}
    "Zalouser message send failed: ".

Section Deliver.

(** [deps.chunkMarkdownText] *)
Variable chunkMarkdownText : string -> Z -> list string.

(** [deliverZalouserReply] *)
Definition deliverZalouserReply (params : DeliverParams) : M Wire unit :=
  let mediaList := mediaListOf (payload params) in
  if (0 <? length mediaList)%nat then sendMedia params mediaList true
  else
    match text (payload params) with
    | Some text =>
        if nonEmpty text then
          let chunks := chunkMarkdownText text ZALOUSER_TEXT_LIMIT in
          logVerbose ("Sending " ++ NilZero.string_of_uint (Nat.to_uint (length chunks))
                      ++ " text chunk(s) to " ++ chatId params) ;;
          forEach (sendChunk params) chunks
        else ret tt
    | None => ret tt
    end.

End Deliver.

(** The calls of [sendMessageZalouser] among some events, in order. *)
Definition sendsOf (trace : list Event) : list Send :=
  omap (fun e => match e with Sent s => Some s | _ => None end) trace.

Definition errorsOf (trace : list Event) : list string :=
  omap (fun e => match e with LoggedError m => Some m | _ => None end) trace.

Definition reportsOf (trace : list Event) : list Z :=
  omap (fun e => match e with StatusOutbound t => Some t | _ => None end) trace.

End Zalouser.

(* ===================================================================== *)
(** ** Vocabulary of the properties *)
(* ===================================================================== *)

(** Nothing to trim at the end, resp. at the start. *)
Definition noTrail (s : string) : Prop := trimEnd s = s.
Definition noLead (s : string) : Prop := trimStart s = s.

(** The keys [pickLatestLegacyDirectEntry] does not skip: not blank, not
    "global", no agent or subagent prefix, no group key. *)
Definition isDirectKey (key : string) : bool :=
  let normalized := trim key in
  nonEmpty normalized
  && negb (String.eqb normalized "global")
  && negb (startsWith normalized "agent:")
  && negb (startsWith (toLowerCase normalized) "subagent:")
  && negb (isLegacyGroupKey normalized || isSurfaceGroupKey normalized).

(** The entries it does not skip: objects. *)
Definition isObjectEntry (entry : value) : bool :=
  truthy entry && typeofIsObject entry.

(** [updatedAt] as the scan reads it: anything but a number counts as 0. *)
Definition updatedAtOf (entry : value) : num :=
  match getPropOpt entry "updatedAt" with Num n => n | _ => Finite 0 end.

(** An entry the scan can pick: direct, and newer than the initial [-1]. *)
Definition eligible (kv : string * value) : bool :=
  isObjectEntry (snd kv) && isDirectKey (fst kv)
  && num_gt (updatedAtOf (snd kv)) (Finite (-1)).

(** [entry] sits at position [i] of the store, is eligible, no eligible
    entry is newer, and it is strictly newer than every eligible entry
    before it: the first entry with the greatest [updatedAt]. *)
Definition LatestDirectAt (store : StoreEntries) (i : nat) (entry : value) : Prop :=
  (exists key, store !! i = Some (key, entry) /\ eligible (key, entry) = true) /\
  (forall j kv, store !! j = Some kv -> eligible kv = true ->
                num_gt (updatedAtOf (snd kv)) (updatedAtOf entry) = false) /\
  (forall j kv, (j < i)%nat -> store !! j = Some kv -> eligible kv = true ->
                num_gt (updatedAtOf entry) (updatedAtOf (snd kv)) = true).

(** A computation keeps a property of the state, whether it returns or
    throws. *)
Definition keeps {S A} (I : S -> Prop) (m : M S A) : Prop :=
  forall s, I s -> I (m s).2.

(** What the loop of [pickLatestLegacyDirectEntry] holds in
    [(best, bestUpdated)] after it has seen a prefix of the store. *)
Definition scanned (seen : list (string * value)) (acc : option value * num) : Prop :=
  match fst acc with
  | None => snd acc = Finite (-1) /\ forall kv, kv ∈ seen -> eligible kv = false
  | Some e => snd acc = updatedAtOf e /\ exists i, LatestDirectAt seen i e
  end.

(** What the write loop leaves under a key whose merged entry is [entry],
    [Date.now()] being [now]: the normalised entry, or nothing when there
    is no entry or it does not normalise. *)
Definition normalizedAt (now : Z) (entry : option value) : option value :=
  match entry with
  | Some e =>
      match normalizeSessionEntry now e with
      | Returned (Some e') => Some e'
      | _ => None
      end
  | None => None
  end.

(** [typeof entry.sessionId === "string"] *)
Definition sessionIdIsString (entry : value) : bool :=
  match getPropOpt entry "sessionId" with Str _ => true | _ => false end.

(** [typeof entry.updatedAt === "number" && Number.isFinite(entry.updatedAt)] *)
Definition updatedAtIsFinite (entry : value) : bool :=
  match getPropOpt entry "updatedAt" with Num n => num_isFinite n | _ => false end.

(** *** Session initialisation *)

(** The store [initSessionState] loads, and the entry under the resolved
    key. *)
Definition storeOf (C : Session.Collaborators) (params : Session.InitParams)
    (w : Session.World) : gmap string Session.SessionEntry :=
  default ∅ (Session.stores w !! Session.storePathOf C params).

Definition storedEntry (C : Session.Collaborators) (params : Session.InitParams)
    (w : Session.World) : option Session.SessionEntry :=
  storeOf C params w !! Session.sessionKeyOf C params.

(** [idleMs], and the time the call reads first. *)
Definition idleMsOf (C : Session.Collaborators) (params : Session.InitParams) : num :=
  num_mul (Session.idleMinutesOf C (Session.cfg params)) (Finite 60000).

Definition nowOf (w : Session.World) : Z := Session.clock w (Session.ticks w).

(** The UUID the call draws first. *)
Definition uuidOf (w : Session.World) : string := Session.uuids w (Session.drawn w).

(** The entry the call reuses: there is one under the key, no reset is
    triggered, and it is within the idle window. *)
Definition reusedEntry (C : Session.Collaborators) (params : Session.InitParams)
    (w : Session.World) : option Session.SessionEntry :=
  match storedEntry C params w with
  | Some e =>
      if negb (bool_decide (is_Some (Session.resetOf C params)))
         && num_le (Finite (nowOf w - Session.updatedAt e)) (idleMsOf C params)
      then Some e else None
  | None => None
  end.

(** The world after one clock reading, resp. one UUID. *)
Definition tick (w : Session.World) : Session.World := (Session.Date_now w).2.
Definition draw (w : Session.World) : Session.World := (Session.randomUUID w).2.

(** The world in which a new session reaches the fork: the clock was read
    for the idle test (if there is an entry), a UUID was drawn, the clock
    was read for [updatedAt]. *)
Definition worldAtFork (C : Session.Collaborators) (params : Session.InitParams)
    (w : Session.World) : Session.World :=
  tick (draw (match storedEntry C params w with Some _ => tick w | None => w end)).

(** The parent entry a new session is forked from: a parent key is
    supplied, differs from the session key and has an entry. *)
Definition parentEntryOf (C : Session.Collaborators) (params : Session.InitParams)
    (w : Session.World) : option Session.SessionEntry :=
  match Session.truthyString (trim <$> Session.ParentSessionKey (Session.ctx params)) with
  | Some parentKey =>
      if negb (String.eqb parentKey (Session.sessionKeyOf C params))
      then storeOf C params w !! parentKey else None
  | None => None
  end.

(** An id made during the call: the UUID it draws, or the id a successful
    fork of a stored entry reports. *)
Definition generatedId (C : Session.Collaborators) (params : Session.InitParams)
    (w : Session.World) (id : string) : Prop :=
  id = uuidOf w \/
  exists parentEntry forked w',
    parentEntryOf C params w = Some parentEntry /\
    Session.forkSessionFromParent C parentEntry (worldAtFork C params w)
      = (Returned (Some forked), w') /\
    id = Session.forkedSessionId forked.

(** The message matches a reset trigger: the trimmed body or the stripped
    body equals it, or starts with it followed by a blank. *)
Definition matchesTrigger (trimmedBody strippedForReset trigger : string) : Prop :=
  trimmedBody = trigger \/ strippedForReset = trigger \/
  startsWith trimmedBody (trigger ++ " ") = true \/
  startsWith strippedForReset (trigger ++ " ") = true.

(* ===================================================================== *)
(** ** Sample collaborators *)
(* ===================================================================== *)

(** The collaborators of [src/routing/session-key.ts] are parameters of the
    model. To run it on concrete stores they are given these values. *)
Definition sampleNormalizeAgentId (agentId : string) : string :=
  toLowerCase (trim agentId).

Definition sampleBuildAgentMainSessionKey (agentId mainKey : string) : string :=
  "agent:" ++ sampleNormalizeAgentId agentId ++ ":" ++ toLowerCase (trim mainKey).

Definition sampleClockAt (key : string) : Z := 1700000000000.

(** A well-formed entry: [{ sessionId, updatedAt }]. *)
Definition entryOf (sessionId : string) (updatedAt : Z) : value :=
  Obj (<["updatedAt" := Num (Finite updatedAt)]> {["sessionId" := Str sessionId]}).

Definition sampleDetection : LegacyStateDetection :=
  {| targetAgentId := "default";
     targetMainKey := "main";
     stateDir := "/state";
     oauthDir := "/state/credentials";
     sessions :=
       {| legacyDir := "/state/sessions";
          legacyStorePath := "/state/sessions/sessions.json";
          targetDir := "/state/agents/default/sessions";
          targetStorePath := "/state/agents/default/sessions/sessions.json";
          hasLegacy := true |};
     agentDir :=
       {| areaLegacyDir := "/state/agent";
          areaTargetDir := "/state/agents/default/agent";
          areaHasLegacy := false |};
     whatsappAuth :=
       {| areaLegacyDir := "/state/credentials";
          areaTargetDir := "/state/credentials/whatsapp/default";
          areaHasLegacy := false |};
     preview := ["- Sessions: /state/sessions → /state/agents/default/sessions"] |}.

(** A legacy group session that the target store already holds under its
    canonical key. *)
Definition legacyGroupStore : list (string * value) :=
  [("group:12345@g.us", entryOf "legacy-group" 20)].
Definition targetGroupStore : gmap string value :=
  {["agent:default:whatsapp:group:12345@g.us" := entryOf "target-group" 10]}.

(** The same key in a target store whose entry has no [sessionId]. *)
Definition targetLooseStore : gmap string value :=
  {["agent:default:whatsapp:group:12345@g.us" := Obj {["updatedAt" := Num (Finite 10)]}]}.

(** The example of the specification: one direct legacy session. *)
Definition legacyDirectStore : list (string * value) :=
  [("userA", entryOf "s1" 10)].

(** A legacy store that also holds the global-scope session, newer than
    the direct one. *)
Definition legacyGlobalStore : list (string * value) :=
  [("global", entryOf "g" 100); ("userA", entryOf "s1" 10)].

(** A legacy store with an entry that has no [sessionId] and one whose
    [updatedAt] is not finite. *)
Definition legacyRaggedStore : list (string * value) :=
  [("userA", entryOf "s1" 10);
   ("userB", Obj {["updatedAt" := Num (Finite 5)]});
   ("userC", Obj (<["updatedAt" := Num NaN]> {["sessionId" := Str "s3"]}))].

(** A disk given by the list of its files, and routines that move the
    legacy sessions store. *)
Definition sampleDetect (cfg : unit) (env : gmap string string) (files : list string)
  : LegacyStateDetection := sampleDetection.

Definition sampleMigrateSessionsOnDisk (detected : LegacyStateDetection)
    (files : list string) : outcome MigrationLog * list string :=
  (Returned {| changes := ["Merged sessions store → " ++ targetStorePath (sessions detected)];
               warnings := [] |},
   [targetStorePath (sessions detected)]).

Definition sampleMigrateAgentDir (detected : LegacyStateDetection)
    (files : list string) : outcome MigrationLog * list string :=
  (Returned {| changes := []; warnings := [] |}, files).

Definition freshProcess : Process (list string) :=
  {| autoMigrateChecked := false; processEnv := ∅;
     disk := ["/state/sessions/sessions.json"]; effects := [] |}.

Definition overriddenProcess : Process (list string) :=
  {| autoMigrateChecked := false;
     processEnv := {["PI_CODING_AGENT_DIR" := "/srv/agent"]};
     disk := ["/state/sessions/sessions.json"]; effects := [] |}.

Definition plainCall : AutoMigrateParams unit := {| cfg := tt; env := None |}.

(** Collaborators of [initSessionState] for a single agent "main" whose
    sessions live in one store; the session manager cannot open a
    transcript. *)
Definition sampleCollaborators : Session.Collaborators :=
  {| Session.DEFAULT_IDLE_MINUTES := 60;
     Session.DEFAULT_RESET_TRIGGERS := ["/new"; "/reset"];
     Session.CURRENT_SESSION_VERSION := 2;
     Session.normalizeMainKey := fun key => default "main" (Session.truthyString key);
     Session.resolveSessionAgentId := fun _ _ => "main";
     Session.resolveStorePath := fun _ agentId => "/state/agents/" ++ agentId ++ "/sessions.json";
     Session.resolveGroupSessionKey := fun _ => None;
     Session.normalizeChatType := fun chatType => chatType;
     Session.stripStructuralPrefixes := fun body => body;
     Session.stripMentions := fun body _ _ _ => body;
     Session.resolveCommandAuthorization := fun _ _ commandAuthorized => commandAuthorized;
     Session.resolveSessionKey :=
       fun _ c mainKey => default ("agent:main:" ++ mainKey) (Session.SessionKey c);
     Session.resolveSessionFilePath :=
       fun sessionId entry =>
         match Session.sessionFile entry with
         | Some file => Some file
         | None => Some ("/state/agents/main/" ++ sessionId ++ ".jsonl")
         end;
     Session.resolveSessionTranscriptPath :=
       fun sessionId agentId _ => "/state/agents/" ++ agentId ++ "/" ++ sessionId ++ ".jsonl";
     Session.SessionManager_open := fun _ => throw;
     Session.createBranchedSession := fun manager _ => ret (None, manager);
     Session.toISOString := fun _ => "2026-01-01T00:00:00.000Z";
     Session.path_join := fun dir name => dir ++ "/" ++ name;
     Session.JSON_stringify := fun header => "{}" |}.

Definition sampleSessionEntry (sessionId : string) (updatedAt : Z) : Session.SessionEntry :=
  {| Session.sessionId := sessionId; Session.updatedAt := updatedAt;
     Session.systemSent := Some true; Session.abortedLastRun := None;
     Session.thinkingLevel := Some "high"; Session.verboseLevel := None;
     Session.reasoningLevel := None; Session.modelOverride := None;
     Session.providerOverride := None; Session.sessionFile := None;
     Session.compactionCount := Some 3 |}.

(** The clock stands at 1 000 000 ms; the main session was updated ten
    seconds ago, the parent session long ago; no transcript file exists. *)
Definition sampleWorld : Session.World :=
  {| Session.clock := fun _ => 1000000;
     Session.ticks := 0;
     Session.uuids := fun n => if (n =? 0)%nat then "uuid-0" else "uuid-n";
     Session.drawn := 0;
     Session.files := ∅;
     Session.writable := fun _ => true;
     Session.stores :=
       {["/state/agents/main/sessions.json" :=
           <["agent:main:parent" := sampleSessionEntry "parent-id" 1]>
             {["agent:main:main" := sampleSessionEntry "stored-id" 990000]}]} |}.

(** The same world an hour and a half later. *)
Definition staleWorld : Session.World :=
  {| Session.clock := fun _ => 6390000;
     Session.ticks := Session.ticks sampleWorld;
     Session.uuids := Session.uuids sampleWorld;
     Session.drawn := Session.drawn sampleWorld;
     Session.files := Session.files sampleWorld;
     Session.writable := Session.writable sampleWorld;
     Session.stores := Session.stores sampleWorld |}.

Definition sampleContext (body : string) (sessionKey parentKey : option string)
  : Session.MsgContext :=
  {| Session.Body := Some body; Session.RawBody := None; Session.CommandBody := None;
     Session.BodyForCommands := None; Session.BodyForAgent := None;
     Session.SessionKey := sessionKey; Session.CommandSource := None;
     Session.CommandTargetSessionKey := None; Session.ChatType := None;
     Session.ParentSessionKey := parentKey; Session.MessageThreadId := None |}.

Definition sampleConfig (triggers : option (list string)) (idle : option num)
  : Session.ClawdbotConfig :=
  {| Session.session :=
       Some {| Session.mainKey := None; Session.resetTriggers := triggers;
               Session.idleMinutes := idle; Session.scope := None;
               Session.store := None |} |}.

(** A message to the main session. *)
Definition mainMessage (body : string) (authorized : bool) : Session.InitParams :=
  {| Session.ctx := sampleContext body None None;
     Session.cfg := sampleConfig None None;
     Session.commandAuthorized := authorized |}.

(** The empty message, with the empty string configured as the only
    reset trigger. *)
Definition emptyTriggerMessage : Session.InitParams :=
  {| Session.ctx := sampleContext "" None None;
     Session.cfg := sampleConfig (Some [""]) None;
     Session.commandAuthorized := true |}.




(** The first message of a thread whose parent is the parent session. *)
Definition threadMessage : Session.InitParams :=
  {| Session.ctx :=
       sampleContext "hello" (Some "agent:main:thread") (Some "agent:main:parent");
     Session.cfg := sampleConfig None None;
     Session.commandAuthorized := false |}.

(* ===================================================================== *)
(** ** Vocabulary of the further properties *)
(* ===================================================================== *)

(** Rules 3 to 6: the rules that rewrite a group key. *)
Definition isGroupRule (r : KeyRule) : bool :=
  match r with
  | RuleGroup | RuleBareGroupId | RuleWhatsApp | RuleSurface => true
  | _ => false
  end.

(** The lines logged at each level, and the routines run, in a trace of
    effects. *)
Definition infoLines (trace : list Effect) : list string :=
  omap (fun e => match e with LoggedInfo m => Some m | _ => None end) trace.

Definition warnLines (trace : list Effect) : list string :=
  omap (fun e => match e with LoggedWarn m => Some m | _ => None end) trace.

Definition isRoutine (e : Effect) : bool :=
  match e with
  | RanDetect | RanMigrateSessions | RanMigrateAgentDir => true
  | _ => false
  end.

Definition routinesRun (trace : list Effect) : list Effect :=
  List.filter isRoutine trace.

(** A sessions routine that rejects, as [saveSessionStore] may. *)
Definition failingMigrateSessionsOnDisk (detected : LegacyStateDetection)
    (files : list string) : outcome MigrationLog * list string :=
  (Thrown, files).

(** A process whose flag is already set. *)
Definition checkedProcess : Process (list string) :=
  {| autoMigrateChecked := true; processEnv := ∅;
     disk := ["/state/sessions/sessions.json"]; effects := [] |}.

(** Collaborators whose session manager opens a transcript that has no
    leaf, and a world in which the parent's transcript exists. *)
Definition openingCollaborators : Session.Collaborators :=
  {| Session.DEFAULT_IDLE_MINUTES := Session.DEFAULT_IDLE_MINUTES sampleCollaborators;
     Session.DEFAULT_RESET_TRIGGERS := Session.DEFAULT_RESET_TRIGGERS sampleCollaborators;
     Session.CURRENT_SESSION_VERSION := Session.CURRENT_SESSION_VERSION sampleCollaborators;
     Session.normalizeMainKey := Session.normalizeMainKey sampleCollaborators;
     Session.resolveSessionAgentId := Session.resolveSessionAgentId sampleCollaborators;
     Session.resolveStorePath := Session.resolveStorePath sampleCollaborators;
     Session.resolveGroupSessionKey := Session.resolveGroupSessionKey sampleCollaborators;
     Session.normalizeChatType := Session.normalizeChatType sampleCollaborators;
     Session.stripStructuralPrefixes := Session.stripStructuralPrefixes sampleCollaborators;
     Session.stripMentions := Session.stripMentions sampleCollaborators;
     Session.resolveCommandAuthorization :=
       Session.resolveCommandAuthorization sampleCollaborators;
     Session.resolveSessionKey := Session.resolveSessionKey sampleCollaborators;
     Session.resolveSessionFilePath := Session.resolveSessionFilePath sampleCollaborators;
     Session.resolveSessionTranscriptPath :=
       Session.resolveSessionTranscriptPath sampleCollaborators;
     Session.SessionManager_open :=
       fun file =>
         ret {| Session.getLeafId := None; Session.getSessionFile := Some file;
                Session.getSessionId := "parent-id";
                Session.getSessionDir := "/state/agents/main"; Session.getCwd := "/work" |};
     Session.createBranchedSession := Session.createBranchedSession sampleCollaborators;
     Session.toISOString := Session.toISOString sampleCollaborators;
     Session.path_join := Session.path_join sampleCollaborators;
     Session.JSON_stringify :=
       fun header => "{parentSession:" ++ Session.headerParentSession header ++ "}" |}.

Definition transcriptWorld : Session.World :=
  {| Session.clock := Session.clock sampleWorld;
     Session.ticks := Session.ticks sampleWorld;
     Session.uuids := Session.uuids sampleWorld;
     Session.drawn := Session.drawn sampleWorld;
     Session.files := {["/state/agents/main/parent-id.jsonl" := "{}"]};
     Session.writable := Session.writable sampleWorld;
     Session.stores := Session.stores sampleWorld |}.

(** A legacy store in which two keys normalise to one: a [null] entry
    first, then the entry that wins, then a later one. *)
Definition legacyCollidingStore : list (string * value) :=
  [("userA", entryOf "s1" 10);
   ("group:12345@g.us", Null);
   ("group:12345@g.us", entryOf "first" 20);
   ("whatsapp:group:12345@g.us", entryOf "second" 30)].

(** *** The Zalo Personal monitor *)

(** A string without a line feed: [split("\n")] leaves it whole. *)
Definition singleLine (s : string) : Prop := Zalouser.split_newline s = [s].

(** The send of one media with its caption, and the send of one chunk of
    text. *)
Definition mediaSend (params : Zalouser.DeliverParams) (caption : option string)
    (mediaUrl : string) : Zalouser.Send :=
  {| Zalouser.sendThreadId := Zalouser.chatId params;
     Zalouser.sendText := default "" caption;
     Zalouser.sendProfile := Zalouser.profile params;
     Zalouser.sendMediaUrl := Some mediaUrl;
     Zalouser.sendIsGroup := Zalouser.isGroup params |}.

Definition chunkSend (params : Zalouser.DeliverParams) (chunk : string) : Zalouser.Send :=
  {| Zalouser.sendThreadId := Zalouser.chatId params;
     Zalouser.sendText := chunk;
     Zalouser.sendProfile := Zalouser.profile params;
     Zalouser.sendMediaUrl := None;
     Zalouser.sendIsGroup := Zalouser.isGroup params |}.

(** The sends the media loop makes: the caption goes with the first media
    when [first] is set, and with no other. *)
Definition mediaSends (params : Zalouser.DeliverParams) (mediaList : list string)
    (first : bool) : list Zalouser.Send :=
  match mediaList with
  | [] => []
  | url :: urls =>
      mediaSend params (if first then Zalouser.text (Zalouser.payload params) else None) url
      :: map (mediaSend params None) urls
  end.

(** The error lines for the sends that are rejected, and the number of
    sends that are not. *)
Definition rejectionsOf (w : Zalouser.Wire) (failure : string) (sends : list Zalouser.Send)
  : list string :=
  omap (fun send => (fun err => failure ++ err) <$> Zalouser.rejects w send) sends.

Definition acceptedBy (w : Zalouser.Wire) (sends : list Zalouser.Send) : nat :=
  length (List.filter (fun send => bool_decide (Zalouser.rejects w send = None)) sends).

(** What a delivery adds to the events: [trace], with these sends, one
    error line for each rejected send, and one status report for each
    accepted send when there is a status sink. *)
Definition delivers (params : Zalouser.DeliverParams) (w : Zalouser.Wire)
    (run : outcome unit * Zalouser.Wire) (failure : string) (sends : list Zalouser.Send)
  : Prop :=
  exists w' trace,
    run = (Returned tt, w') /\
    Zalouser.events w' = (Zalouser.events w ++ trace)%list /\
    Zalouser.rejects w' = Zalouser.rejects w /\
    Zalouser.shouldLogVerbose w' = Zalouser.shouldLogVerbose w /\
    Zalouser.sendsOf trace = sends /\
    Zalouser.errorsOf trace = rejectionsOf w failure sends /\
    length (Zalouser.reportsOf trace)
    = (if Zalouser.statusSink params then acceptedBy w sends else 0%nat).

(* ===================================================================== *)
(** * Properties *)
(* ===================================================================== *)

(** ** Trimming *)

Lemma trimStart_length s : (String.length (trimStart s) <= String.length s)%nat.
Proof.
  induction s as [|c s IH]; simpl; [lia|].
  destruct (isWhiteSpace c); simpl; lia.
Qed.

Lemma noLead_cons c s : noLead (String c s) -> isWhiteSpace c = false.
Proof.
  unfold noLead; simpl. destruct (isWhiteSpace c); [|done].
  intros H. pose proof (trimStart_length s) as L.
  rewrite H in L. simpl in L. lia.
Qed.

Lemma trimStart_noLead s : noLead (trimStart s).
Proof.
  unfold noLead. induction s as [|c s IH]; simpl; [done|].
  destruct (isWhiteSpace c) eqn:E; [done|]. simpl. by rewrite E.
Qed.

Lemma trimEnd_cons c s :
  trimEnd (String c s) =
  match trimEnd s with
  | EmptyString => if isWhiteSpace c then EmptyString else String c EmptyString
  | t => String c t
  end.
Proof. reflexivity. Qed.

Lemma trimEnd_noTrail s : noTrail (trimEnd s).
Proof.
  unfold noTrail. induction s as [|c s IH]; [done|].
  rewrite trimEnd_cons. destruct (trimEnd s) as [|d t] eqn:E.
  - destruct (isWhiteSpace c) eqn:W; [done|]. simpl. by rewrite W.
  - rewrite trimEnd_cons, IH. done.
Qed.

Lemma trimEnd_noLead s : noLead s -> noLead (trimEnd s).
Proof.
  destruct s as [|c s]; [done|]. intros H.
  apply noLead_cons in H. rewrite trimEnd_cons.
  unfold noLead. destruct (trimEnd s); rewrite ?H; simpl; by rewrite H.
Qed.

Lemma trim_noTrail s : noTrail (trim s).
Proof. apply trimEnd_noTrail. Qed.

Lemma trim_noLead s : noLead (trim s).
Proof. apply trimEnd_noLead, trimStart_noLead. Qed.

Lemma trim_fixed s : noLead s -> noTrail s -> trim s = s.
Proof. unfold trim. intros -> ->. done. Qed.

Lemma trim_idempotent s : trim (trim s) = trim s.
Proof. apply trim_fixed; [apply trim_noLead | apply trim_noTrail]. Qed.

Lemma noTrail_tail c s : noTrail (String c s) -> noTrail s.
Proof.
  unfold noTrail. rewrite trimEnd_cons.
  destruct (trimEnd s) as [|d t] eqn:E.
  - destruct (isWhiteSpace c); [done|]. by intros [= <-].
  - by intros [= <-].
Qed.

Lemma noTrail_slice s n : noTrail s -> noTrail (slice s n).
Proof.
  revert s. induction n as [|n IH]; intros [|c s] H; simpl; try done.
  apply IH. by apply noTrail_tail in H.
Qed.

Lemma noTrail_cons c s :
  noTrail s -> isWhiteSpace c = false -> noTrail (String c s).
Proof.
  unfold noTrail. intros H W. rewrite trimEnd_cons, H.
  destruct s; [by rewrite W | done].
Qed.

Lemma noTrail_cons_nonempty c s :
  noTrail s -> s <> EmptyString -> noTrail (String c s).
Proof.
  unfold noTrail. intros H N. rewrite trimEnd_cons, H. by destruct s.
Qed.

Lemma noTrail_app s t : noTrail t -> t <> EmptyString -> noTrail (s ++ t).
Proof.
  intros H N. induction s as [|c s IH]; simpl; [done|].
  apply noTrail_cons_nonempty; [done|]. destruct s; simpl; [done | discriminate].
Qed.

Lemma startsWith_agent_noLead s : startsWith s "agent:" = true -> noLead s.
Proof.
  destruct s as [|c s]; [done|]. cbn [startsWith].
  destruct (Ascii.eqb_spec "a" c) as [<-|]; [|done]. done.
Qed.

Lemma startsWith_nonEmpty s p :
  startsWith s p = true -> nonEmpty p = true -> nonEmpty s = true.
Proof. by destruct s, p. Qed.

(** ** Key normaliser *)

Section NormalizerFacts.

Variable normalizeAgentId : string -> string.

Local Abbreviation normalize := (normalizeSessionKeyForAgent normalizeAgentId).

(** The normaliser looks at its key only through [trim]. *)
Lemma normalize_trim key agentId :
  normalize (trim key) agentId = normalize key agentId.
Proof. unfold normalizeSessionKeyForAgent. by rewrite trim_idempotent. Qed.

(** A trimmed key that carries the agent prefix is a fixed point. *)
Lemma normalize_agent_fixed key agentId :
  startsWith key "agent:" = true -> noTrail key -> normalize key agentId = key.
Proof.
  intros P T.
  assert (trim key = key) as E by (apply trim_fixed; [by apply startsWith_agent_noLead | done]).
  unfold normalizeSessionKeyForAgent. rewrite E, P.
  by rewrite (startsWith_nonEmpty key "agent:").
Qed.

Local Ltac literal_noTrail :=
  repeat (apply noTrail_cons_nonempty; [|discriminate]);
  repeat first [ assumption | apply noTrail_cons; [|reflexivity] ].

(** What a rewriting rule returns has the shape [agent:<id>:<tail>], with
    nothing to trim at its end. *)
Lemma agent_shape_fixed agentId (lit tail : string) :
  noTrail (lit ++ tail) -> lit <> EmptyString \/ tail <> EmptyString ->
  normalize ("agent:" ++ normalizeAgentId agentId ++ lit ++ tail) agentId
  = "agent:" ++ normalizeAgentId agentId ++ lit ++ tail.
Proof.
  intros T N. apply normalize_agent_fixed; [reflexivity|].
  change (noTrail ("agent:" ++ (normalizeAgentId agentId ++ (lit ++ tail)))).
  apply noTrail_app; [apply noTrail_app; [done|] |].
  - destruct lit, tail; simpl; try discriminate. by destruct N.
  - destruct (normalizeAgentId agentId), lit, tail; simpl; try discriminate. by destruct N.
Qed.

Lemma normalize_by_rule key agentId :
  normalize key agentId =
  let raw := trim key in
  match keyRule key with
  | RuleBlank | RuleAgent | RuleGroupNoId | RuleOther => raw
  | RuleSubagent =>
      "agent:" ++ normalizeAgentId agentId ++ ":subagent:"
      ++ slice raw (String.length "subagent:")
  | RuleGroup =>
      let id := trim (slice raw (String.length "group:")) in
      "agent:" ++ normalizeAgentId agentId ++ ":"
      ++ (if includes (toLowerCase id) "@g.us" then "whatsapp" else "unknown")
      ++ ":group:" ++ id
  | RuleBareGroupId => "agent:" ++ normalizeAgentId agentId ++ ":whatsapp:group:" ++ raw
  | RuleWhatsApp =>
      "agent:" ++ normalizeAgentId agentId ++ ":whatsapp:group:"
      ++ trim (stripPrefixIgnoreCase (trim (slice raw (String.length "whatsapp:"))) "group:")
  | RuleSurface => "agent:" ++ normalizeAgentId agentId ++ ":" ++ raw
  end.
Proof.
  unfold normalizeSessionKeyForAgent, keyRule. cbv zeta.
  repeat match goal with
         | |- context [if ?b then _ else _] => destruct b eqn:?; simpl; try reflexivity
         end.
Qed.

Lemma agent_prefix_survives_trim key :
  startsWith key "agent:" = true -> startsWith (trim key) "agent:" = true.
Proof.
  intros H. unfold trim. rewrite (startsWith_agent_noLead key H).
  revert H.
  destruct key as [|c1 [|c2 [|c3 [|c4 [|c5 [|c6 rest]]]]]];
    cbn [startsWith];
    repeat match goal with
           | |- (if Ascii.eqb ?a ?b then _ else _) = true -> _ =>
               destruct (Ascii.eqb_spec a b) as [<-|]; [|by intros ?]
           end;
    try (by intros ?).
  intros _. rewrite !trimEnd_cons. by destruct (trimEnd rest).
Qed.

Lemma agent_prefix_rule key : startsWith key "agent:" = true -> keyRule key = RuleAgent.
Proof.
  intros H. apply agent_prefix_survives_trim in H. unfold keyRule. cbv zeta.
  by rewrite H, (startsWith_nonEmpty _ _ H).
Qed.

(** C4. For every key rewritten by one of the rules 2 to 6 (subagent prefix,
    group prefix, bare WhatsApp group id, whatsapp: prefix with a group id,
    agent-less surface-group form) and every agent id, normalising the
    result of [normalizeSessionKeyForAgent] again returns that result. *)
Theorem normalize_rewritten_idempotent key agentId :
  isRewriteRule (keyRule key) = true ->
  normalize (normalize key agentId) agentId = normalize key agentId.
Proof.
  intros Rw. pose proof (trim_noTrail key) as T.
  rewrite (normalize_by_rule key agentId). cbv zeta.
  destruct (keyRule key) eqn:R; try discriminate Rw.
  - (* rule 2 *)
    apply (agent_shape_fixed agentId ":subagent:"); [|by left].
    simpl. literal_noTrail. by apply noTrail_slice.
  - (* rule 3 *)
    destruct (includes _ "@g.us").
    + apply (agent_shape_fixed agentId ":whatsapp:group:"); [|by left].
      simpl. literal_noTrail. apply trim_noTrail.
    + apply (agent_shape_fixed agentId ":unknown:group:"); [|by left].
      simpl. literal_noTrail. apply trim_noTrail.
  - (* rule 4 *)
    apply (agent_shape_fixed agentId ":whatsapp:group:"); [|by left].
    simpl. literal_noTrail.
  - (* rule 5 *)
    apply (agent_shape_fixed agentId ":whatsapp:group:"); [|by left].
    simpl. literal_noTrail. apply trim_noTrail.
  - (* rule 6 *)
    apply (agent_shape_fixed agentId ":"); [|by left].
    simpl. literal_noTrail.
Qed.

(** The keys that no rule rewrites are fixed points as well, so the
    normaliser is idempotent on every key. *)
Lemma normalize_unmatched_idempotent key agentId :
  isRewriteRule (keyRule key) = false ->
  normalize (normalize key agentId) agentId = normalize key agentId.
Proof.
  intros Rw. rewrite (normalize_by_rule key agentId). cbv zeta.
  destruct (keyRule key) eqn:R; try discriminate Rw;
    by rewrite normalize_trim, normalize_by_rule, R.
Qed.

(** C8, amended. [normalizeSessionKeyForAgent] is a total function, and for
    every key matched by no rewrite rule, in particular every key that
    starts with "agent:", it returns the key with leading and trailing
    white space removed (hence the key itself when there is none to
    remove). *)
Theorem normalize_unmatched_returns_trimmed key agentId :
  isRewriteRule (keyRule key) = false \/ startsWith key "agent:" = true ->
  normalize key agentId = trim key.
Proof.
  intros H.
  assert (isRewriteRule (keyRule key) = false) as R.
  { destruct H as [H|H]; [done|]. by rewrite (agent_prefix_rule key H). }
  rewrite normalize_by_rule. cbv zeta. by destruct (keyRule key).
Qed.

End NormalizerFacts.

Lemma normalize_rewritten_idempotent_witness :
  isRewriteRule (keyRule "group:12345@g.us") = true /\
  normalizeSessionKeyForAgent sampleNormalizeAgentId
    (normalizeSessionKeyForAgent sampleNormalizeAgentId "group:12345@g.us" "default")
    "default"
  = normalizeSessionKeyForAgent sampleNormalizeAgentId "group:12345@g.us" "default".
Proof.
  split; [reflexivity|].
  apply (normalize_rewritten_idempotent sampleNormalizeAgentId "group:12345@g.us" "default").
  reflexivity.
Defined.

Lemma normalize_unmatched_returns_trimmed_witness :
  (isRewriteRule (keyRule "  main ") = false \/ startsWith "  main " "agent:" = true) /\
  normalizeSessionKeyForAgent sampleNormalizeAgentId "  main " "default" = trim "  main ".
Proof.
  split; [left; reflexivity|].
  apply (normalize_unmatched_returns_trimmed sampleNormalizeAgentId "  main " "default").
  left; reflexivity.
Defined.

(** C8 as stated does not hold: a key that starts with "agent:" and ends
    with a blank falls under no rewrite rule, yet it is not returned
    unchanged: the trailing blank is gone. *)
Lemma normalize_agent_key_not_unchanged :
  startsWith "agent:main:main " "agent:" = true /\
  isRewriteRule (keyRule "agent:main:main ") = false /\
  normalizeSessionKeyForAgent sampleNormalizeAgentId "agent:main:main " "main"
    = "agent:main:main" /\
  normalizeSessionKeyForAgent sampleNormalizeAgentId "agent:main:main " "main"
    <> "agent:main:main ".
Proof. repeat split; try reflexivity. discriminate. Qed.

(** ** The scan for the latest direct legacy entry *)

Lemma num_gt_irrefl a : num_gt a a = false.
Proof. destruct a; simpl; try done. apply Z.ltb_irrefl. Qed.

Lemma num_gt_trans a b c :
  num_gt a b = true -> num_gt b c = true -> num_gt a c = true.
Proof.
  destruct a, b, c; simpl; try done.
  rewrite !Z.ltb_lt. lia.
Qed.

(** Above [-1] the order is total. *)
Lemma num_gt_above_total a b :
  num_gt a (Finite (-1)) = true -> num_gt b (Finite (-1)) = true ->
  num_gt a b = false -> a = b \/ num_gt b a = true.
Proof.
  destruct a, b; simpl; try done; auto.
  rewrite !Z.ltb_lt, Z.ltb_ge. intros ? ? ?.
  destruct (Z.eq_dec z z0) as [->|]; [by left | right; lia].
Qed.

Lemma pickLatestStep_eligible acc kv :
  pickLatestStep acc kv =
  if isObjectEntry (snd kv) && isDirectKey (fst kv)
     && num_gt (updatedAtOf (snd kv)) (snd acc)
  then (Some (snd kv), updatedAtOf (snd kv)) else acc.
Proof.
  destruct kv as [key entry]. unfold pickLatestStep, isObjectEntry, isDirectKey, updatedAtOf.
  cbv zeta. cbn [fst snd].
  generalize (truthy entry) (typeofIsObject entry) (nonEmpty (trim key))
    (String.eqb (trim key) "global") (startsWith (trim key) "agent:")
    (startsWith (toLowerCase (trim key)) "subagent:")
    (isLegacyGroupKey (trim key)) (isSurfaceGroupKey (trim key)).
  intros b1 b2 b3 b4 b5 b6 b7 b8.
  destruct b1, b2, b3, b4, b5, b6, b7, b8; reflexivity.
Qed.

Lemma eligible_above kv :
  eligible kv = true -> num_gt (updatedAtOf (snd kv)) (Finite (-1)) = true.
Proof. unfold eligible. by intros [_ ?]%andb_true_iff. Qed.

Lemma lookup_snoc_Some {A} (l : list A) (x y : A) j :
  (l ++ [x])%list !! j = Some y -> l !! j = Some y \/ (j = length l /\ y = x).
Proof.
  intros [H|[H1 H2]]%lookup_app_Some; [by left|right].
  destruct (j - length l)%nat as [|n] eqn:E; simpl in H2; [|done].
  split; [lia | congruence].
Qed.

Lemma LatestDirectAt_snoc_keep seen kv i e :
  LatestDirectAt seen i e ->
  (eligible kv = true -> num_gt (updatedAtOf (snd kv)) (updatedAtOf e) = false) ->
  LatestDirectAt (seen ++ [kv]) i e.
Proof.
  intros ([key [Hi He]] & Hmax & Hfirst) Hkv. split; [|split].
  - exists key. split; [|done]. by apply lookup_app_l_Some.
  - intros j kv' [Hj|[_ ->]]%lookup_snoc_Some E; [by eapply Hmax | by apply Hkv].
  - intros j kv' Hlt [Hj|[-> _]]%lookup_snoc_Some E; [by eapply Hfirst|].
    apply lookup_lt_Some in Hi. lia.
Qed.

Lemma LatestDirectAt_snoc_new seen key entry :
  eligible (key, entry) = true ->
  (forall j kv, seen !! j = Some kv -> eligible kv = true ->
                num_gt (updatedAtOf entry) (updatedAtOf (snd kv)) = true) ->
  LatestDirectAt (seen ++ [(key, entry)]) (length seen) entry.
Proof.
  intros He Hnew. split; [|split].
  - exists key. split; [|done]. by rewrite list_lookup_middle.
  - intros j kv [Hj|[_ ->]]%lookup_snoc_Some E; [|apply num_gt_irrefl].
    specialize (Hnew j kv Hj E).
    destruct (num_gt (updatedAtOf (snd kv)) (updatedAtOf entry)) eqn:G; [|done].
    pose proof (num_gt_trans _ _ _ G Hnew) as C. by rewrite num_gt_irrefl in C.
  - intros j kv Hlt [Hj|[-> _]]%lookup_snoc_Some E; [by eapply Hnew | lia].
Qed.

Lemma scanned_step seen acc kv :
  scanned seen acc -> scanned (seen ++ [kv]) (pickLatestStep acc kv).
Proof.
  intros S. rewrite pickLatestStep_eligible. destruct acc as [best bestUpdated].
  destruct kv as [key entry]. unfold scanned in *. cbn [fst snd] in *.
  destruct (isObjectEntry entry && isDirectKey key) eqn:D; cbn [andb].
  - destruct best as [e|]; destruct S as [-> S].
    + destruct S as [i L].
      destruct (num_gt (updatedAtOf entry) (updatedAtOf e)) eqn:G; cbn [fst snd].
      * pose proof L as ([k0 [_ He]] & Hmax & _).
        assert (eligible (key, entry) = true) as El.
        { unfold eligible. cbn [fst snd]. rewrite D. cbn [andb].
          eapply num_gt_trans; [exact G | by apply (eligible_above (k0, e))]. }
        split; [done|]. exists (length seen). apply LatestDirectAt_snoc_new; [done|].
        intros j kv Hj E.
        destruct (num_gt_above_total (updatedAtOf (snd kv)) (updatedAtOf e))
          as [->|G']; [by apply eligible_above | by apply (eligible_above (k0, e))
                      | by eapply Hmax | done |].
        by eapply num_gt_trans.
      * split; [done|]. exists i. apply LatestDirectAt_snoc_keep; [done|].
        cbn [snd]. by intros _.
    + destruct (num_gt (updatedAtOf entry) (Finite (-1))) eqn:G; cbn [fst snd].
      * split; [done|]. exists (length seen). apply LatestDirectAt_snoc_new.
        { unfold eligible. cbn [fst snd]. by rewrite D, G. }
        intros j kv Hj E. rewrite S in E; [done|]. by eapply list_elem_of_lookup_2.
      * split; [done|]. intros kv [H| ->%list_elem_of_singleton]%elem_of_app; [by apply S|].
        unfold eligible. cbn [fst snd]. by rewrite D, G.
  - destruct best as [e|]; destruct S as [-> S]; cbn [fst snd].
    + destruct S as [i L]. split; [done|]. exists i.
      apply LatestDirectAt_snoc_keep; [done|].
      unfold eligible. cbn [fst snd]. by rewrite D.
    + split; [done|]. intros kv [H| ->%list_elem_of_singleton]%elem_of_app; [by apply S|].
      unfold eligible. cbn [fst snd]. by rewrite D.
Qed.

Lemma scanned_fold rest : forall seen acc,
  scanned seen acc -> scanned (seen ++ rest) (fold_left pickLatestStep rest acc).
Proof.
  induction rest as [|kv rest IH]; intros seen acc S; simpl.
  - by rewrite app_nil_r.
  - rewrite (cons_middle kv seen rest), app_assoc. apply IH. by apply scanned_step.
Qed.

Lemma pickLatest_scanned store :
  scanned store (fold_left pickLatestStep store (None, Finite (-1))).
Proof.
  apply (scanned_fold store [] (None, Finite (-1))). split; [done|].
  by intros kv ?%elem_of_nil.
Qed.

(** The first entry with the greatest [updatedAt] is unique. *)
Lemma LatestDirectAt_unique store i j e e' :
  LatestDirectAt store i e -> LatestDirectAt store j e' -> i = j /\ e = e'.
Proof.
  intros ([k [Hi Ei]] & Mi & Fi) ([k' [Hj Ej]] & Mj & Fj).
  destruct (Nat.lt_trichotomy i j) as [L|[->|L]].
  - pose proof (Fj i _ L Hi Ei) as G. pose proof (Mi j _ Hj Ej) as G'.
    cbn [snd] in *. congruence.
  - split; [done|]. congruence.
  - pose proof (Fi j _ L Hj Ej) as G. pose proof (Mj i _ Hi Ei) as G'.
    cbn [snd] in *. congruence.
Qed.

(** [pickLatestLegacyDirectEntry] returns the first eligible entry with the
    greatest [updatedAt], and [null] when no entry is eligible. *)
Lemma pickLatest_latest store i e :
  LatestDirectAt store i e -> pickLatestLegacyDirectEntry store = Some e.
Proof.
  intros L. pose proof (pickLatest_scanned store) as S.
  unfold pickLatestLegacyDirectEntry, scanned in *.
  destruct (fst _) as [e'|].
  - destruct S as [_ [j L']]. f_equal. by destruct (LatestDirectAt_unique _ _ _ _ _ L' L).
  - destruct S as [_ S]. destruct L as ([k [Hi Ei]] & _ & _).
    rewrite S in Ei; [done|]. by eapply list_elem_of_lookup_2.
Qed.

Lemma pickLatest_Some store e :
  pickLatestLegacyDirectEntry store = Some e -> exists i, LatestDirectAt store i e.
Proof.
  pose proof (pickLatest_scanned store) as S.
  unfold pickLatestLegacyDirectEntry, scanned in *.
  destruct (fst _) as [e'|]; [|done]. intros [= ->]. by destruct S.
Qed.

Lemma pickLatest_None store :
  pickLatestLegacyDirectEntry store = None <-> forall kv, kv ∈ store -> eligible kv = false.
Proof.
  split.
  - pose proof (pickLatest_scanned store) as S.
    unfold pickLatestLegacyDirectEntry, scanned in *.
    destruct (fst _) as [e'|]; [done|]. intros _. by destruct S.
  - intros N. destruct (pickLatestLegacyDirectEntry store) as [e|] eqn:P; [|done].
    apply pickLatest_Some in P as [i ([k [Hi Ei]] & _)].
    rewrite N in Ei; [done|]. by eapply list_elem_of_lookup_2.
Qed.

Lemma normalizeSessionEntry_Some now entry entry' :
  normalizeSessionEntry now entry = Returned (Some entry') ->
  exists props sid,
    entry = Obj props /\ props !! "sessionId" = Some (Str sid) /\ nonEmpty sid = true /\
    entry' = Obj (<["updatedAt" :=
                     Num match default Undefined (props !! "updatedAt") with
                         | Num n => if num_isFinite n then n else Finite now
                         | _ => Finite now
                         end]> props).
Proof.
  unfold normalizeSessionEntry.
  destruct entry as [| |b|n|s|items|props]; cbn [getProp]; try discriminate.
  destruct (props !! "sessionId") as [[| | | |sid| |]|] eqn:S; cbn; try discriminate.
  destruct (nonEmpty sid) eqn:Ne; cbn [negb]; [|discriminate].
  intros [= <-]. exists props, sid. split; [done|]. split; [done|]. split; [done|].
  by rewrite (insert_id props "sessionId" (Str sid) S).
Qed.

(** An entry with a [sessionId] that is a string and not empty
    normalises to itself, up to its [updatedAt]. *)
Lemma normalizeSessionEntry_keeps now entry :
  sessionIdIsString entry = true ->
  truthy (getPropOpt entry "sessionId") = true ->
  exists entry',
    normalizeSessionEntry now entry = Returned (Some entry') /\
    (updatedAtIsFinite entry = true -> entry' = entry) /\
    (forall name, name <> "updatedAt" -> getPropOpt entry' name = getPropOpt entry name) /\
    (updatedAtIsFinite entry = false -> getPropOpt entry' "updatedAt" = Num (Finite now)).
Proof.
  unfold sessionIdIsString, updatedAtIsFinite, normalizeSessionEntry, getPropOpt.
  destruct entry as [| |b|n|s|items|props]; cbn [getProp]; try discriminate.
  destruct (props !! "sessionId") as [[| | | |sid| |]|] eqn:S; cbn; try discriminate.
  intros _ Ne. rewrite Ne. cbn [negb]. eexists. split; [reflexivity|].
  rewrite (insert_id props "sessionId" (Str sid) S). cbn [getProp].
  split; [|split].
  - destruct (props !! "updatedAt") as [[| | |n| | |]|] eqn:U; cbn; try done.
    destruct n; cbn; try done. intros _. f_equal. by apply insert_id.
  - intros name Hn. by rewrite lookup_insert_ne.
  - intros F. rewrite lookup_insert_eq. cbn [default].
    destruct (props !! "updatedAt") as [[| | |n| | |]|]; cbn in *; try done.
    by rewrite F.
Qed.

(** ** The sessions merge *)

Section SessionsMigrationFacts.

Variable normalizeAgentId : string -> string.
Variable buildAgentMainSessionKey : string -> string -> string.
Variable clockAt : string -> Z.

Local Abbreviation mergedSessions' :=
  (mergedSessions normalizeAgentId buildAgentMainSessionKey).
Local Abbreviation migrate :=
  (migrateLegacySessions normalizeAgentId buildAgentMainSessionKey clockAt).

Lemma mergeStores_target normalizedLegacy targetStore key entry :
  targetStore !! key = Some entry ->
  mergeStores normalizedLegacy targetStore !! key = Some entry.
Proof. intros H. unfold mergeStores. by apply lookup_union_Some_l. Qed.

Lemma mergeStores_gap normalizedLegacy targetStore key :
  targetStore !! key = None ->
  mergeStores normalizedLegacy targetStore !! key = normalizedLegacy !! key.
Proof. intros H. unfold mergeStores. by apply lookup_union_r. Qed.

Lemma adoptLatestDirect_keeps mainKey legacyStore merged key entry :
  merged !! key = Some entry -> truthy entry = true ->
  (adoptLatestDirect mainKey legacyStore merged).1 !! key = Some entry.
Proof.
  intros H T. unfold adoptLatestDirect.
  destruct (truthy (jsget merged mainKey)) eqn:M; cbn [negb]; [done|].
  assert (mainKey <> key) as Ne.
  { intros ->. unfold jsget in M. rewrite H in M. congruence. }
  destruct (pickLatestLegacyDirectEntry legacyStore) as [latest|]; [|done].
  destruct (truthy (getPropOpt latest "sessionId")); [|done].
  cbn [fst]. by rewrite lookup_insert_ne.
Qed.

(** C5, amended. When the merged store has no entry under the canonical
    agent main key, the migration adopts as the main entry the first
    legacy entry with the greatest [updatedAt] among the entries that are
    objects stored under keys that are not blank, not "global", not
    legacy or surface group keys, not agent:-prefixed and not
    subagent:-prefixed, where an [updatedAt] that is not a number counts
    as 0 and only entries newer than -1 compete, provided that entry has
    a sessionId. *)
Theorem main_key_adopts_latest_direct detected legacyStore targetStore i latest :
  truthy (jsget (mergeStores
                   (normalizeLegacyStore normalizeAgentId (targetAgentId detected)
                      legacyStore ∅) targetStore)
            (buildAgentMainSessionKey (targetAgentId detected) (targetMainKey detected)))
    = false ->
  LatestDirectAt legacyStore i latest ->
  truthy (getPropOpt latest "sessionId") = true ->
  (mergedSessions' detected legacyStore targetStore).1
    !! buildAgentMainSessionKey (targetAgentId detected) (targetMainKey detected)
  = Some latest.
Proof.
  intros M L Sid. unfold mergedSessions, adoptLatestDirect. cbv zeta.
  rewrite M, (pickLatest_latest _ _ _ L), Sid. cbn [negb fst].
  apply lookup_insert_eq.
Qed.

(** *** The store that is written *)

Lemma normalizeSessionEntry_no_string_id now entry :
  sessionIdIsString entry = false ->
  normalizeSessionEntry now entry = Returned None \/ normalizeSessionEntry now entry = Thrown.
Proof.
  unfold sessionIdIsString, getPropOpt, normalizeSessionEntry.
  destruct (getProp entry "sessionId") as [sid|]; [|by right].
  destruct sid; intros; try discriminate; by left.
Qed.

Lemma normalizeSessionEntry_stamp now entry entry' :
  normalizeSessionEntry now entry = Returned (Some entry') ->
  updatedAtIsFinite entry = false ->
  getPropOpt entry' "updatedAt" = Num (Finite now).
Proof.
  unfold normalizeSessionEntry, updatedAtIsFinite.
  destruct (getProp entry "sessionId") as [[]|]; try discriminate.
  destruct (negb (nonEmpty s)); [discriminate|].
  intros [= <-] F. unfold getPropOpt at 1. cbn [getProp].
  rewrite lookup_insert_eq. cbn [default].
  destruct (getPropOpt entry "updatedAt"); try reflexivity.
  by rewrite F.
Qed.

Lemma jsset_no_proto (obj : gmap string value) k v :
  obj !! "__proto__" = None -> jsset obj k v !! "__proto__" = None.
Proof.
  intros P. unfold jsset. destruct (String.eqb_spec k "__proto__") as [->|Ne].
  - rewrite P. by rewrite bool_decide_eq_false_2 by (by intros [? ?]).
  - cbn [andb]. by rewrite lookup_insert_ne.
Qed.

Lemma jsset_lookup (obj : gmap string value) k v key :
  key <> "__proto__" -> jsset obj k v !! key = <[k := v]> obj !! key.
Proof.
  intros Nk. unfold jsset. destruct (String.eqb_spec k "__proto__") as [->|Ne]; [|done].
  destruct (negb _); [|done]. cbn [andb]. by rewrite lookup_insert_ne.
Qed.

Lemma normalizeMergedEntries_lookup entries : forall acc w,
  NoDup entries.*1 ->
  acc !! "__proto__" = None ->
  normalizeMergedEntries clockAt entries acc = Returned w ->
  forall key,
    w !! key = if String.eqb key "__proto__" then None
               else match (list_to_map entries : gmap string value) !! key with
                    | Some e => match normalizedAt (clockAt key) (Some e) with
                                | Some e' => Some e'
                                | None => acc !! key
                                end
                    | None => acc !! key
                    end.
Proof.
  induction entries as [|[k e] rest IH]; intros acc w ND P H key.
  - simpl in H. injection H as <-. rewrite list_to_map_nil, lookup_empty.
    by destruct (String.eqb_spec key "__proto__") as [->|].
  - apply NoDup_cons in ND as [Nin ND]. cbn [normalizeMergedEntries] in H.
    assert ((list_to_map rest : gmap string value) !! k = None) as Hk
      by (by apply not_elem_of_list_to_map_1).
    cbn [list_to_map foldr uncurry fst snd]. cbn [normalizedAt] in *.
    destruct (normalizeSessionEntry (clockAt k) e) as [[e'|]|] eqn:N; [| |done].
    + rewrite (IH _ _ ND (jsset_no_proto _ _ _ P) H key).
      destruct (String.eqb_spec key "__proto__") as [->|Nk]; [done|].
      rewrite (jsset_lookup _ _ _ _ Nk). destruct (decide (k = key)) as [->|Ne].
      * by rewrite Hk, !lookup_insert_eq, N.
      * by rewrite !(lookup_insert_ne _ k key).
    + rewrite (IH _ _ ND P H key).
      destruct (String.eqb_spec key "__proto__") as [->|Nk]; [done|].
      destruct (decide (k = key)) as [->|Ne].
      * by rewrite Hk, lookup_insert_eq, N.
      * by rewrite !(lookup_insert_ne _ k key).
Qed.

Lemma normalizeMergedEntries_map (m w : gmap string value) :
  normalizeMergedEntries clockAt (map_to_list m) ∅ = Returned w ->
  forall key,
    w !! key = if String.eqb key "__proto__" then None
               else normalizedAt (clockAt key) (m !! key).
Proof.
  intros H key.
  rewrite (normalizeMergedEntries_lookup _ _ _ (NoDup_fst_map_to_list m)
             (lookup_empty _) H key).
  destruct (String.eqb key "__proto__"); [done|].
  rewrite list_to_map_to_list. unfold normalizedAt.
  destruct (m !! key) as [e|]; [|apply lookup_empty].
  destruct (normalizeSessionEntry (clockAt key) e) as [[?|]|]; try done;
    apply lookup_empty.
Qed.

(** What the written store holds: under [__proto__] nothing, under any
    other key the merged entry normalised. *)
Lemma migrate_written detected legacyParsed targetParsed r w :
  migrate detected legacyParsed targetParsed = Returned r ->
  written r = Some w ->
  forall key,
    w !! key =
    if String.eqb key "__proto__" then None
    else normalizedAt (clockAt key)
           ((mergedSessions' detected (store legacyParsed) (store targetParsed)).1 !! key).
Proof.
  unfold migrateLegacySessions. cbv zeta.
  destruct (negb (hasLegacy (sessions detected))); [by intros [= <-]|].
  destruct (mergedSessions' _ _ _) as [merged1 changes1].
  destruct (ok legacyParsed && _).
  - destruct (normalizeMergedEntries _ _ _) as [normalized|] eqn:N; [|done].
    intros [= <-]. cbn [written]. intros [= <-].
    by apply normalizeMergedEntries_map.
  - by intros [= <-].
Qed.

Lemma migrate_written_at detected legacyParsed targetParsed r w key :
  migrate detected legacyParsed targetParsed = Returned r ->
  written r = Some w ->
  key <> "__proto__" ->
  w !! key =
  normalizedAt (clockAt key)
    ((mergedSessions' detected (store legacyParsed) (store targetParsed)).1 !! key).
Proof.
  intros H W Nk. rewrite (migrate_written _ _ _ _ _ H W key).
  by destruct (String.eqb_spec key "__proto__").
Qed.

(** C1, amended. For every legacy store, every target store and every
    key under which the target store holds an entry: when the entry is an
    object (or any other truthy value), the merged store maps the key to
    that entry, whatever the legacy store holds under the key once its
    keys are normalised; and when the entry has a [sessionId] that is a
    string and not empty, and the key is not [__proto__], the store that
    is written maps the key to the target store's entry: the entry itself
    when its [updatedAt] is a finite number, and otherwise the entry with
    only [updatedAt] changed, to the current time.  Legacy entries only
    fill keys that the target store leaves open. *)
Theorem merged_keeps_target_entry detected legacyParsed targetParsed key targetEntry :
  store targetParsed !! key = Some targetEntry ->
  (truthy targetEntry = true ->
   (mergedSessions' detected (store legacyParsed) (store targetParsed)).1 !! key
   = Some targetEntry) /\
  (forall r w,
      migrate detected legacyParsed targetParsed = Returned r ->
      written r = Some w ->
      key <> "__proto__" ->
      sessionIdIsString targetEntry = true ->
      truthy (getPropOpt targetEntry "sessionId") = true ->
      exists entry',
        w !! key = Some entry' /\
        (updatedAtIsFinite targetEntry = true -> entry' = targetEntry) /\
        (forall name, name <> "updatedAt" ->
                      getPropOpt entry' name = getPropOpt targetEntry name) /\
        (updatedAtIsFinite targetEntry = false ->
         getPropOpt entry' "updatedAt" = Num (Finite (clockAt key)))).
Proof.
  intros T.
  assert (truthy targetEntry = true ->
          (mergedSessions' detected (store legacyParsed) (store targetParsed)).1 !! key
          = Some targetEntry) as Kept.
  { intros Tr. unfold mergedSessions. cbv zeta.
    apply adoptLatestDirect_keeps; [|done]. by apply mergeStores_target. }
  split; [done|]. intros r w H W Nk S Sid.
  assert (truthy targetEntry = true) as Tr.
  { unfold sessionIdIsString, getPropOpt in S. by destruct targetEntry. }
  rewrite (migrate_written_at _ _ _ _ _ _ H W Nk), (Kept Tr). cbn [normalizedAt].
  destruct (normalizeSessionEntry_keeps (clockAt key) targetEntry S Sid)
    as (entry' & -> & Rest).
  by exists entry'.
Qed.

(** C10. When the merged sessions store is written during the migration,
    every merged entry whose [sessionId] is not a string is left out of
    the written store; every merged entry whose [sessionId] is a string
    and not empty is written (under any key but [__proto__]), as it is
    when its [updatedAt] is a finite number and otherwise with its
    [updatedAt], and nothing else, replaced by the current time; and
    every written entry comes from a merged entry in this way. *)
Theorem written_store_normalized detected legacyParsed targetParsed r w :
  migrate detected legacyParsed targetParsed = Returned r ->
  written r = Some w ->
  (forall key entry,
      (mergedSessions' detected (store legacyParsed) (store targetParsed)).1 !! key
        = Some entry ->
      sessionIdIsString entry = false ->
      w !! key = None) /\
  (forall key entry,
      (mergedSessions' detected (store legacyParsed) (store targetParsed)).1 !! key
        = Some entry ->
      key <> "__proto__" ->
      sessionIdIsString entry = true ->
      truthy (getPropOpt entry "sessionId") = true ->
      exists entry',
        w !! key = Some entry' /\
        (updatedAtIsFinite entry = true -> entry' = entry) /\
        (forall name, name <> "updatedAt" ->
                      getPropOpt entry' name = getPropOpt entry name) /\
        (updatedAtIsFinite entry = false ->
         getPropOpt entry' "updatedAt" = Num (Finite (clockAt key)))) /\
  (forall key entry',
      w !! key = Some entry' ->
      exists entry,
        (mergedSessions' detected (store legacyParsed) (store targetParsed)).1 !! key
          = Some entry /\
        (updatedAtIsFinite entry = false ->
         getPropOpt entry' "updatedAt" = Num (Finite (clockAt key)))).
Proof.
  intros H W. pose proof (migrate_written _ _ _ _ _ H W) as L. split; [|split].
  - intros key entry M S. rewrite L, M. destruct (String.eqb key "__proto__"); [done|].
    cbn [normalizedAt].
    by destruct (normalizeSessionEntry_no_string_id (clockAt key) entry S) as [->| ->].
  - intros key entry M Nk S Sid.
    rewrite (migrate_written_at _ _ _ _ _ _ H W Nk), M. cbn [normalizedAt].
    destruct (normalizeSessionEntry_keeps (clockAt key) entry S Sid)
      as (entry' & -> & Rest).
    by exists entry'.
  - intros key entry' E. rewrite L in E.
    destruct (String.eqb key "__proto__"); [done|].
    destruct (_ !! key) as [entry|]; [|done].
    exists entry. split; [done|]. cbn [normalizedAt] in E.
    destruct (normalizeSessionEntry (clockAt key) entry) as [[e|]|] eqn:N; try done.
    injection E as ->. by apply normalizeSessionEntry_stamp.
Qed.

(** The loop raises only on a [null] entry: when every merged entry is an
    object the store is written. *)
Lemma normalizeMergedEntries_returns entries : forall acc,
  (forall kv, kv ∈ entries -> isObjectEntry kv.2 = true) ->
  exists w, normalizeMergedEntries clockAt entries acc = Returned w.
Proof.
  induction entries as [|[k e] rest IH]; intros acc O; [by eexists|].
  cbn [normalizeMergedEntries].
  assert (isObjectEntry e = true) as Oe by (apply (O (k, e)); left).
  assert (forall kv, kv ∈ rest -> isObjectEntry kv.2 = true) as Or
      by (intros; apply O; by right).
  unfold normalizeSessionEntry.
  destruct e as [| |b|n|s|items|props]; cbn [getProp];
    try (apply IH, Or); try (by vm_compute in Oe).
  destruct (default Undefined (props !! "sessionId")); try (apply IH, Or).
  destruct (negb (nonEmpty s)); apply IH, Or.
Qed.

End SessionsMigrationFacts.

Lemma merged_keeps_target_entry_witness :
  targetGroupStore !! "agent:default:whatsapp:group:12345@g.us"
    = Some (entryOf "target-group" 10) /\
  (mergedSessions sampleNormalizeAgentId sampleBuildAgentMainSessionKey
     sampleDetection legacyGroupStore targetGroupStore).1
    !! "agent:default:whatsapp:group:12345@g.us"
  = Some (entryOf "target-group" 10) /\
  exists r w,
    migrateLegacySessions sampleNormalizeAgentId sampleBuildAgentMainSessionKey
      sampleClockAt sampleDetection
      {| store := legacyGroupStore; ok := true |} {| store := targetGroupStore; ok := true |}
    = Returned r /\
    written r = Some w /\
    w !! "agent:default:whatsapp:group:12345@g.us" = Some (entryOf "target-group" 10).
Proof.
  assert (targetGroupStore !! "agent:default:whatsapp:group:12345@g.us"
          = Some (entryOf "target-group" 10)) as T by (vm_compute; reflexivity).
  destruct (merged_keeps_target_entry sampleNormalizeAgentId sampleBuildAgentMainSessionKey
              sampleClockAt sampleDetection
              {| store := legacyGroupStore; ok := true |}
              {| store := targetGroupStore; ok := true |}
              "agent:default:whatsapp:group:12345@g.us" (entryOf "target-group" 10) T)
    as [M W].
  split; [exact T|]. split; [apply M; reflexivity|].
  eexists _, _. split; [vm_compute; reflexivity|]. split; [reflexivity|].
  edestruct W as (entry' & E & Same & _).
  - vm_compute; reflexivity.
  - reflexivity.
  - discriminate.
  - vm_compute; reflexivity.
  - vm_compute; reflexivity.
  - rewrite E. f_equal. apply Same. vm_compute; reflexivity.
Defined.

(** C1 as stated does not hold.  The key is present in both stores once
    the legacy key is normalised, the target store's entry under it has no
    [sessionId], and the store that the migration writes holds nothing
    under the key: the target store's entry is dropped, and the legacy
    entry with it. *)
Lemma target_entry_without_session_id_is_dropped :
  normalizeLegacyStore sampleNormalizeAgentId "default" legacyGroupStore ∅
    !! "agent:default:whatsapp:group:12345@g.us"
  = Some (entryOf "legacy-group" 20) /\
  targetLooseStore !! "agent:default:whatsapp:group:12345@g.us"
  = Some (Obj {["updatedAt" := Num (Finite 10)]}) /\
  exists r w,
    migrateLegacySessions sampleNormalizeAgentId sampleBuildAgentMainSessionKey
      sampleClockAt sampleDetection
      {| store := legacyGroupStore; ok := true |} {| store := targetLooseStore; ok := true |}
    = Returned r /\
    written r = Some w /\
    w !! "agent:default:whatsapp:group:12345@g.us" = None.
Proof.
  split; [vm_compute; reflexivity|]. split; [vm_compute; reflexivity|].
  eexists _, _. split; [vm_compute; reflexivity|]. split; [reflexivity|].
  vm_compute; reflexivity.
Qed.

(** Two keys on which a plain object differs from a dictionary: a legacy
    entry under the name of a member of [Object.prototype] is not kept by
    the first loop, and an entry under [__proto__] is merged but not
    written. *)
Example prototype_named_key_is_not_kept :
  normalizeLegacyStore sampleNormalizeAgentId "default"
    [("constructor", entryOf "s1" 10)] ∅ !! "constructor" = None.
Proof. vm_compute. reflexivity. Qed.

Example proto_entry_is_not_written :
  (mergedSessions sampleNormalizeAgentId sampleBuildAgentMainSessionKey sampleDetection
     legacyDirectStore {["__proto__" := entryOf "p" 1]}).1 !! "__proto__"
  = Some (entryOf "p" 1) /\
  exists r w,
    migrateLegacySessions sampleNormalizeAgentId sampleBuildAgentMainSessionKey
      sampleClockAt sampleDetection
      {| store := legacyDirectStore; ok := true |}
      {| store := {["__proto__" := entryOf "p" 1]}; ok := true |}
    = Returned r /\
    written r = Some w /\
    w !! "__proto__" = None /\ w !! "userA" = Some (entryOf "s1" 10).
Proof.
  split; [vm_compute; reflexivity|].
  eexists _, _. split; [vm_compute; reflexivity|]. split; [reflexivity|].
  split; vm_compute; reflexivity.
Qed.

(** In that example the key is present in both stores once the legacy key
    is normalised. *)
Example legacy_group_key_collides :
  normalizeLegacyStore sampleNormalizeAgentId "default" legacyGroupStore ∅
    !! "agent:default:whatsapp:group:12345@g.us"
  = Some (entryOf "legacy-group" 20).
Proof. vm_compute. reflexivity. Qed.

Lemma main_key_adopts_latest_direct_witness :
  truthy (jsget (mergeStores
                   (normalizeLegacyStore sampleNormalizeAgentId "default"
                      legacyDirectStore ∅) ∅)
            "agent:default:main") = false /\
  LatestDirectAt legacyDirectStore 0 (entryOf "s1" 10) /\
  truthy (getPropOpt (entryOf "s1" 10) "sessionId") = true /\
  (mergedSessions sampleNormalizeAgentId sampleBuildAgentMainSessionKey
     sampleDetection legacyDirectStore ∅).1 !! "agent:default:main"
  = Some (entryOf "s1" 10).
Proof.
  assert (LatestDirectAt legacyDirectStore 0 (entryOf "s1" 10)) as L.
  { split; [|split].
    - exists "userA". split; [reflexivity | vm_compute; reflexivity].
    - intros [|j] kv H E; [|discriminate H]. injection H as <-. vm_compute. reflexivity.
    - intros j kv H. lia. }
  split; [vm_compute; reflexivity|]. split; [exact L|]. split; [vm_compute; reflexivity|].
  apply (main_key_adopts_latest_direct sampleNormalizeAgentId
           sampleBuildAgentMainSessionKey sampleDetection legacyDirectStore ∅ 0%nat).
  - vm_compute; reflexivity.
  - exact L.
  - vm_compute; reflexivity.
Defined.

(** C5 as stated does not hold. The key "global" is neither a group key
    nor agent:- or subagent:-prefixed, its entry has a sessionId and the
    greatest [updatedAt] of the legacy store, and the merged store has no
    entry under the main key; yet the entry adopted as the main entry is
    the older one stored under "userA". *)
Lemma main_key_skips_global_entry :
  isLegacyGroupKey "global" = false /\
  isSurfaceGroupKey "global" = false /\
  startsWith "global" "agent:" = false /\
  startsWith (toLowerCase "global") "subagent:" = false /\
  truthy (getPropOpt (entryOf "g" 100) "sessionId") = true /\
  num_gt (updatedAtOf (entryOf "g" 100)) (updatedAtOf (entryOf "s1" 10)) = true /\
  mergeStores (normalizeLegacyStore sampleNormalizeAgentId "default" legacyGlobalStore ∅) ∅
    !! "agent:default:main" = None /\
  (mergedSessions sampleNormalizeAgentId sampleBuildAgentMainSessionKey
     sampleDetection legacyGlobalStore ∅).1 !! "agent:default:main"
  = Some (entryOf "s1" 10) /\
  entryOf "s1" 10 <> entryOf "g" 100.
Proof.
  repeat (split; [vm_compute; reflexivity|]).
  intros H. apply (f_equal (fun v => getPropOpt v "sessionId")) in H.
  vm_compute in H. discriminate H.
Qed.

Lemma written_store_normalized_witness :
  exists r w,
    migrateLegacySessions sampleNormalizeAgentId sampleBuildAgentMainSessionKey
      sampleClockAt sampleDetection
      {| store := legacyRaggedStore; ok := true |} {| store := ∅; ok := true |}
    = Returned r /\
    written r = Some w /\
    (forall key entry,
        (mergedSessions sampleNormalizeAgentId sampleBuildAgentMainSessionKey
           sampleDetection legacyRaggedStore ∅).1 !! key = Some entry ->
        sessionIdIsString entry = false ->
        w !! key = None) /\
    (forall key entry,
        (mergedSessions sampleNormalizeAgentId sampleBuildAgentMainSessionKey
           sampleDetection legacyRaggedStore ∅).1 !! key = Some entry ->
        key <> "__proto__" ->
        sessionIdIsString entry = true ->
        truthy (getPropOpt entry "sessionId") = true ->
        exists entry',
          w !! key = Some entry' /\
          (updatedAtIsFinite entry = true -> entry' = entry) /\
          (forall name, name <> "updatedAt" ->
                        getPropOpt entry' name = getPropOpt entry name) /\
          (updatedAtIsFinite entry = false ->
           getPropOpt entry' "updatedAt" = Num (Finite (sampleClockAt key)))) /\
    (forall key entry',
        w !! key = Some entry' ->
        exists entry,
          (mergedSessions sampleNormalizeAgentId sampleBuildAgentMainSessionKey
             sampleDetection legacyRaggedStore ∅).1 !! key = Some entry /\
          (updatedAtIsFinite entry = false ->
           getPropOpt entry' "updatedAt" = Num (Finite (sampleClockAt key)))).
Proof.
  eexists _, _. split; [vm_compute; reflexivity|]. split; [reflexivity|].
  eapply (written_store_normalized sampleNormalizeAgentId sampleBuildAgentMainSessionKey
            sampleClockAt sampleDetection
            {| store := legacyRaggedStore; ok := true |} {| store := ∅; ok := true |}).
  - vm_compute; reflexivity.
  - reflexivity.
Defined.

(** In that store "userB" has no sessionId and is left out; "userC" is
    written with the current time; "userA", the latest direct entry, is
    also written under the main key. *)
Example ragged_store_written :
  match migrateLegacySessions sampleNormalizeAgentId sampleBuildAgentMainSessionKey
          sampleClockAt sampleDetection
          {| store := legacyRaggedStore; ok := true |} {| store := ∅; ok := true |} with
  | Returned r =>
      match written r with
      | Some w =>
          w !! "userB" = None /\
          w !! "userC" = Some (entryOf "s3" 1700000000000) /\
          w !! "userA" = Some (entryOf "s1" 10) /\
          w !! "agent:default:main" = Some (entryOf "s1" 10)
      | None => False
      end
  | Thrown => False
  end.
Proof. vm_compute. repeat split; reflexivity. Qed.

(** A [null] entry makes the write loop raise: nothing is written. *)
Example null_entry_raises :
  migrateLegacySessions sampleNormalizeAgentId sampleBuildAgentMainSessionKey
    sampleClockAt sampleDetection
    {| store := [("userA", Null)]; ok := true |} {| store := ∅; ok := true |}
  = Thrown.
Proof. vm_compute. reflexivity. Qed.

(** ** Computations that keep a property of the state *)

Lemma keeps_ret {S A} (I : S -> Prop) (a : A) : keeps I (ret a).
Proof. by intros s. Qed.

Lemma keeps_gets {S A} (I : S -> Prop) (f : S -> A) : keeps I (gets f).
Proof. by intros s. Qed.

Lemma keeps_throw {S A} (I : S -> Prop) : keeps I (@throw S A).
Proof. by intros s. Qed.

Lemma keeps_modify {S} (I : S -> Prop) (f : S -> S) :
  (forall s, I s -> I (f s)) -> keeps I (modify f).
Proof. intros H s. apply H. Qed.

Lemma keeps_bind {S A B} (I : S -> Prop) (m : M S A) (k : A -> M S B) :
  keeps I m -> (forall a, keeps I (k a)) -> keeps I (bind m k).
Proof.
  intros Hm Hk s Is. unfold bind. specialize (Hm s Is).
  destruct (m s) as [[a|] s']; cbn [snd] in *; [by apply Hk | done].
Qed.

Lemma keeps_tryCatch {S A} (I : S -> Prop) (m handler : M S A) :
  keeps I m -> keeps I handler -> keeps I (tryCatch m handler).
Proof.
  intros Hm Hh s Is. unfold tryCatch. specialize (Hm s Is).
  destruct (m s) as [[a|] s']; cbn [snd] in *; [done | by apply Hh].
Qed.

Lemma bind_ret {S A B} (a : A) (k : A -> M S B) s : bind (ret a) k s = k a s.
Proof. reflexivity. Qed.

Lemma bind_gets {S A B} (f : S -> A) (k : A -> M S B) s : bind (gets f) k s = k (f s) s.
Proof. reflexivity. Qed.

Lemma bind_modify {S B} (f : S -> S) (k : unit -> M S B) s :
  bind (modify f) k s = k tt (f s).
Proof. reflexivity. Qed.

Lemma bind_assoc {S A B D} (m : M S A) (f : A -> M S B) (k : B -> M S D) s :
  bind (bind m f) k s = bind m (fun x => bind (f x) k) s.
Proof. unfold bind. by destruct (m s) as [[a|] s']. Qed.

Lemma bind_returned {S A B} (m : M S A) (k : A -> M S B) s a s' :
  m s = (Returned a, s') -> bind m k s = k a s'.
Proof. intros H. unfold bind. by rewrite H. Qed.

Lemma bind_thrown {S A B} (m : M S A) (k : A -> M S B) s s' :
  m s = (Thrown, s') -> bind m k s = (Thrown, s').
Proof. intros H. unfold bind. by rewrite H. Qed.

(** ** The auto-migration gate *)

Section AutoMigrateFacts.

Variables Config FS : Type.
Variable detectLegacyStateMigrations :
  Config -> gmap string string -> FS -> LegacyStateDetection.
Variable migrateLegacySessionsOnDisk : LegacyStateDetection -> FS -> outcome MigrationLog * FS.
Variable migrateLegacyAgentDir : LegacyStateDetection -> FS -> outcome MigrationLog * FS.

Local Abbreviation auto :=
  (autoMigrateLegacyState Config FS detectLegacyStateMigrations
     migrateLegacySessionsOnDisk migrateLegacyAgentDir).
Local Abbreviation run :=
  (runCalls Config FS detectLegacyStateMigrations
     migrateLegacySessionsOnDisk migrateLegacyAgentDir).

(** Once the flag is set a call returns at once and touches nothing. *)
Lemma auto_when_checked params (p : Process FS) :
  autoMigrateChecked p = true -> auto params p = (Returned skippedResult, p).
Proof.
  intros C. unfold autoMigrateLegacyState, bind, gets. by rewrite C.
Qed.

Lemma keeps_onDisk I e routine :
  (forall p d, I p -> I {| autoMigrateChecked := autoMigrateChecked p;
                           processEnv := processEnv p; disk := d;
                           effects := effects p ++ [e] |}) ->
  keeps I (onDisk FS e routine).
Proof.
  intros H p Ip. unfold onDisk. destruct (routine (disk p)) as [r d]. by apply H.
Qed.

Local Ltac keeps_flag :=
  repeat first
    [ apply keeps_ret
    | apply keeps_gets
    | apply keeps_modify; intros [] ?; assumption
    | apply keeps_onDisk; intros [] ? ?; assumption
    | apply keeps_bind; [|intros ?]
    | match goal with |- keeps _ (if ?b then _ else _) => destruct b end
    | progress cbv zeta
    | progress unfold record ].

(** Every call leaves the flag set, whether it returns or rejects. *)
Lemma auto_sets_flag params (p : Process FS) :
  autoMigrateChecked (auto params p).2 = true.
Proof.
  unfold autoMigrateLegacyState. rewrite bind_gets.
  destruct (autoMigrateChecked p) eqn:C; [done|]. rewrite bind_modify.
  match goal with
  | |- autoMigrateChecked (?m ?s).2 = true =>
      cut (keeps (fun q : Process FS => autoMigrateChecked q = true) m);
      [intros K; by apply K|]
  end.
  keeps_flag.
Qed.

Lemma run_when_checked calls (p : Process FS) :
  autoMigrateChecked p = true ->
  run calls p = (replicate (length calls) (Returned skippedResult), p).
Proof.
  intros C. induction calls as [|params rest IH]; [done|].
  cbn [runCalls]. by rewrite (auto_when_checked _ _ C), IH.
Qed.

(** With either override set the call is skipped: the disk is as it was
    and no routine has run. *)
Lemma auto_when_overridden params (p : Process FS) :
  envSet (default (processEnv p) (env params)) "CLAWDBOT_AGENT_DIR"
  || envSet (default (processEnv p) (env params)) "PI_CODING_AGENT_DIR" = true ->
  auto params p = (Returned skippedResult, if autoMigrateChecked p then p else setChecked FS p).
Proof.
  intros O. unfold autoMigrateLegacyState, bind, gets, modify, ret.
  destruct (autoMigrateChecked p); [done|]. cbn [setChecked processEnv]. by rewrite O.
Qed.

(** C6. Across any sequence of calls to [autoMigrateLegacyState] in one
    process, only the first call can run the migration routines: every
    later call returns [skipped = true] with no changes and no warnings
    and leaves the process as the first call left it. And a call made
    while CLAWDBOT_AGENT_DIR or PI_CODING_AGENT_DIR is set to a non-blank
    value is skipped, with the disk untouched and no routine run. *)
Theorem auto_migrate_runs_at_most_once first rest params (p q : Process FS) :
  run (first :: rest) p
  = ((auto first p).1 :: replicate (length rest) (Returned skippedResult),
     (auto first p).2)
  /\ (envSet (default (processEnv q) (env params)) "CLAWDBOT_AGENT_DIR"
      || envSet (default (processEnv q) (env params)) "PI_CODING_AGENT_DIR" = true ->
      (auto params q).1 = Returned skippedResult
      /\ disk (auto params q).2 = disk q
      /\ effects (auto params q).2 = effects q).
Proof.
  split.
  - cbn [runCalls]. pose proof (auto_sets_flag first p) as C.
    destruct (auto first p) as [r p1]. cbn [fst snd] in *.
    by rewrite (run_when_checked rest p1 C).
  - intros O. rewrite (auto_when_overridden _ _ O).
    by destruct (autoMigrateChecked q).
Qed.

End AutoMigrateFacts.

Lemma auto_migrate_runs_at_most_once_witness :
  envSet (default (processEnv overriddenProcess) (env plainCall)) "CLAWDBOT_AGENT_DIR"
  || envSet (default (processEnv overriddenProcess) (env plainCall)) "PI_CODING_AGENT_DIR"
  = true /\
  runCalls unit (list string) sampleDetect sampleMigrateSessionsOnDisk sampleMigrateAgentDir
    [plainCall; plainCall; plainCall] freshProcess
  = ((autoMigrateLegacyState unit (list string) sampleDetect sampleMigrateSessionsOnDisk
        sampleMigrateAgentDir plainCall freshProcess).1
     :: replicate 2 (Returned skippedResult),
     (autoMigrateLegacyState unit (list string) sampleDetect sampleMigrateSessionsOnDisk
        sampleMigrateAgentDir plainCall freshProcess).2) /\
  (autoMigrateLegacyState unit (list string) sampleDetect sampleMigrateSessionsOnDisk
     sampleMigrateAgentDir plainCall overriddenProcess).1 = Returned skippedResult /\
  disk (autoMigrateLegacyState unit (list string) sampleDetect sampleMigrateSessionsOnDisk
          sampleMigrateAgentDir plainCall overriddenProcess).2 = disk overriddenProcess /\
  effects (autoMigrateLegacyState unit (list string) sampleDetect sampleMigrateSessionsOnDisk
             sampleMigrateAgentDir plainCall overriddenProcess).2
  = effects overriddenProcess.
Proof.
  split; [vm_compute; reflexivity|].
  destruct (auto_migrate_runs_at_most_once unit (list string) sampleDetect
              sampleMigrateSessionsOnDisk sampleMigrateAgentDir
              plainCall [plainCall; plainCall] plainCall freshProcess overriddenProcess)
    as [R O].
  split; [exact R|]. apply O. vm_compute; reflexivity.
Defined.

(** The first call of a fresh process does migrate, once. *)
Example first_call_migrates :
  (autoMigrateLegacyState unit (list string) sampleDetect sampleMigrateSessionsOnDisk
     sampleMigrateAgentDir plainCall freshProcess).1
  = Returned {| migrated := true; skipped := false;
                resultChanges :=
                  ["Merged sessions store → /state/agents/default/sessions/sessions.json"];
                resultWarnings := [] |}.
Proof. vm_compute. reflexivity. Qed.

(** ** The session forker *)

Section SessionFacts.

Import Session.

Variable C : Collaborators.

Lemma bind_Date_now {B} (k : Z -> M World B) w :
  bind Date_now k w = k (nowOf w) (tick w).
Proof. reflexivity. Qed.

Lemma bind_randomUUID {B} (k : string -> M World B) w :
  bind randomUUID k w = k (uuidOf w) (draw w).
Proof. reflexivity. Qed.

(** [forkSessionFromParent] never throws. *)
Lemma fork_returns parentEntry w :
  exists forked w', forkSessionFromParent C parentEntry w = (Returned forked, w').
Proof.
  unfold forkSessionFromParent.
  destruct (truthyString _) as [file|]; [|by eexists _, _].
  unfold existsSync. rewrite bind_gets. destruct (negb _); [by eexists _, _|].
  unfold tryCatch. destruct (forkFromFile C file w) as [[f|] w']; by eexists _, _.
Qed.

(** It returns [null] when the parent has no transcript path, when the
    transcript file does not exist, and when a step of the fork throws. *)
Lemma fork_null parentEntry w :
  truthyString (resolveSessionFilePath C (sessionId parentEntry) parentEntry) = None
  \/ (exists file,
        truthyString (resolveSessionFilePath C (sessionId parentEntry) parentEntry)
          = Some file /\
        (files w !! file = None \/ exists w', forkFromFile C file w = (Thrown, w'))) ->
  exists w', forkSessionFromParent C parentEntry w = (Returned None, w').
Proof.
  unfold forkSessionFromParent. intros [->|(file & -> & H)]; [by eexists|].
  unfold existsSync. rewrite bind_gets. destruct (files w !! file) as [content|] eqn:F.
  - destruct H as [?|[w' T]]; [done|].
    rewrite bool_decide_eq_true_2 by (by eexists). cbn [negb]. unfold tryCatch.
    rewrite T. by eexists.
  - rewrite bool_decide_eq_false_2 by (by intros [? ?]). by eexists.
Qed.

(** ** Session initialisation *)

Lemma truthyString_is_Some s v : truthyString s = Some v -> is_Some s.
Proof. destruct s; [by eexists | done]. Qed.

(** The tail of [initSessionState]: the store is updated and the result
    returned. *)
Local Ltac init_returned :=
  rewrite ?bind_ret, bind_modify; unfold ret;
  eexists _, _; split; [reflexivity|];
  cbn [resultSessionEntry resultSessionId isNewSession].

(** The entry returned has the id returned and a transcript file. *)
Local Ltac init_entry :=
  cbn;
  repeat match goal with
         | |- _ /\ _ => split
         | |- context [truthyString ?x] =>
             let T := fresh "T" in destruct (truthyString x) eqn:T; cbn
         | |- context [nonEmpty ?x] =>
             let T := fresh "T" in destruct (nonEmpty x) eqn:T; cbn
         end;
  try done; try (by eexists); eauto using truthyString_is_Some.

(** What a call of [initSessionState] comes to: it returns; it reuses the
    stored entry's id when there is an entry to reuse; otherwise the
    session is new, and its id is the id of a successful fork of the
    parent entry, or else the UUID drawn. *)
Lemma init_run params w :
  exists r w',
    initSessionState C params w = (Returned r, w') /\
    sessionId (resultSessionEntry r) = resultSessionId r /\
    is_Some (sessionFile (resultSessionEntry r)) /\
    match reusedEntry C params w with
    | Some e => isNewSession r = false /\ resultSessionId r = sessionId e
    | None =>
        isNewSession r = true /\
        exists forked w2,
          match parentEntryOf C params w with
          | Some parentEntry =>
              forkSessionFromParent C parentEntry (worldAtFork C params w)
              = (Returned forked, w2)
          | None => forked = None
          end /\
          resultSessionId r
          = match forked with Some f => forkedSessionId f | None => uuidOf w end
    end.
Proof.
  unfold initSessionState. cbv zeta.
  unfold loadSessionStore, updateSessionStore. rewrite bind_gets.
  fold (storeOf C params w). fold (storedEntry C params w).
  unfold reusedEntry, parentEntryOf, worldAtFork.
  fold (idleMsOf C params).
  destruct (storedEntry C params w) as [e|] eqn:E.
  - rewrite bind_assoc, bind_Date_now, bind_ret.
    destruct (negb (bool_decide (is_Some (resetOf C params)))
              && num_le (Finite (nowOf w - updatedAt e)) (idleMsOf C params)) eqn:R.
    + (* the entry is reused *)
      rewrite bind_ret, bind_Date_now.
      destruct (truthyString (trim <$> ParentSessionKey (ctx params))) as [parentKey|];
        cbn [andb]; init_returned; init_entry.
    + (* the session is new *)
      rewrite bind_randomUUID, bind_Date_now.
      destruct (truthyString (trim <$> ParentSessionKey (ctx params))) as [parentKey|];
        cbn [andb]; [|init_returned; init_entry; try (by exists None, w)].
      destruct (negb (String.eqb parentKey (sessionKeyOf C params)));
        [|init_returned; init_entry; try (by exists None, w)].
      destruct (storeOf C params w !! parentKey) as [parentEntry|];
        [|init_returned; init_entry; try (by exists None, w)].
      destruct (fork_returns parentEntry (tick (draw (tick w)))) as (f & w2 & F).
      rewrite (bind_returned _ _ _ _ _ F).
      init_returned; destruct f; init_entry; try (by eexists _, w2).
  - (* no entry under the key *)
    rewrite bind_ret. rewrite andb_false_r.
    rewrite bind_randomUUID, bind_Date_now.
    destruct (truthyString (trim <$> ParentSessionKey (ctx params))) as [parentKey|];
      cbn [andb]; [|init_returned; init_entry; try (by exists None, w)].
    destruct (negb (String.eqb parentKey (sessionKeyOf C params)));
      [|init_returned; init_entry; try (by exists None, w)].
    destruct (storeOf C params w !! parentKey) as [parentEntry|];
      [|init_returned; init_entry; try (by exists None, w)].
    destruct (fork_returns parentEntry (tick (draw w))) as (f & w2 & F).
    rewrite (bind_returned _ _ _ _ _ F).
    init_returned; destruct f; init_entry; try (by eexists _, w2).
Qed.

Lemma scan_unauthorized triggers trimmedBody strippedForReset :
  scanResetTriggers triggers false trimmedBody strippedForReset = None.
Proof.
  induction triggers as [|t ts IH]; [done|]. cbn [scanResetTriggers].
  by destruct (negb (nonEmpty t)).
Qed.

Lemma scan_match triggers trimmedBody strippedForReset trigger :
  trigger ∈ triggers -> trigger <> "" ->
  matchesTrigger trimmedBody strippedForReset trigger ->
  is_Some (scanResetTriggers triggers true trimmedBody strippedForReset).
Proof.
  intros In Ne Hm. induction triggers as [|t ts IH]; [by apply elem_of_nil in In|].
  cbn [scanResetTriggers negb].
  destruct (nonEmpty t) eqn:Nt; cbn [negb].
  - destruct (String.eqb trimmedBody t || String.eqb strippedForReset t) eqn:Eq;
      [by eexists|].
    destruct (startsWith trimmedBody (t ++ " ") || startsWith strippedForReset (t ++ " "))
      eqn:Pre; [by eexists|].
    apply IH. apply elem_of_cons in In as [->|In]; [|done]. exfalso.
    apply orb_false_iff in Eq as [E1 E2]. apply orb_false_iff in Pre as [P1 P2].
    destruct Hm as [<-|[<-|[H|H]]].
    + by rewrite String.eqb_refl in E1.
    + by rewrite String.eqb_refl in E2.
    + congruence.
    + congruence.
  - apply IH. apply elem_of_cons in In as [->|In]; [|done]. by destruct t.
Qed.

Lemma reused_when_fresh params w entry :
  storedEntry C params w = Some entry -> resetOf C params = None ->
  num_le (Finite (nowOf w - updatedAt entry)) (idleMsOf C params) = true ->
  reusedEntry C params w = Some entry.
Proof.
  intros E R F. unfold reusedEntry. rewrite E, R.
  rewrite bool_decide_eq_false_2 by (by intros [? ?]). cbn [negb andb].
  by rewrite F.
Qed.


Lemma not_reused_when_reset params w :
  is_Some (resetOf C params) -> reusedEntry C params w = None.
Proof.
  intros R. unfold reusedEntry. destruct (storedEntry C params w); [|done].
  by rewrite bool_decide_eq_true_2.
Qed.

(** A new session carries an id generated during the call. *)
Lemma init_new_session params w :
  reusedEntry C params w = None ->
  exists r w',
    initSessionState C params w = (Returned r, w') /\
    isNewSession r = true /\ generatedId C params w (resultSessionId r).
Proof.
  intros N. destruct (init_run params w) as (r & w' & H & _ & _ & D).
  rewrite N in D. destruct D as (New & forked & w2 & F & Id).
  exists r, w'. split; [done|]. split; [done|]. rewrite Id.
  destruct forked as [f|]; [|by left]. right.
  destruct (parentEntryOf C params w) as [parentEntry|]; [|done].
  by exists parentEntry, f, w2.
Qed.

Lemma init_reuse params w entry :
  reusedEntry C params w = Some entry ->
  exists r w',
    initSessionState C params w = (Returned r, w') /\
    resultSessionId r = sessionId entry /\ isNewSession r = false.
Proof.
  intros N. destruct (init_run params w) as (r & w' & H & _ & _ & D).
  rewrite N in D. destruct D as [New Id]. by exists r, w'.
Qed.


(** C2, amended. When the sender is authorised to issue commands and the
    trimmed message body, or its stripped form, equals a configured reset
    trigger that is not the empty string, or starts with such a trigger
    followed by a blank, [initSessionState] returns [isNewSession = true]
    with a sessionId generated during the call, whatever entry the store
    holds for the key. For a sender who is not authorised, whatever the
    message text, a fresh entry is reused: the stored sessionId is
    returned with [isNewSession = false]. *)
Theorem authorized_reset_starts_new_session params w trigger params' w' entry' :
  resetAuthorizedOf C params = true ->
  trigger ∈ resetTriggersOf C (cfg params) ->
  trigger <> "" ->
  matchesTrigger (trimmedBodyOf (ctx params)) (strippedForResetOf C params) trigger ->
  resetAuthorizedOf C params' = false ->
  storedEntry C params' w' = Some entry' ->
  num_le (Finite (nowOf w' - updatedAt entry')) (idleMsOf C params') = true ->
  (exists r w1,
      initSessionState C params w = (Returned r, w1) /\
      isNewSession r = true /\ generatedId C params w (resultSessionId r)) /\
  (exists r' w1',
      initSessionState C params' w' = (Returned r', w1') /\
      resultSessionId r' = sessionId entry' /\ isNewSession r' = false).
Proof.
  intros A In Ne Hm U E F. split.
  - apply init_new_session, not_reused_when_reset.
    unfold resetOf. rewrite A. by eapply scan_match.
  - apply init_reuse, reused_when_fresh; [done| |done].
    unfold resetOf. rewrite U. apply scan_unauthorized.
Qed.



Lemma files_at_fork params w : files (worldAtFork C params w) = files w.
Proof. unfold worldAtFork. by destruct (storedEntry C params w). Qed.

(** C7. For a new-session resolution that supplies a parent session key
    whose stored entry has no transcript file on disk, or for which a
    step of the fork throws, [forkSessionFromParent] returns [null] and
    [initSessionState] still returns: a new session whose entry carries
    the UUID drawn for it and a transcript path. *)
Theorem fork_failure_is_not_fatal params w parentEntry :
  reusedEntry C params w = None ->
  parentEntryOf C params w = Some parentEntry ->
  truthyString (resolveSessionFilePath C (sessionId parentEntry) parentEntry) = None
  \/ (exists file,
        truthyString (resolveSessionFilePath C (sessionId parentEntry) parentEntry)
          = Some file /\
        (files w !! file = None
         \/ exists w2, forkFromFile C file (worldAtFork C params w) = (Thrown, w2))) ->
  (exists w2,
      forkSessionFromParent C parentEntry (worldAtFork C params w) = (Returned None, w2)) /\
  exists r w',
    initSessionState C params w = (Returned r, w') /\
    isNewSession r = true /\
    resultSessionId r = uuidOf w /\
    sessionId (resultSessionEntry r) = uuidOf w /\
    is_Some (sessionFile (resultSessionEntry r)).
Proof.
  intros N P Fail.
  assert (exists w2, forkSessionFromParent C parentEntry (worldAtFork C params w)
                     = (Returned None, w2)) as [w2 F].
  { apply fork_null. destruct Fail as [?|(file & ? & H)]; [by left|right].
    exists file. split; [done|]. by rewrite files_at_fork. }
  split; [by exists w2|].
  destruct (init_run params w) as (r & w' & H & Sid & File & D).
  rewrite N, P in D. destruct D as (New & forked & w3 & F' & Id).
  rewrite F in F'. injection F' as <- <-.
  exists r, w'. by rewrite Sid, Id.
Qed.

End SessionFacts.

(** ** Session initialisation on the sample world *)



(** There the session is new and carries the UUID drawn, which is not the
    stored id; within the window the stored id comes back. *)
Example stale_entry_gets_new_id :
  exists r w',
    Session.initSessionState sampleCollaborators (mainMessage "hello" false) staleWorld
      = (Returned r, w') /\
    Session.isNewSession r = true /\ Session.resultSessionId r = "uuid-0".
Proof. eexists _, _. split; [vm_compute; reflexivity|]. split; reflexivity. Qed.

Example fresh_entry_keeps_id :
  exists r w',
    Session.initSessionState sampleCollaborators (mainMessage "hello" false) sampleWorld
      = (Returned r, w') /\
    Session.isNewSession r = false /\ Session.resultSessionId r = "stored-id".
Proof. eexists _, _. split; [vm_compute; reflexivity|]. split; reflexivity. Qed.

Lemma authorized_reset_starts_new_session_witness :
  (exists r w1,
      Session.initSessionState sampleCollaborators (mainMessage "/new hello" true) sampleWorld
        = (Returned r, w1) /\
      Session.isNewSession r = true /\
      generatedId sampleCollaborators (mainMessage "/new hello" true) sampleWorld
        (Session.resultSessionId r)) /\
  (exists r' w1',
      Session.initSessionState sampleCollaborators (mainMessage "/new hello" false) sampleWorld
        = (Returned r', w1') /\
      Session.resultSessionId r' = "stored-id" /\ Session.isNewSession r' = false).
Proof.
  apply (authorized_reset_starts_new_session sampleCollaborators
           (mainMessage "/new hello" true) sampleWorld "/new"
           (mainMessage "/new hello" false) sampleWorld
           (sampleSessionEntry "stored-id" 990000)).
  - reflexivity.
  - vm_compute. left.
  - discriminate.
  - right; right; left. vm_compute; reflexivity.
  - reflexivity.
  - vm_compute; reflexivity.
  - vm_compute; reflexivity.
Defined.

(** C2 as stated does not hold for the empty trigger: the sender is
    authorised, the empty string is the configured reset trigger, the
    trimmed body equals it, and the fresh stored entry is reused all the
    same: no reset. *)
Lemma empty_trigger_does_not_reset :
  Session.resetAuthorizedOf sampleCollaborators emptyTriggerMessage = true /\
  "" ∈ Session.resetTriggersOf sampleCollaborators (Session.cfg emptyTriggerMessage) /\
  Session.trimmedBodyOf (Session.ctx emptyTriggerMessage) = "" /\
  storedEntry sampleCollaborators emptyTriggerMessage sampleWorld
    = Some (sampleSessionEntry "stored-id" 990000) /\
  exists r w',
    Session.initSessionState sampleCollaborators emptyTriggerMessage sampleWorld
      = (Returned r, w') /\
    Session.isNewSession r = false /\ Session.resultSessionId r = "stored-id".
Proof.
  split; [reflexivity|]. split; [vm_compute; left|]. split; [reflexivity|].
  split; [vm_compute; reflexivity|].
  eexists _, _. split; [vm_compute; reflexivity|]. split; reflexivity.
Qed.



Lemma fork_failure_is_not_fatal_witness :
  reusedEntry sampleCollaborators threadMessage sampleWorld = None /\
  parentEntryOf sampleCollaborators threadMessage sampleWorld
    = Some (sampleSessionEntry "parent-id" 1) /\
  Session.files sampleWorld !! "/state/agents/main/parent-id.jsonl" = None /\
  (exists w2,
      Session.forkSessionFromParent sampleCollaborators (sampleSessionEntry "parent-id" 1)
        (worldAtFork sampleCollaborators threadMessage sampleWorld)
      = (Returned None, w2)) /\
  exists r w',
    Session.initSessionState sampleCollaborators threadMessage sampleWorld
      = (Returned r, w') /\
    Session.isNewSession r = true /\
    Session.resultSessionId r = uuidOf sampleWorld /\
    Session.sessionId (Session.resultSessionEntry r) = uuidOf sampleWorld /\
    is_Some (Session.sessionFile (Session.resultSessionEntry r)).
Proof.
  split; [vm_compute; reflexivity|]. split; [vm_compute; reflexivity|].
  split; [vm_compute; reflexivity|].
  apply (fork_failure_is_not_fatal sampleCollaborators threadMessage sampleWorld
           (sampleSessionEntry "parent-id" 1)).
  - vm_compute; reflexivity.
  - vm_compute; reflexivity.
  - right. exists "/state/agents/main/parent-id.jsonl".
    split; [vm_compute; reflexivity|]. left. vm_compute; reflexivity.
Defined.

(** The same thread message when the transcript exists but the session
    manager cannot open it: the fork throws inside, and the session is
    new all the same. *)
Example fork_throw_is_caught :
  Session.forkSessionFromParent sampleCollaborators (sampleSessionEntry "parent-id" 1)
    {| Session.clock := Session.clock sampleWorld; Session.ticks := 0;
       Session.uuids := Session.uuids sampleWorld; Session.drawn := 0;
       Session.files := {["/state/agents/main/parent-id.jsonl" := "{}"]};
       Session.writable := fun _ => true; Session.stores := ∅ |}
  = (Returned None,
     {| Session.clock := Session.clock sampleWorld; Session.ticks := 0;
        Session.uuids := Session.uuids sampleWorld; Session.drawn := 0;
        Session.files := {["/state/agents/main/parent-id.jsonl" := "{}"]};
        Session.writable := fun _ => true; Session.stores := ∅ |}).
Proof. vm_compute. reflexivity. Qed.

(* ===================================================================== *)
(** * Further properties *)
(* ===================================================================== *)

(** ** String facts *)

Lemma startsWith_inv p : forall s,
  startsWith s p = true -> exists rest, s = p ++ rest.
Proof.
  induction p as [|a p IH]; intros s H; [by exists s|].
  destruct s as [|b s]; [done|]. cbn [startsWith] in H.
  destruct (Ascii.eqb_spec a b) as [<-|]; [|done].
  destruct (IH s H) as [rest ->]. by exists rest.
Qed.

Lemma includes_app_r s t sub : includes t sub = true -> includes (s ++ t) sub = true.
Proof.
  intros H. induction s as [|c s IH]; [done|].
  change (String c s ++ t) with (String c (s ++ t)).
  cbn [includes]. rewrite IH. by destruct (startsWith _ _).
Qed.

Lemma agent_prefixed_not_legacy key :
  startsWith key "agent:" = true -> isLegacyGroupKey key = false.
Proof.
  intros H. apply agent_prefix_survives_trim, startsWith_inv in H as [rest E].
  unfold isLegacyGroupKey. cbv zeta. rewrite E. cbn.
  by destruct (includes _ _).
Qed.

(** ** The normaliser on every key *)

Section NormalizerMore.

Variable normalizeAgentId : string -> string.

Local Abbreviation normalize := (normalizeSessionKeyForAgent normalizeAgentId).

Local Ltac tail_noTrail :=
  repeat (apply noTrail_cons_nonempty; [|discriminate]);
  repeat first [ assumption | apply noTrail_cons; [|reflexivity] ].

(** What the rules 2 to 6 return: the agent prefix, the agent id, a colon
    and a tail with nothing to trim at its end. *)
Lemma normalize_rewritten_shape key agentId :
  isRewriteRule (keyRule key) = true ->
  exists tail,
    normalize key agentId = "agent:" ++ normalizeAgentId agentId ++ ":" ++ tail
    /\ noTrail tail.
Proof.
  intros Rw. pose proof (trim_noTrail key) as T.
  rewrite (normalize_by_rule normalizeAgentId key agentId). cbv zeta.
  destruct (keyRule key) eqn:R; try discriminate Rw.
  - exists ("subagent:" ++ slice (trim key) (String.length "subagent:")).
    split; [reflexivity|]. simpl. tail_noTrail. by apply noTrail_slice.
  - destruct (includes _ "@g.us").
    + exists ("whatsapp:group:" ++ trim (slice (trim key) (String.length "group:"))).
      split; [reflexivity|]. simpl. tail_noTrail. apply trim_noTrail.
    + exists ("unknown:group:" ++ trim (slice (trim key) (String.length "group:"))).
      split; [reflexivity|]. simpl. tail_noTrail. apply trim_noTrail.
  - exists ("whatsapp:group:" ++ trim key).
    split; [reflexivity|]. simpl. tail_noTrail.
  - eexists ("whatsapp:group:" ++ _).
    split; [reflexivity|]. simpl. tail_noTrail. apply trim_noTrail.
  - by exists (trim key).
Qed.

Lemma normalize_unmatched_returns_trimmed_all key agentId :
  isRewriteRule (keyRule key) = false -> normalize key agentId = trim key.
Proof.
  intros Rw. rewrite (normalize_by_rule normalizeAgentId key agentId). cbv zeta.
  by destruct (keyRule key).
Qed.

Lemma rewritten_result_fixed key agentId :
  isRewriteRule (keyRule key) = true ->
  startsWith (normalize key agentId) "agent:" = true
  /\ noTrail (normalize key agentId).
Proof.
  intros Rw. destruct (normalize_rewritten_shape key agentId Rw) as (tail & -> & T).
  split; [reflexivity|].
  apply noTrail_app; [|by destruct (normalizeAgentId agentId)].
  apply noTrail_app; [|discriminate].
  by apply (noTrail_cons ":"%char tail).
Qed.

(** X1. A key rewritten by one of the rules 2 to 6 comes out with the
    agent prefix, and is no longer taken for a legacy group key. *)
Theorem normalize_rewritten_is_canonical key agentId :
  isRewriteRule (keyRule key) = true ->
  startsWith (normalize key agentId) "agent:" = true
  /\ isLegacyGroupKey (normalize key agentId) = false
  /\ keyRule (normalize key agentId) = RuleAgent.
Proof.
  intros Rw. destruct (rewritten_result_fixed key agentId Rw) as [P _].
  split; [done|]. split; [by apply agent_prefixed_not_legacy | by apply agent_prefix_rule].
Qed.

Lemma keyRule_surface key : keyRule key = RuleSurface -> isSurfaceGroupKey (trim key) = true.
Proof.
  unfold keyRule. cbv zeta.
  repeat match goal with
         | |- context [if ?b then _ else _] => destruct b eqn:?; try discriminate
         end; done.
Qed.

(** X2. A group key, that is a key rewritten by one of the rules 3 to 6,
    comes out in surface group form: the result contains ":group:" or
    ":channel:". *)
Theorem normalize_group_key_is_surface key agentId :
  isGroupRule (keyRule key) = true ->
  isSurfaceGroupKey (normalize key agentId) = true.
Proof.
  intros G. rewrite (normalize_by_rule normalizeAgentId key agentId). cbv zeta.
  assert (forall tail, includes (":whatsapp:group:" ++ tail) ":group:" = true) as W
    by reflexivity.
  assert (forall tail, includes (":unknown:group:" ++ tail) ":group:" = true) as U
    by reflexivity.
  destruct (keyRule key) eqn:R; try discriminate G; unfold isSurfaceGroupKey.
  - destruct (includes _ "@g.us").
    + rewrite (includes_app_r "agent:" _ ":group:"); [done|].
      apply includes_app_r, W.
    + rewrite (includes_app_r "agent:" _ ":group:"); [done|].
      apply includes_app_r, U.
  - rewrite (includes_app_r "agent:" _ ":group:"); [done|]. apply includes_app_r, W.
  - rewrite (includes_app_r "agent:" _ ":group:"); [done|]. apply includes_app_r, W.
  - apply keyRule_surface in R. unfold isSurfaceGroupKey in R.
    apply orb_true_iff in R as [R|R]; apply orb_true_iff; [left|right];
      apply (includes_app_r "agent:"), includes_app_r, (includes_app_r ":"), R.
Qed.

(** X3. Normalising twice is normalising once, for every key and every
    agent id. *)
Theorem normalize_idempotent_on_all_keys key agentId :
  normalizeSessionKeyForAgent normalizeAgentId
    (normalizeSessionKeyForAgent normalizeAgentId key agentId) agentId
  = normalizeSessionKeyForAgent normalizeAgentId key agentId.
Proof.
  destruct (isRewriteRule (keyRule key)) eqn:Rw.
  - destruct (rewritten_result_fixed key agentId Rw) as [P T].
    by apply normalize_agent_fixed.
  - by apply normalize_unmatched_idempotent.
Qed.

(** X4. The normaliser never returns a key with white space at its start
    or at its end. *)
Theorem normalize_result_is_trimmed key agentId :
  trim (normalize key agentId) = normalize key agentId.
Proof.
  destruct (isRewriteRule (keyRule key)) eqn:Rw.
  - destruct (rewritten_result_fixed key agentId Rw) as [P T].
    apply trim_fixed; [by apply startsWith_agent_noLead | done].
  - rewrite (normalize_unmatched_returns_trimmed_all key agentId Rw).
    apply trim_idempotent.
Qed.

End NormalizerMore.

(** ** The scan for the latest direct entry, from the caller's side *)

(** X5. [pickLatestLegacyDirectEntry] returns [null] exactly when the
    store holds no object under a direct key with an [updatedAt] above -1;
    in particular on the empty store. *)
Theorem pick_latest_null_iff_nothing_to_pick (store : list (string * value)) :
  pickLatestLegacyDirectEntry store = None
  <-> Forall (fun kv => isObjectEntry kv.2 && isDirectKey kv.1
                        && num_gt (updatedAtOf kv.2) (Finite (-1)) = false) store.
Proof.
  rewrite Forall_forall. split.
  - intros N kv In. apply (proj1 (pickLatest_None store) N kv In).
  - intros F. apply pickLatest_None. intros kv In. apply (F kv In).
Qed.

(** X6. An entry that [pickLatestLegacyDirectEntry] returns is an object
    of the store, stored under a key that is not blank, not "global", not
    agent:- or subagent:-prefixed and not a group key, and no entry it
    could have picked is newer. *)
Theorem pick_latest_returns_newest_direct_entry (store : list (string * value)) entry :
  pickLatestLegacyDirectEntry store = Some entry ->
  (exists key,
      (key, entry) ∈ store /\ isObjectEntry entry = true /\ isDirectKey key = true) /\
  forall key' entry',
    (key', entry') ∈ store -> eligible (key', entry') = true ->
    num_gt (updatedAtOf entry') (updatedAtOf entry) = false.
Proof.
  intros P. apply pickLatest_Some in P as [i ([key [Hi E]] & Max & _)]. split.
  - exists key. split; [by eapply list_elem_of_lookup_2|].
    unfold eligible in E. cbn [fst snd] in E.
    apply andb_true_iff in E as [E _]. by apply andb_true_iff in E.
  - intros key' entry' [j Hj]%list_elem_of_lookup_1 El. apply (Max j _ Hj El).
Qed.

(** ** [normalizeSessionEntry], case by case *)

(** X7. What [normalizeSessionEntry] returns is the entry itself when its
    [updatedAt] is a finite number, and otherwise the entry with only
    [updatedAt] changed: every other property is as it was, the
    [sessionId] is a string that is not empty and the [updatedAt] is
    finite. *)
Theorem normalized_entry_differs_only_in_updatedAt now entry entry' :
  normalizeSessionEntry now entry = Returned (Some entry') ->
  sessionIdIsString entry' = true /\
  truthy (getPropOpt entry' "sessionId") = true /\
  updatedAtIsFinite entry' = true /\
  (updatedAtIsFinite entry = true -> entry' = entry) /\
  (forall name, name <> "updatedAt" -> getPropOpt entry' name = getPropOpt entry name).
Proof.
  intros (props & sid & -> & S & Ne & ->)%normalizeSessionEntry_Some.
  unfold sessionIdIsString, updatedAtIsFinite, getPropOpt. cbn [getProp].
  rewrite lookup_insert_eq, lookup_insert_ne, S by done. cbn.
  split; [done|]. split; [done|]. split.
  - destruct (props !! "updatedAt") as [[| | |n| | |]|]; cbn; try done.
    by destruct n.
  - split.
    + destruct (props !! "updatedAt") as [[| | |n| | |]|] eqn:U; cbn; try done.
      destruct n; cbn; try done. intros _. f_equal. by apply insert_id.
    + intros name Hn. by rewrite lookup_insert_ne.
Qed.

(** X8. Normalising is idempotent: an entry that [normalizeSessionEntry]
    returned is returned as it is when normalised again, whatever the
    time. *)
Theorem normalizeSessionEntry_idempotent now now' entry entry' :
  normalizeSessionEntry now entry = Returned (Some entry') ->
  normalizeSessionEntry now' entry' = Returned (Some entry').
Proof.
  intros (props & sid & -> & S & Ne & ->)%normalizeSessionEntry_Some.
  unfold normalizeSessionEntry, getPropOpt. cbn [getProp spread].
  rewrite lookup_insert_eq, lookup_insert_ne, S by done. cbn. rewrite Ne. cbn.
  set (u := match default Undefined (props !! "updatedAt") with
            | Num n => if num_isFinite n then n else Finite now
            | _ => Finite now
            end).
  assert (num_isFinite u = true) as F.
  { unfold u. destruct (default Undefined (props !! "updatedAt")); try done.
    by destruct n. }
  rewrite F. do 3 f_equal.
  rewrite (insert_id _ "sessionId" (Str sid)) by (by rewrite lookup_insert_ne).
  apply insert_insert_eq.
Qed.

(** X9. [normalizeSessionEntry] throws exactly on [null] and [undefined],
    and on every other value it returns [null] exactly when [sessionId]
    is not a string or is the empty string. *)
Theorem normalizeSessionEntry_outcomes now entry :
  (normalizeSessionEntry now entry = Thrown <-> entry = Null \/ entry = Undefined) /\
  (normalizeSessionEntry now entry = Returned None
   <-> entry <> Null /\ entry <> Undefined
       /\ truthy (getPropOpt entry "sessionId") && sessionIdIsString entry = false).
Proof.
  unfold normalizeSessionEntry, sessionIdIsString, getPropOpt.
  destruct entry as [| |b|n|s|items|props]; cbn [getProp]; cbn;
    try solve [intuition congruence].
  destruct (props !! "sessionId") as [[| |b|n|sid|items|p]|]; cbn;
    rewrite ?andb_false_r, ?andb_true_r; try solve [intuition congruence].
  destruct (nonEmpty sid); cbn; intuition congruence.
Qed.

(** ** The sessions merge, entry by entry *)

Section SessionsMigrationMore.

Variable normalizeAgentId : string -> string.
Variable buildAgentMainSessionKey : string -> string -> string.
Variable clockAt : string -> Z.

Local Abbreviation normalize := (normalizeSessionKeyForAgent normalizeAgentId).
Local Abbreviation normalizeLegacy := (normalizeLegacyStore normalizeAgentId).
Local Abbreviation mergedOf :=
  (mergedSessions normalizeAgentId buildAgentMainSessionKey).
Local Abbreviation migrate :=
  (migrateLegacySessions normalizeAgentId buildAgentMainSessionKey clockAt).

(** X10. Legacy entries fill the gaps: under a key that the target store
    does not have, other than the main key, the merged store holds what
    the normalised legacy store holds. *)
Theorem merged_gap_is_filled_from_legacy detected legacyStore targetStore key :
  targetStore !! key = None ->
  key <> buildAgentMainSessionKey (targetAgentId detected) (targetMainKey detected) ->
  (mergedSessions normalizeAgentId buildAgentMainSessionKey
     detected legacyStore targetStore).1 !! key
  = normalizeLegacyStore normalizeAgentId (targetAgentId detected) legacyStore ∅ !! key.
Proof.
  intros T Ne. unfold mergedSessions, adoptLatestDirect. cbv zeta.
  destruct (negb _); [|by apply mergeStores_gap].
  destruct (pickLatestLegacyDirectEntry legacyStore) as [latest|];
    [|by apply mergeStores_gap].
  destruct (truthy _); cbn [fst]; [|by apply mergeStores_gap].
  rewrite lookup_insert_ne by done. by apply mergeStores_gap.
Qed.

Lemma normalizeLegacy_app agentId l1 : forall l2 acc,
  normalizeLegacy agentId (l1 ++ l2) acc
  = normalizeLegacy agentId l2 (normalizeLegacy agentId l1 acc).
Proof.
  induction l1 as [|[k e] l1 IH]; intros l2 acc; [done|].
  cbn [app normalizeLegacyStore].
  destruct (negb (nonEmpty _)); [apply IH|]. destruct (negb (truthy _)); apply IH.
Qed.

Lemma normalizeLegacy_origin agentId legacy : forall acc key entry,
  normalizeLegacy agentId legacy acc !! key = Some entry ->
  acc !! key = Some entry
  \/ (nonEmpty key = true
      /\ exists legacyKey, (legacyKey, entry) ∈ legacy /\ normalize legacyKey agentId = key).
Proof.
  induction legacy as [|[k e] rest IH]; intros acc key entry H; [by left|].
  cbn [normalizeLegacyStore] in H.
  assert (forall acc',
             normalizeLegacy agentId rest acc' !! key = Some entry ->
             acc' !! key = Some entry ->
             acc !! key = Some entry
             \/ (nonEmpty key = true
                 /\ exists legacyKey, (legacyKey, entry) ∈ (k, e) :: rest
                                      /\ normalize legacyKey agentId = key) ->
             acc !! key = Some entry
             \/ (nonEmpty key = true
                 /\ exists legacyKey, (legacyKey, entry) ∈ (k, e) :: rest
                                      /\ normalize legacyKey agentId = key)) as _ by auto.
  assert (forall acc', normalizeLegacy agentId rest acc' !! key = Some entry ->
                       acc' !! key = Some entry
                       \/ (nonEmpty key = true
                           /\ exists legacyKey, (legacyKey, entry) ∈ (k, e) :: rest
                                                /\ normalize legacyKey agentId = key)) as Rest.
  { intros acc' H'. destruct (IH acc' key entry H') as [?|(Ne & lk & In & E)]; [by left|].
    right. split; [done|]. exists lk. split; [by right | done]. }
  destruct (nonEmpty (normalize k agentId)) eqn:Nk; cbn [negb] in H;
    [|destruct (Rest acc H); auto].
  destruct (negb (truthy (jsget acc (normalize k agentId)))); [|destruct (Rest acc H); auto].
  destruct (Rest _ H) as [A|?]; [|by right].
  destruct (decide (normalize k agentId = key)) as [<-|Ne].
  - rewrite lookup_insert_eq in A. injection A as <-. right. split; [done|].
    exists k. split; [by left | done].
  - rewrite lookup_insert_ne in A by done. by left.
Qed.

(** X11. The normalised legacy store invents nothing: each of its entries
    is an entry of the legacy store, filed under the normalised form of a
    key it had there; its keys are not empty and normalising them again
    changes nothing. *)
Theorem normalized_legacy_store_is_canonical agentId legacyStore key entry :
  normalizeLegacy agentId legacyStore ∅ !! key = Some entry ->
  nonEmpty key = true /\
  normalize key agentId = key /\
  exists legacyKey,
    (legacyKey, entry) ∈ legacyStore /\ normalize legacyKey agentId = key.
Proof.
  intros H. destruct (normalizeLegacy_origin _ _ _ _ _ H) as [E|(Ne & lk & In & E)];
    [by rewrite lookup_empty in E|].
  split; [done|]. split; [|by exists lk]. rewrite <- E.
  destruct (isRewriteRule (keyRule lk)) eqn:Rw.
  - destruct (rewritten_result_fixed normalizeAgentId lk agentId Rw) as [P T].
    by apply normalize_agent_fixed.
  - by apply normalize_unmatched_idempotent.
Qed.

Lemma normalizeLegacy_sticky agentId legacy : forall acc key entry,
  acc !! key = Some entry -> truthy entry = true ->
  normalizeLegacy agentId legacy acc !! key = Some entry.
Proof.
  induction legacy as [|[k e] rest IH]; intros acc key entry A T; [done|].
  cbn [normalizeLegacyStore].
  destruct (negb (nonEmpty _)); [by apply IH|].
  destruct (negb (truthy (jsget acc (normalize k agentId)))) eqn:F; [|by apply IH].
  apply IH; [|done]. rewrite lookup_insert_ne; [done|].
  intros E. rewrite E in F. unfold jsget in F. rewrite A in F.
  by rewrite T in F.
Qed.

Lemma normalizeLegacy_still_open agentId legacy key : forall acc,
  truthy (jsget acc key) = false ->
  Forall (fun kv => normalize kv.1 agentId = key -> truthy kv.2 = false) legacy ->
  truthy (jsget (normalizeLegacy agentId legacy acc) key) = false.
Proof.
  induction legacy as [|[k e] rest IH]; intros acc A F; [done|].
  apply Forall_cons in F as [Fe F]. cbn [fst snd] in Fe. cbn [normalizeLegacyStore].
  destruct (negb (nonEmpty _)); [by apply IH|].
  destruct (negb (truthy (jsget acc (normalize k agentId)))); [|by apply IH].
  apply IH; [|done]. unfold jsget in *.
  destruct (decide (normalize k agentId = key)) as [E|Ne].
  - rewrite E, lookup_insert_eq. by apply Fe.
  - by rewrite lookup_insert_ne.
Qed.

(** Under the name of a member of [Object.prototype] the first loop keeps
    nothing. *)
Lemma normalizeLegacy_inherited agentId legacy key : forall acc,
  inheritedMember key = true -> acc !! key = None ->
  normalizeLegacy agentId legacy acc !! key = None.
Proof.
  induction legacy as [|[k e] rest IH]; intros acc I A; [done|].
  cbn [normalizeLegacyStore].
  destruct (negb (nonEmpty _)); [by apply IH|].
  destruct (negb (truthy (jsget acc (normalize k agentId)))) eqn:F; [|by apply IH].
  apply IH; [done|]. rewrite lookup_insert_ne; [done|].
  intros E. rewrite E in F. unfold jsget in F. by rewrite A, I in F.
Qed.

(** X12. Among legacy keys that normalise to the same key the first
    truthy entry wins: it is the one the normalised legacy store holds,
    whatever comes after it.  The one exception is a key that normalises
    to the name of a member of [Object.prototype] ([constructor],
    [toString], ...): under such a key no entry is kept. *)
Theorem first_truthy_legacy_entry_wins agentId before key entry after :
  truthy entry = true ->
  nonEmpty (normalize key agentId) = true ->
  Forall (fun kv => normalize kv.1 agentId = normalize key agentId -> truthy kv.2 = false)
    before ->
  normalizeLegacy agentId (before ++ (key, entry) :: after) ∅ !! normalize key agentId
  = if inheritedMember (normalize key agentId) then None else Some entry.
Proof.
  intros T Ne F. destruct (inheritedMember (normalize key agentId)) eqn:I.
  { by apply normalizeLegacy_inherited. }
  rewrite normalizeLegacy_app. cbn [normalizeLegacyStore].
  rewrite Ne. cbn [negb].
  rewrite (normalizeLegacy_still_open agentId before (normalize key agentId) ∅);
    [|by unfold jsget; rewrite lookup_empty, I|done].
  cbn [negb]. apply normalizeLegacy_sticky; [apply lookup_insert_eq | done].
Qed.

(** X13. Every entry of the store that is written has a [sessionId] that
    is a string and not empty, and an [updatedAt] that is a finite
    number. *)
Theorem written_entries_are_well_formed detected legacyParsed targetParsed r w key entry :
  migrate detected legacyParsed targetParsed = Returned r ->
  written r = Some w ->
  w !! key = Some entry ->
  sessionIdIsString entry = true /\
  truthy (getPropOpt entry "sessionId") = true /\
  updatedAtIsFinite entry = true.
Proof.
  intros H W E.
  rewrite (migrate_written normalizeAgentId buildAgentMainSessionKey clockAt
             _ _ _ _ _ H W key) in E.
  destruct (String.eqb key "__proto__"); [done|].
  unfold normalizedAt in E.
  destruct (_ !! key) as [e|]; [|done].
  destruct (normalizeSessionEntry (clockAt key) e) as [[e'|]|] eqn:N; try done.
  injection E as ->.
  apply normalizeSessionEntry_Some in N as (props & sid & -> & S & Ne & ->).
  unfold sessionIdIsString, updatedAtIsFinite, getPropOpt. cbn [getProp].
  rewrite lookup_insert_eq, lookup_insert_ne, S by done. cbn.
  split; [done|]. split; [done|].
  destruct (props !! "updatedAt") as [[| | |n| | |]|]; cbn; try done. by destruct n.
Qed.

Lemma normalizeMergedEntries_throws entries : forall acc key entry,
  (key, entry) ∈ entries -> entry = Null \/ entry = Undefined ->
  normalizeMergedEntries clockAt entries acc = Thrown.
Proof.
  induction entries as [|[k e] rest IH]; intros acc key entry In Bad;
    [by apply elem_of_nil in In|].
  cbn [normalizeMergedEntries].
  apply elem_of_cons in In as [[= <- <-]|In].
  - by destruct Bad as [-> | ->].
  - destruct (normalizeSessionEntry (clockAt k) e) as [[e'|]|]; [| |done];
      by eapply IH.
Qed.

Lemma normalizeSessionEntry_Thrown now entry :
  normalizeSessionEntry now entry = Thrown -> entry = Null \/ entry = Undefined.
Proof.
  unfold normalizeSessionEntry.
  destruct entry as [| |b|n|s|items|props]; cbn [getProp]; auto; intros E; exfalso;
    try done.
  destruct (default Undefined (props !! "sessionId")); try done.
  by destruct (negb (nonEmpty _)).
Qed.

Lemma normalizeMergedEntries_Thrown entries : forall acc,
  normalizeMergedEntries clockAt entries acc = Thrown ->
  exists key entry, (key, entry) ∈ entries /\ (entry = Null \/ entry = Undefined).
Proof.
  induction entries as [|[k e] rest IH]; intros acc H; [done|].
  cbn [normalizeMergedEntries] in H.
  destruct (normalizeSessionEntry (clockAt k) e) as [[e'|]|] eqn:E.
  - destruct (IH _ H) as (key & entry & In & Bad). exists key, entry.
    split; [by right | done].
  - destruct (IH _ H) as (key & entry & In & Bad). exists key, entry.
    split; [by right | done].
  - exists k, e. split; [by left|]. by eapply normalizeSessionEntry_Thrown.
Qed.

(** X14. The migration throws exactly when it comes to write the store
    (there is legacy content, the legacy store was readable, one of the
    two stores is not empty) and the merged store holds [null] under some
    key; otherwise it returns. *)
Theorem migrate_throws_iff_null_entry detected legacyParsed targetParsed :
  migrateLegacySessions normalizeAgentId buildAgentMainSessionKey clockAt
    detected legacyParsed targetParsed = Thrown
  <-> hasLegacy (sessions detected) = true /\ ok legacyParsed = true
      /\ (store legacyParsed <> [] \/ store targetParsed <> ∅)
      /\ exists key entry,
           (mergedSessions normalizeAgentId buildAgentMainSessionKey
              detected (store legacyParsed) (store targetParsed)).1 !! key
             = Some entry
           /\ (entry = Null \/ entry = Undefined).
Proof.
  unfold migrateLegacySessions. cbv zeta.
  destruct (hasLegacy (sessions detected)); cbn [negb]; [|split; [done|by intros [? _]]].
  destruct (mergedOf detected (store legacyParsed) (store targetParsed))
    as [merged changes1] eqn:M. cbn [fst].
  destruct (ok legacyParsed); cbn [andb negb]; [|split; [done|by intros (_ & ? & _)]].
  destruct ((0 <? length (store legacyParsed))%nat || (0 <? size (store targetParsed))%nat)
    eqn:Size.
  - assert (store legacyParsed <> [] \/ store targetParsed <> ∅) as NonEmpty.
    { apply orb_true_iff in Size as [L|S].
      - left. intros E. rewrite E in L. discriminate L.
      - right. intros E. rewrite E, map_size_empty in S. discriminate S. }
    destruct (normalizeMergedEntries clockAt (map_to_list merged) ∅) as [w|] eqn:N.
    + split; [done|]. intros (_ & _ & _ & key & entry & L & Bad). exfalso.
      apply elem_of_map_to_list in L.
      by rewrite (normalizeMergedEntries_throws _ ∅ key entry L Bad) in N.
    + split; [|done]. intros _. do 3 (split; [done|]).
      destruct (normalizeMergedEntries_Thrown _ _ N) as (key & entry & In & Bad).
      exists key, entry. split; [by apply elem_of_map_to_list | done].
  - split; [done|]. intros (_ & _ & [L|S] & _); exfalso.
    + apply orb_false_iff in Size as [Size _]. destruct (store legacyParsed); done.
    + apply orb_false_iff in Size as [_ Size]. apply S, map_size_empty_iff.
      destruct (size (store targetParsed)); done.
Qed.

End SessionsMigrationMore.

(** ** The gate: what a call leaves behind *)

Section AutoMigrateMore.

Variables Config FS : Type.
Variable detectLegacyStateMigrations :
  Config -> gmap string string -> FS -> LegacyStateDetection.
Variable migrateLegacySessionsOnDisk : LegacyStateDetection -> FS -> outcome MigrationLog * FS.
Variable migrateLegacyAgentDir : LegacyStateDetection -> FS -> outcome MigrationLog * FS.

Local Abbreviation auto :=
  (autoMigrateLegacyState Config FS detectLegacyStateMigrations
     migrateLegacySessionsOnDisk migrateLegacyAgentDir).

Local Ltac run_gate :=
  unfold autoMigrateLegacyState, record, onDisk;
  unfold bind, gets, modify, ret, setChecked;
  cbv beta iota zeta; cbn [autoMigrateChecked processEnv disk effects].

(** X15. A call is skipped only for one of the two reasons: the flag was
    already set, or an agent-dir override is set.  A skipped call reports
    nothing, and leaves the disk and the trace of effects as they were. *)
Theorem skipped_call_leaves_no_trace params (p p' : Process FS) r :
  auto params p = (Returned r, p') ->
  skipped r = true ->
  r = skippedResult /\ disk p' = disk p /\ effects p' = effects p /\
  (autoMigrateChecked p = true
   \/ envSet (default (processEnv p) (env params)) "CLAWDBOT_AGENT_DIR"
      || envSet (default (processEnv p) (env params)) "PI_CODING_AGENT_DIR" = true).
Proof.
  run_gate. destruct (autoMigrateChecked p) eqn:C.
  { intros [= <- <-] _. auto. }
  destruct (envSet _ _ || envSet _ _) eqn:O.
  { intros [= <- <-] _. auto. }
  match goal with |- context [negb (hasLegacy ?a) && ?b] => destruct (negb (hasLegacy a) && b) end.
  { by intros [= <- <-] S. }
  destruct (migrateLegacySessionsOnDisk _ _) as [[s|] d1]; [|done].
  cbn [disk effects autoMigrateChecked processEnv].
  destruct (migrateLegacyAgentDir _ _) as [[a|] d2]; [|done].
  destruct (0 <? length (changes s ++ changes a))%nat,
           (0 <? length (warnings s ++ warnings a))%nat;
    by intros [= <- <-] S.
Qed.

(** X16. The log mirrors the result.  A call that returns has extended
    the trace of effects by: the routines, each at most once and in the
    order detect, sessions, agent dir; one info line that lists every
    reported change exactly when [migrated] is set, which is exactly when
    there are changes; one warning line that lists every reported warning
    exactly when there are warnings. *)
Theorem log_mirrors_result params (p : Process FS) :
  match auto params p with
  | (Returned r, p') =>
      exists trace,
        effects p' = (effects p ++ trace)%list /\
        migrated r = (0 <? length (resultChanges r))%nat /\
        infoLines trace
        = (if migrated r
           then ["Auto-migrated legacy state:" ++ newline ++ bulletLines (resultChanges r)]
           else []) /\
        warnLines trace
        = (if (0 <? length (resultWarnings r))%nat
           then ["Legacy state migration warnings:" ++ newline
                 ++ bulletLines (resultWarnings r)]
           else []) /\
        (routinesRun trace = []
         \/ routinesRun trace = [RanDetect]
         \/ routinesRun trace = [RanDetect; RanMigrateSessions; RanMigrateAgentDir])
  | (Thrown, p') => True
  end.
Proof.
  run_gate. destruct (autoMigrateChecked p) eqn:C.
  { exists []. rewrite app_nil_r. cbn. repeat split; auto. }
  destruct (envSet _ _ || envSet _ _) eqn:O.
  { exists []. rewrite app_nil_r. cbn. repeat split; auto. }
  match goal with |- context [negb (hasLegacy ?a) && ?b] => destruct (negb (hasLegacy a) && b) end.
  { exists [RanDetect]. cbn. repeat split; auto. }
  destruct (migrateLegacySessionsOnDisk _ _) as [[s|] d1]; [|done].
  cbn [disk effects autoMigrateChecked processEnv].
  destruct (migrateLegacyAgentDir _ _) as [[a|] d2]; [|done].
  destruct (0 <? length (changes s ++ changes a))%nat eqn:Ch,
           (0 <? length (warnings s ++ warnings a))%nat eqn:Wa;
    cbn [migrated resultChanges resultWarnings effects]; rewrite ?Ch, ?Wa;
    rewrite <- ?app_assoc; eexists; (split; [reflexivity|]); cbn; repeat split; auto.
Qed.

(** X17. A migration that fails is not tried again.  When the sessions
    routine rejects, the call rejects; the agent-dir routine has not run
    and nothing has been logged; the flag stays set, so every later call
    in the process is skipped. *)
Theorem failed_migration_is_not_retried params (p : Process FS) diskAfter :
  let env := default (processEnv p) (env params) in
  let detected := detectLegacyStateMigrations (cfg params) env (disk p) in
  autoMigrateChecked p = false ->
  envSet env "CLAWDBOT_AGENT_DIR" || envSet env "PI_CODING_AGENT_DIR" = false ->
  hasLegacy (sessions detected) || areaHasLegacy (agentDir detected) = true ->
  migrateLegacySessionsOnDisk detected (disk p) = (Thrown, diskAfter) ->
  exists p',
    auto params p = (Thrown, p') /\
    disk p' = diskAfter /\
    effects p' = (effects p ++ [RanDetect; RanMigrateSessions])%list /\
    forall later, auto later p' = (Returned skippedResult, p').
Proof.
  intros env detected C O L T. subst detected env. eexists. split; [|split; [|split]].
  - run_gate. rewrite C, O. cbn [disk]. rewrite <- negb_orb, L. cbn [negb disk].
    rewrite T. reflexivity.
  - reflexivity.
  - cbn [effects]. by rewrite <- app_assoc.
  - intros later. unfold autoMigrateLegacyState, bind, gets. reflexivity.
Qed.

End AutoMigrateMore.

Lemma skipped_call_leaves_no_trace_witness :
  autoMigrateLegacyState unit (list string) sampleDetect sampleMigrateSessionsOnDisk
    sampleMigrateAgentDir plainCall checkedProcess
  = (Returned skippedResult, checkedProcess) /\
  skipped skippedResult = true /\
  skippedResult = skippedResult /\ disk checkedProcess = disk checkedProcess /\
  effects checkedProcess = effects checkedProcess /\
  (autoMigrateChecked checkedProcess = true
   \/ envSet (default (processEnv checkedProcess) (env plainCall)) "CLAWDBOT_AGENT_DIR"
      || envSet (default (processEnv checkedProcess) (env plainCall)) "PI_CODING_AGENT_DIR"
      = true).
Proof.
  split; [vm_compute; reflexivity|]. split; [reflexivity|].
  apply (skipped_call_leaves_no_trace unit (list string) sampleDetect
           sampleMigrateSessionsOnDisk sampleMigrateAgentDir plainCall);
    vm_compute; reflexivity.
Defined.

Lemma failed_migration_is_not_retried_witness :
  exists p',
    autoMigrateLegacyState unit (list string) sampleDetect failingMigrateSessionsOnDisk
      sampleMigrateAgentDir plainCall freshProcess = (Thrown, p') /\
    disk p' = disk freshProcess /\
    effects p' = (effects freshProcess ++ [RanDetect; RanMigrateSessions])%list /\
    forall later,
      autoMigrateLegacyState unit (list string) sampleDetect failingMigrateSessionsOnDisk
        sampleMigrateAgentDir later p' = (Returned skippedResult, p').
Proof.
  apply (failed_migration_is_not_retried unit (list string) sampleDetect
           failingMigrateSessionsOnDisk sampleMigrateAgentDir plainCall freshProcess);
    vm_compute; reflexivity.
Defined.

(** ** Session initialisation: what is stored and what is carried over *)

Section SessionMore.

Import Session.

Variable C : Collaborators.

Local Ltac init_done :=
  rewrite ?bind_ret, bind_modify; unfold ret;
  eexists _, _; split; [reflexivity|];
  cbn [resultSessionEntry resultSessionId isNewSession previousSessionEntry
       resultSessionStore resultSessionKey resultStorePath resultSystemSent
       resultAbortedLastRun bodyStripped stores];
  repeat match goal with
         | |- _ /\ _ => split
         | |- exists _, _ !! _ = Some _ => eexists; apply lookup_insert_eq
         | |- context [truthyString ?x] => destruct (truthyString x)
         | |- context [bool_decide ?P] => destruct (bool_decide P)
         end;
  try reflexivity.

(** The fields of the result and of the stores that do not depend on the
    fork. *)
Lemma init_outcome params w :
  exists r w',
    initSessionState C params w = (Returned r, w') /\
    resultSessionKey r = sessionKeyOf C params /\
    resultStorePath r = storePathOf C params /\
    previousSessionEntry r
    = (if bool_decide (is_Some (resetOf C params)) then storedEntry C params w else None) /\
    bodyStripped r = resetOf C params /\
    resultSessionStore r
    = <[sessionKeyOf C params :=
          spreadOver (storedEntry C params w) (resultSessionEntry r)]> (storeOf C params w) /\
    (exists onDisk,
        stores w' !! storePathOf C params
        = Some (<[sessionKeyOf C params :=
                    spreadOver (onDisk !! sessionKeyOf C params) (resultSessionEntry r)]>
                  onDisk)) /\
    systemSent (resultSessionEntry r) = Some (resultSystemSent r) /\
    abortedLastRun (resultSessionEntry r) = Some (resultAbortedLastRun r) /\
    match reusedEntry C params w with
    | Some e =>
        resultSystemSent r = default false (systemSent e) /\
        resultAbortedLastRun r = default false (abortedLastRun e) /\
        thinkingLevel (resultSessionEntry r) = thinkingLevel e /\
        verboseLevel (resultSessionEntry r) = verboseLevel e /\
        reasoningLevel (resultSessionEntry r) = reasoningLevel e /\
        modelOverride (resultSessionEntry r) = modelOverride e /\
        providerOverride (resultSessionEntry r) = providerOverride e /\
        compactionCount (resultSessionEntry r) = compactionCount e
    | None =>
        resultSystemSent r = false /\
        resultAbortedLastRun r = false /\
        thinkingLevel (resultSessionEntry r) = None /\
        verboseLevel (resultSessionEntry r) = None /\
        reasoningLevel (resultSessionEntry r) = None /\
        modelOverride (resultSessionEntry r) = None /\
        providerOverride (resultSessionEntry r) = None /\
        compactionCount (resultSessionEntry r) = Some 0
    end.
Proof.
  unfold initSessionState. cbv zeta.
  unfold loadSessionStore, updateSessionStore. rewrite bind_gets.
  fold (storeOf C params w). fold (storedEntry C params w).
  unfold reusedEntry. fold (idleMsOf C params).
  destruct (storedEntry C params w) as [e|] eqn:E.
  - rewrite bind_assoc, bind_Date_now, bind_ret.
    destruct (negb (bool_decide (is_Some (resetOf C params)))
              && num_le (Finite (nowOf w - updatedAt e)) (idleMsOf C params)) eqn:R.
    + rewrite bind_ret, bind_Date_now.
      destruct (truthyString (trim <$> ParentSessionKey (ctx params))) as [parentKey|];
        cbn [andb]; init_done.
    + rewrite bind_randomUUID, bind_Date_now.
      destruct (truthyString (trim <$> ParentSessionKey (ctx params))) as [parentKey|];
        cbn [andb]; [|init_done].
      destruct (negb (String.eqb parentKey (sessionKeyOf C params))); [|init_done].
      destruct (storeOf C params w !! parentKey) as [parentEntry|]; [|init_done].
      destruct (fork_returns C parentEntry (tick (draw (tick w)))) as (f & w2 & F).
      rewrite (bind_returned _ _ _ _ _ F).
      destruct f; init_done.
  - rewrite bind_ret. rewrite andb_false_r.
    rewrite bind_randomUUID, bind_Date_now.
    destruct (truthyString (trim <$> ParentSessionKey (ctx params))) as [parentKey|];
      cbn [andb]; [|init_done].
    destruct (negb (String.eqb parentKey (sessionKeyOf C params))); [|init_done].
    destruct (storeOf C params w !! parentKey) as [parentEntry|]; [|init_done].
    destruct (fork_returns C parentEntry (tick (draw w))) as (f & w2 & F).
    rewrite (bind_returned _ _ _ _ _ F).
    destruct f; init_done.
Qed.

Lemma reusedEntry_Some params w e :
  reusedEntry C params w = Some e ->
  storedEntry C params w = Some e /\ resetOf C params = None
  /\ num_le (Finite (nowOf w - updatedAt e)) (idleMsOf C params) = true.
Proof.
  unfold reusedEntry. destruct (storedEntry C params w) as [e'|]; [|done].
  destruct (bool_decide (is_Some (resetOf C params))) eqn:R; [done|]. cbn [negb andb].
  destruct (num_le (Finite (nowOf w - updatedAt e')) (idleMsOf C params)) eqn:F; [|done].
  intros [= ->]. split; [done|]. split; [|done].
  apply bool_decide_eq_false in R. destruct (resetOf C params); [|done].
  exfalso. apply R. by eexists.
Qed.

(** What one call comes to, with the result and the world it returns. *)
Lemma init_returned_outcome params w r w' :
  initSessionState C params w = (Returned r, w') ->
  (sessionId (resultSessionEntry r) = resultSessionId r /\
   is_Some (sessionFile (resultSessionEntry r)) /\
   match reusedEntry C params w with
   | Some e => isNewSession r = false /\ resultSessionId r = sessionId e
   | None => isNewSession r = true
   end) /\
  resultSessionKey r = sessionKeyOf C params /\
  resultStorePath r = storePathOf C params /\
  previousSessionEntry r
  = (if bool_decide (is_Some (resetOf C params)) then storedEntry C params w else None) /\
  bodyStripped r = resetOf C params /\
  resultSessionStore r
  = <[sessionKeyOf C params :=
        spreadOver (storedEntry C params w) (resultSessionEntry r)]> (storeOf C params w) /\
  (exists onDisk,
      stores w' !! storePathOf C params
      = Some (<[sessionKeyOf C params :=
                  spreadOver (onDisk !! sessionKeyOf C params) (resultSessionEntry r)]>
                onDisk)) /\
  systemSent (resultSessionEntry r) = Some (resultSystemSent r) /\
  abortedLastRun (resultSessionEntry r) = Some (resultAbortedLastRun r) /\
  match reusedEntry C params w with
  | Some e =>
      resultSystemSent r = default false (systemSent e) /\
      resultAbortedLastRun r = default false (abortedLastRun e) /\
      thinkingLevel (resultSessionEntry r) = thinkingLevel e /\
      verboseLevel (resultSessionEntry r) = verboseLevel e /\
      reasoningLevel (resultSessionEntry r) = reasoningLevel e /\
      modelOverride (resultSessionEntry r) = modelOverride e /\
      providerOverride (resultSessionEntry r) = providerOverride e /\
      compactionCount (resultSessionEntry r) = compactionCount e
  | None =>
      resultSystemSent r = false /\
      resultAbortedLastRun r = false /\
      thinkingLevel (resultSessionEntry r) = None /\
      verboseLevel (resultSessionEntry r) = None /\
      reasoningLevel (resultSessionEntry r) = None /\
      modelOverride (resultSessionEntry r) = None /\
      providerOverride (resultSessionEntry r) = None /\
      compactionCount (resultSessionEntry r) = Some 0
  end.
Proof.
  intros H. split.
  - destruct (init_run C params w) as (r1 & w1 & H1 & Sid & File & D).
    rewrite H in H1. injection H1 as <- <-. split; [done|]. split; [done|].
    destruct (reusedEntry C params w); [done|]. by destruct D.
  - destruct (init_outcome params w) as (r1 & w1 & H1 & Rest).
    rewrite H in H1. by injection H1 as <- <-.
Qed.

Lemma spreadOver_entry old entry :
  is_Some (sessionFile entry) ->
  sessionId (spreadOver old entry) = sessionId entry /\
  updatedAt (spreadOver old entry) = updatedAt entry /\
  sessionFile (spreadOver old entry) = sessionFile entry /\
  thinkingLevel (spreadOver old entry) = thinkingLevel entry /\
  verboseLevel (spreadOver old entry) = verboseLevel entry /\
  reasoningLevel (spreadOver old entry) = reasoningLevel entry /\
  modelOverride (spreadOver old entry) = modelOverride entry /\
  providerOverride (spreadOver old entry) = providerOverride entry /\
  systemSent (spreadOver old entry) = systemSent entry /\
  abortedLastRun (spreadOver old entry) = abortedLastRun entry /\
  (forall n, compactionCount entry = Some n ->
             compactionCount (spreadOver old entry) = Some n).
Proof.
  intros [f F]. unfold spreadOver. cbn. rewrite F. repeat split; try done.
  by intros n ->.
Qed.

(** X18. The session a call returns is the session it stores.  Under the
    session key, both the store returned and the store left on disk hold
    an entry with the session id returned, the time of the call and the
    transcript file of the entry returned; the other keys of the store
    returned are as they were loaded. *)
Theorem session_is_persisted params w r w' :
  initSessionState C params w = (Returned r, w') ->
  (exists inMemory onDisk,
      resultSessionStore r !! resultSessionKey r = Some inMemory /\
      stores w' !! resultStorePath r ≫= (.!! resultSessionKey r) = Some onDisk /\
      Forall (fun stored =>
                sessionId stored = resultSessionId r /\
                updatedAt stored = updatedAt (resultSessionEntry r) /\
                is_Some (sessionFile stored) /\
                sessionFile stored = sessionFile (resultSessionEntry r))
        [inMemory; onDisk]) /\
  forall key, key <> resultSessionKey r ->
              resultSessionStore r !! key = storeOf C params w !! key.
Proof.
  intros H.
  destruct (init_returned_outcome params w r w' H)
    as ((Sid & File & _) & -> & -> & _ & _ & -> & (disk0 & D) & _).
  split.
  - eexists _, _. rewrite D. cbn. rewrite !lookup_insert_eq.
    split; [done|]. split; [done|].
    apply Forall_cons. split.
    { destruct (spreadOver_entry (storedEntry C params w) _ File) as (-> & -> & -> & _).
      by rewrite Sid. }
    apply Forall_cons. split; [|constructor].
    destruct (spreadOver_entry (disk0 !! sessionKeyOf C params) _ File)
      as (-> & -> & -> & _).
    by rewrite Sid.
  - intros key Ne. by rewrite lookup_insert_ne.
Qed.

(** X19. The next message continues the session.  After a call has
    returned, a call for the same store and session key that triggers no
    reset, made within the idle window of the first, returns the same
    session id and [isNewSession = false]. *)
Theorem next_message_continues_session params w r w' next :
  initSessionState C params w = (Returned r, w') ->
  storePathOf C next = storePathOf C params ->
  sessionKeyOf C next = sessionKeyOf C params ->
  resetOf C next = None ->
  num_le (Finite (nowOf w' - updatedAt (resultSessionEntry r))) (idleMsOf C next) = true ->
  exists r2 w2,
    initSessionState C next w' = (Returned r2, w2) /\
    resultSessionId r2 = resultSessionId r /\
    isNewSession r2 = false.
Proof.
  intros H Sp Sk R F.
  destruct (init_returned_outcome params w r w' H)
    as ((Sid & File & _) & _ & _ & _ & _ & _ & (disk0 & D) & _).
  destruct (spreadOver_entry (disk0 !! sessionKeyOf C params) _ File) as (Id & Up & _).
  rewrite <- Sid, <- Id. rewrite <- Up in F.
  apply init_reuse, reused_when_fresh; [|done|done].
  unfold storedEntry, storeOf. rewrite Sp, Sk, D. cbn. apply lookup_insert_eq.
Qed.

(** X20. A new session starts clean.  When [isNewSession] is returned,
    [systemSent] and [abortedLastRun] are false, the compaction count is
    0 and no thinking, verbose, reasoning, model or provider setting is
    carried, in the entry returned and in the entry left on disk, whatever
    the entry stored before held. *)
Theorem new_session_starts_clean params w r w' :
  initSessionState C params w = (Returned r, w') ->
  isNewSession r = true ->
  resultSystemSent r = false /\ resultAbortedLastRun r = false /\
  exists onDisk,
    stores w' !! resultStorePath r ≫= (.!! resultSessionKey r) = Some onDisk /\
    Forall (fun entry =>
              systemSent entry = Some false /\
              abortedLastRun entry = Some false /\
              compactionCount entry = Some 0 /\
              thinkingLevel entry = None /\ verboseLevel entry = None /\
              reasoningLevel entry = None /\
              modelOverride entry = None /\ providerOverride entry = None)
      [resultSessionEntry r; onDisk].
Proof.
  intros H New.
  destruct (init_returned_outcome params w r w' H)
    as ((_ & File & D1) & -> & -> & _ & _ & _ & (disk0 & D) & Sys & Ab & D2).
  destruct (reusedEntry C params w) as [e|]; [destruct D1; congruence|].
  destruct D2 as (S0 & A0 & T & V & Re & Mo & Pr & Cc).
  split; [done|]. split; [done|]. eexists. rewrite D. cbn. rewrite lookup_insert_eq.
  split; [done|].
  apply Forall_cons. split; [by rewrite Sys, Ab, S0, A0, T, V, Re, Mo, Pr, Cc|].
  apply Forall_cons. split; [|constructor].
  destruct (spreadOver_entry (disk0 !! sessionKeyOf C params) _ File)
    as (_ & _ & _ & -> & -> & -> & -> & -> & -> & -> & Cc').
  by rewrite (Cc' _ Cc), Sys, Ab, S0, A0, T, V, Re, Mo, Pr.
Qed.

(** X21. A session is continued only when it is fresh.  When
    [isNewSession = false] is returned there was an entry under the
    session key, no reset was triggered, and the entry was updated within
    the idle window; the result carries the entry's id, its settings and
    its compaction count. *)
Theorem session_reused_only_when_fresh params w r w' :
  initSessionState C params w = (Returned r, w') ->
  isNewSession r = false ->
  exists entry,
    storedEntry C params w = Some entry /\
    resetOf C params = None /\
    num_le (Finite (nowOf w - updatedAt entry)) (idleMsOf C params) = true /\
    resultSessionId r = sessionId entry /\
    resultSystemSent r = default false (systemSent entry) /\
    resultAbortedLastRun r = default false (abortedLastRun entry) /\
    thinkingLevel (resultSessionEntry r) = thinkingLevel entry /\
    verboseLevel (resultSessionEntry r) = verboseLevel entry /\
    reasoningLevel (resultSessionEntry r) = reasoningLevel entry /\
    modelOverride (resultSessionEntry r) = modelOverride entry /\
    providerOverride (resultSessionEntry r) = providerOverride entry /\
    compactionCount (resultSessionEntry r) = compactionCount entry.
Proof.
  intros H Old.
  destruct (init_returned_outcome params w r w' H)
    as ((_ & _ & D1) & _ & _ & _ & _ & _ & _ & _ & _ & D2).
  destruct (reusedEntry C params w) as [e|] eqn:Re; [|congruence].
  destruct D1 as [_ Id]. destruct (reusedEntry_Some _ _ _ Re) as (E & R & F).
  exists e. by repeat (split; [done|]).
Qed.

(** X22. The previous entry is reported only on a reset.  When
    [previousSessionEntry] is set it is the entry that was stored under
    the session key, the session is new and [bodyStripped] is set; and
    [bodyStripped] is set only for a sender authorised to reset. *)
Theorem previous_entry_only_on_reset params w r w' :
  initSessionState C params w = (Returned r, w') ->
  (forall entry,
      previousSessionEntry r = Some entry ->
      storedEntry C params w = Some entry /\ isNewSession r = true
      /\ is_Some (bodyStripped r)) /\
  (is_Some (bodyStripped r) ->
   isNewSession r = true /\ previousSessionEntry r = storedEntry C params w
   /\ resetAuthorizedOf C params = true).
Proof.
  intros H.
  destruct (init_returned_outcome params w r w' H)
    as ((_ & _ & D1) & _ & _ & -> & -> & _).
  assert (is_Some (resetOf C params) -> isNewSession r = true) as New.
  { intros R. by rewrite (not_reused_when_reset C params w R) in D1. }
  split.
  - intros entry. destruct (bool_decide (is_Some (resetOf C params))) eqn:R; [|done].
    apply bool_decide_eq_true in R. auto.
  - intros R. rewrite bool_decide_eq_true_2 by done. split; [auto|]. split; [done|].
    unfold resetOf in R. destruct (resetAuthorizedOf C params); [done|].
    rewrite scan_unauthorized in R. by destruct R.
Qed.

End SessionMore.

(** X23. A reset is triggered exactly when the sender is authorised and
    the message matches a trigger that is not empty; the body that
    remains then has no leading white space. *)
Theorem reset_needs_authorized_match triggers authorized trimmedBody strippedForReset :
  (is_Some (Session.scanResetTriggers triggers authorized trimmedBody strippedForReset)
   <-> authorized = true
       /\ exists trigger,
            trigger ∈ triggers /\ trigger <> ""
            /\ matchesTrigger trimmedBody strippedForReset trigger) /\
  forall body,
    Session.scanResetTriggers triggers authorized trimmedBody strippedForReset = Some body ->
    noLead body.
Proof.
  split; [split|].
  - intros R. destruct authorized; [|rewrite scan_unauthorized in R; by destruct R].
    split; [done|]. induction triggers as [|t ts IH]; [by destruct R|].
    cbn [Session.scanResetTriggers negb] in R.
    assert (is_Some (Session.scanResetTriggers ts true trimmedBody strippedForReset) ->
            exists trigger, trigger ∈ t :: ts /\ trigger <> ""
                            /\ matchesTrigger trimmedBody strippedForReset trigger) as Later.
    { intros R'. destruct (IH R') as (trigger & In & Ne & Hm). exists trigger.
      split; [by right | done]. }
    destruct (nonEmpty t) eqn:Nt; cbn [negb] in R; [|auto].
    assert (t <> "") as Ne by (by destruct t).
    destruct (String.eqb trimmedBody t) eqn:E1.
    { apply String.eqb_eq in E1. exists t. split; [by left|]. split; [done|]. by left. }
    destruct (String.eqb strippedForReset t) eqn:E2.
    { apply String.eqb_eq in E2. exists t. split; [by left|]. split; [done|].
      right. by left. }
    cbn [orb] in R.
    destruct (startsWith trimmedBody (t ++ " ")) eqn:P1.
    { exists t. split; [by left|]. split; [done|]. right; right. by left. }
    destruct (startsWith strippedForReset (t ++ " ")) eqn:P2.
    { exists t. split; [by left|]. split; [done|]. right; right. by right. }
    cbn [orb] in R. auto.
  - intros (-> & trigger & In & Ne & Hm). by eapply scan_match.
  - induction triggers as [|t ts IH]; intros body; [done|].
    cbn [Session.scanResetTriggers].
    destruct (negb (nonEmpty t)); [apply IH|].
    destruct (negb authorized); [done|].
    destruct (String.eqb trimmedBody t || String.eqb strippedForReset t);
      [by intros [= <-]|].
    destruct (startsWith trimmedBody (t ++ " ") || startsWith strippedForReset (t ++ " "));
      [|apply IH].
    intros [= <-]. apply trimStart_noLead.
Qed.

(** ** The forker's own transcript *)

Section ForkerMore.

Import Session.

Variable C : Collaborators.

(** X24. When the parent's transcript exists and the manager opened on it
    has no leaf to branch from, the forker makes the transcript itself:
    the id is the UUID drawn, the file lies in the manager's session
    directory under the time stamp (with [:] and [.] replaced by [-]) and
    the id, and it holds one header line that names the parent's
    transcript.  When that file cannot be written the fork is [null] and
    no file has changed. *)
Theorem fork_fallback_writes_header parentEntry w file manager w1 :
  truthyString (resolveSessionFilePath C (sessionId parentEntry) parentEntry) = Some file ->
  is_Some (files w !! file) ->
  SessionManager_open C file w = (Returned manager, w1) ->
  truthyString (getLeafId manager) = None ->
  let id := uuidOf w1 in
  let timestamp := toISOString C (nowOf w1) in
  let target :=
    path_join C (getSessionDir manager)
      (replaceColonDot timestamp ++ "_" ++ id ++ ".jsonl") in
  let header :=
    {| headerVersion := CURRENT_SESSION_VERSION C; headerId := id;
       headerTimestamp := timestamp; headerCwd := getCwd manager;
       headerParentSession := file |} in
  exists w2,
    forkSessionFromParent C parentEntry w
    = (Returned (if writable w1 target
                 then Some {| forkedSessionId := id; forkedSessionFile := target |}
                 else None), w2) /\
    files w2
    = (if writable w1 target
       then <[target := JSON_stringify C header ++ newline]> (files w1)
       else files w1).
Proof.
  intros F E Open Leaf id timestamp target header.
  unfold forkSessionFromParent. rewrite F. unfold existsSync. rewrite bind_gets.
  rewrite bool_decide_eq_true_2 by done. cbn [negb].
  unfold tryCatch, forkFromFile. rewrite (bind_returned _ _ _ _ _ Open), Leaf.
  rewrite bind_ret. cbn [fst snd]. rewrite bind_randomUUID, bind_Date_now.
  unfold bind, writeFileSync.
  change (writable (tick (draw w1))) with (writable w1).
  change (nowOf (draw w1)) with (nowOf w1).
  fold id. fold timestamp. fold target. fold header.
  destruct (writable w1 target); eexists; (split; [reflexivity|]); reflexivity.
Qed.

End ForkerMore.

Lemma fork_fallback_writes_header_witness :
  exists w2,
    Session.forkSessionFromParent openingCollaborators (sampleSessionEntry "parent-id" 1)
      transcriptWorld
    = (Returned
         (Some {| Session.forkedSessionId := "uuid-0";
                  Session.forkedSessionFile :=
                    "/state/agents/main/2026-01-01T00-00-00-000Z_uuid-0.jsonl" |}), w2) /\
    Session.files w2
    = <["/state/agents/main/2026-01-01T00-00-00-000Z_uuid-0.jsonl" :=
          "{parentSession:/state/agents/main/parent-id.jsonl}" ++ newline]>
        (Session.files transcriptWorld).
Proof.
  apply (fork_fallback_writes_header openingCollaborators (sampleSessionEntry "parent-id" 1)
           transcriptWorld "/state/agents/main/parent-id.jsonl"
           {| Session.getLeafId := None;
              Session.getSessionFile := Some "/state/agents/main/parent-id.jsonl";
              Session.getSessionId := "parent-id";
              Session.getSessionDir := "/state/agents/main"; Session.getCwd := "/work" |}
           transcriptWorld).
  - vm_compute; reflexivity.
  - vm_compute. by eexists.
  - reflexivity.
  - reflexivity.
Defined.

(** ** The further session properties on the sample world *)

Lemma session_is_persisted_witness :
  exists r w',
    Session.initSessionState sampleCollaborators (mainMessage "hello" false) sampleWorld
    = (Returned r, w') /\
    (exists inMemory onDisk,
        Session.resultSessionStore r !! Session.resultSessionKey r = Some inMemory /\
        Session.stores w' !! Session.resultStorePath r ≫= (.!! Session.resultSessionKey r)
        = Some onDisk /\
        Forall (fun stored =>
                  Session.sessionId stored = Session.resultSessionId r /\
                  Session.updatedAt stored
                  = Session.updatedAt (Session.resultSessionEntry r) /\
                  is_Some (Session.sessionFile stored) /\
                  Session.sessionFile stored
                  = Session.sessionFile (Session.resultSessionEntry r))
          [inMemory; onDisk]) /\
    forall key, key <> Session.resultSessionKey r ->
                Session.resultSessionStore r !! key
                = storeOf sampleCollaborators (mainMessage "hello" false) sampleWorld !! key.
Proof.
  eexists _, _. split; [vm_compute; reflexivity|].
  eapply (session_is_persisted sampleCollaborators (mainMessage "hello" false) sampleWorld).
  vm_compute; reflexivity.
Defined.

Lemma next_message_continues_session_witness :
  exists r w',
    Session.initSessionState sampleCollaborators (mainMessage "hello" false) staleWorld
    = (Returned r, w') /\
    exists r2 w2,
      Session.initSessionState sampleCollaborators (mainMessage "again" false) w'
      = (Returned r2, w2) /\
      Session.resultSessionId r2 = Session.resultSessionId r /\
      Session.isNewSession r2 = false.
Proof.
  eexists _, _. split; [vm_compute; reflexivity|].
  eapply (next_message_continues_session sampleCollaborators (mainMessage "hello" false)
            staleWorld _ _ (mainMessage "again" false)).
  - vm_compute; reflexivity.
  - reflexivity.
  - reflexivity.
  - vm_compute; reflexivity.
  - vm_compute; reflexivity.
Defined.

Lemma new_session_starts_clean_witness :
  exists r w',
    Session.initSessionState sampleCollaborators (mainMessage "hello" false) staleWorld
    = (Returned r, w') /\
    Session.isNewSession r = true /\
    Session.resultSystemSent r = false /\ Session.resultAbortedLastRun r = false /\
    exists onDisk,
      Session.stores w' !! Session.resultStorePath r ≫= (.!! Session.resultSessionKey r)
      = Some onDisk /\
      Forall (fun entry =>
                Session.systemSent entry = Some false /\
                Session.abortedLastRun entry = Some false /\
                Session.compactionCount entry = Some 0 /\
                Session.thinkingLevel entry = None /\ Session.verboseLevel entry = None /\
                Session.reasoningLevel entry = None /\
                Session.modelOverride entry = None /\ Session.providerOverride entry = None)
        [Session.resultSessionEntry r; onDisk].
Proof.
  eexists _, _. split; [vm_compute; reflexivity|]. split; [reflexivity|].
  eapply (new_session_starts_clean sampleCollaborators (mainMessage "hello" false) staleWorld).
  - vm_compute; reflexivity.
  - reflexivity.
Defined.

Lemma session_reused_only_when_fresh_witness :
  exists r w',
    Session.initSessionState sampleCollaborators (mainMessage "hello" false) sampleWorld
    = (Returned r, w') /\
    Session.isNewSession r = false /\
    exists entry,
      storedEntry sampleCollaborators (mainMessage "hello" false) sampleWorld = Some entry /\
      Session.resetOf sampleCollaborators (mainMessage "hello" false) = None /\
      num_le (Finite (nowOf sampleWorld - Session.updatedAt entry))
        (idleMsOf sampleCollaborators (mainMessage "hello" false)) = true /\
      Session.resultSessionId r = Session.sessionId entry /\
      Session.resultSystemSent r = default false (Session.systemSent entry) /\
      Session.resultAbortedLastRun r = default false (Session.abortedLastRun entry) /\
      Session.thinkingLevel (Session.resultSessionEntry r) = Session.thinkingLevel entry /\
      Session.verboseLevel (Session.resultSessionEntry r) = Session.verboseLevel entry /\
      Session.reasoningLevel (Session.resultSessionEntry r) = Session.reasoningLevel entry /\
      Session.modelOverride (Session.resultSessionEntry r) = Session.modelOverride entry /\
      Session.providerOverride (Session.resultSessionEntry r)
      = Session.providerOverride entry /\
      Session.compactionCount (Session.resultSessionEntry r)
      = Session.compactionCount entry.
Proof.
  eexists _, _. split; [vm_compute; reflexivity|]. split; [reflexivity|].
  eapply (session_reused_only_when_fresh sampleCollaborators (mainMessage "hello" false)
           sampleWorld).
  - vm_compute; reflexivity.
  - reflexivity.
Defined.

Lemma previous_entry_only_on_reset_witness :
  exists r w',
    Session.initSessionState sampleCollaborators (mainMessage "/new hello" true) sampleWorld
    = (Returned r, w') /\
    (forall entry,
        Session.previousSessionEntry r = Some entry ->
        storedEntry sampleCollaborators (mainMessage "/new hello" true) sampleWorld
        = Some entry
        /\ Session.isNewSession r = true /\ is_Some (Session.bodyStripped r)) /\
    (is_Some (Session.bodyStripped r) ->
     Session.isNewSession r = true
     /\ Session.previousSessionEntry r
        = storedEntry sampleCollaborators (mainMessage "/new hello" true) sampleWorld
     /\ Session.resetAuthorizedOf sampleCollaborators (mainMessage "/new hello" true) = true).
Proof.
  eexists _, _. split; [vm_compute; reflexivity|].
  eapply (previous_entry_only_on_reset sampleCollaborators (mainMessage "/new hello" true)
           sampleWorld).
  vm_compute; reflexivity.
Defined.

(** ** The further properties on the sample stores *)

Lemma normalize_rewritten_is_canonical_witness :
  isRewriteRule (keyRule "group:12345@g.us") = true /\
  startsWith (normalizeSessionKeyForAgent sampleNormalizeAgentId "group:12345@g.us" "default")
    "agent:" = true /\
  isLegacyGroupKey
    (normalizeSessionKeyForAgent sampleNormalizeAgentId "group:12345@g.us" "default") = false /\
  keyRule (normalizeSessionKeyForAgent sampleNormalizeAgentId "group:12345@g.us" "default")
  = RuleAgent.
Proof.
  split; [reflexivity|].
  apply (normalize_rewritten_is_canonical sampleNormalizeAgentId "group:12345@g.us" "default").
  reflexivity.
Defined.

Lemma normalize_group_key_is_surface_witness :
  isGroupRule (keyRule "12345-678@g.us") = true /\
  isSurfaceGroupKey
    (normalizeSessionKeyForAgent sampleNormalizeAgentId "12345-678@g.us" "default") = true.
Proof.
  split; [reflexivity|].
  apply (normalize_group_key_is_surface sampleNormalizeAgentId "12345-678@g.us" "default").
  reflexivity.
Defined.

Lemma pick_latest_returns_newest_direct_entry_witness :
  pickLatestLegacyDirectEntry legacyGlobalStore = Some (entryOf "s1" 10) /\
  (exists key, (key, entryOf "s1" 10) ∈ legacyGlobalStore
               /\ isObjectEntry (entryOf "s1" 10) = true /\ isDirectKey key = true) /\
  forall key' entry', (key', entry') ∈ legacyGlobalStore -> eligible (key', entry') = true ->
    num_gt (updatedAtOf entry') (updatedAtOf (entryOf "s1" 10)) = false.
Proof.
  split; [vm_compute; reflexivity|].
  apply (pick_latest_returns_newest_direct_entry legacyGlobalStore (entryOf "s1" 10)).
  vm_compute; reflexivity.
Defined.

Lemma normalized_entry_differs_only_in_updatedAt_witness :
  exists entry',
    normalizeSessionEntry 1700000000000
      (Obj (<["updatedAt" := Num NaN]> {["sessionId" := Str "s3"]}))
    = Returned (Some entry') /\
    sessionIdIsString entry' = true /\ truthy (getPropOpt entry' "sessionId") = true /\
    updatedAtIsFinite entry' = true /\
    (updatedAtIsFinite (Obj (<["updatedAt" := Num NaN]> {["sessionId" := Str "s3"]})) = true ->
     entry' = Obj (<["updatedAt" := Num NaN]> {["sessionId" := Str "s3"]})) /\
    (forall name, name <> "updatedAt" ->
                  getPropOpt entry' name
                  = getPropOpt (Obj (<["updatedAt" := Num NaN]> {["sessionId" := Str "s3"]}))
                      name).
Proof.
  eexists. split; [vm_compute; reflexivity|].
  apply (normalized_entry_differs_only_in_updatedAt 1700000000000
           (Obj (<["updatedAt" := Num NaN]> {["sessionId" := Str "s3"]}))).
  vm_compute; reflexivity.
Defined.

Lemma normalizeSessionEntry_idempotent_witness :
  exists entry',
    normalizeSessionEntry 1700000000000
      (Obj (<["updatedAt" := Num NaN]> {["sessionId" := Str "s3"]}))
    = Returned (Some entry') /\
    normalizeSessionEntry 1800000000000 entry' = Returned (Some entry').
Proof.
  eexists. split; [vm_compute; reflexivity|].
  apply (normalizeSessionEntry_idempotent 1700000000000 1800000000000
           (Obj (<["updatedAt" := Num NaN]> {["sessionId" := Str "s3"]}))).
  vm_compute; reflexivity.
Defined.

Lemma merged_gap_is_filled_from_legacy_witness :
  (∅ : gmap string value) !! "userA" = None /\
  "userA" <> sampleBuildAgentMainSessionKey (targetAgentId sampleDetection)
               (targetMainKey sampleDetection) /\
  (mergedSessions sampleNormalizeAgentId sampleBuildAgentMainSessionKey sampleDetection
     legacyDirectStore ∅).1 !! "userA"
  = normalizeLegacyStore sampleNormalizeAgentId (targetAgentId sampleDetection)
      legacyDirectStore ∅ !! "userA".
Proof.
  split; [reflexivity|]. split; [vm_compute; discriminate|].
  apply (merged_gap_is_filled_from_legacy sampleNormalizeAgentId
           sampleBuildAgentMainSessionKey sampleDetection legacyDirectStore ∅ "userA").
  - reflexivity.
  - vm_compute; discriminate.
Defined.

Lemma normalized_legacy_store_is_canonical_witness :
  normalizeLegacyStore sampleNormalizeAgentId "default" legacyGroupStore ∅
    !! "agent:default:whatsapp:group:12345@g.us"
  = Some (entryOf "legacy-group" 20) /\
  nonEmpty "agent:default:whatsapp:group:12345@g.us" = true /\
  normalizeSessionKeyForAgent sampleNormalizeAgentId
    "agent:default:whatsapp:group:12345@g.us" "default"
  = "agent:default:whatsapp:group:12345@g.us" /\
  exists legacyKey,
    (legacyKey, entryOf "legacy-group" 20) ∈ legacyGroupStore /\
    normalizeSessionKeyForAgent sampleNormalizeAgentId legacyKey "default"
    = "agent:default:whatsapp:group:12345@g.us".
Proof.
  split; [vm_compute; reflexivity|].
  apply (normalized_legacy_store_is_canonical sampleNormalizeAgentId "default"
           legacyGroupStore "agent:default:whatsapp:group:12345@g.us"
           (entryOf "legacy-group" 20)).
  vm_compute; reflexivity.
Defined.

Lemma first_truthy_legacy_entry_wins_witness :
  normalizeLegacyStore sampleNormalizeAgentId "default" legacyCollidingStore ∅
    !! normalizeSessionKeyForAgent sampleNormalizeAgentId "group:12345@g.us" "default"
  = Some (entryOf "first" 20).
Proof.
  change (Some (entryOf "first" 20))
    with (if inheritedMember
               (normalizeSessionKeyForAgent sampleNormalizeAgentId "group:12345@g.us"
                  "default")
          then None else Some (entryOf "first" 20)).
  apply (first_truthy_legacy_entry_wins sampleNormalizeAgentId "default"
           [("userA", entryOf "s1" 10); ("group:12345@g.us", Null)]
           "group:12345@g.us" (entryOf "first" 20)
           [("whatsapp:group:12345@g.us", entryOf "second" 30)]).
  - reflexivity.
  - reflexivity.
  - apply Forall_cons. split; [intros H; vm_compute in H; discriminate H|].
    apply Forall_cons. split; [intros _; reflexivity|]. constructor.
Defined.

Lemma written_entries_are_well_formed_witness :
  exists r w entry,
    migrateLegacySessions sampleNormalizeAgentId sampleBuildAgentMainSessionKey
      sampleClockAt sampleDetection
      {| store := legacyRaggedStore; ok := true |} {| store := ∅; ok := true |}
    = Returned r /\
    written r = Some w /\
    w !! "userC" = Some entry /\
    sessionIdIsString entry = true /\
    truthy (getPropOpt entry "sessionId") = true /\
    updatedAtIsFinite entry = true.
Proof.
  eexists _, _, _. split; [vm_compute; reflexivity|]. split; [reflexivity|].
  split; [vm_compute; reflexivity|].
  eapply (written_entries_are_well_formed sampleNormalizeAgentId
            sampleBuildAgentMainSessionKey sampleClockAt sampleDetection
            {| store := legacyRaggedStore; ok := true |} {| store := ∅; ok := true |}
            _ _ "userC").
  - vm_compute; reflexivity.
  - reflexivity.
  - vm_compute; reflexivity.
Defined.

(* ===================================================================== *)
(** * The Zalo Personal monitor *)
(* ===================================================================== *)

(** ** Who may send *)

Lemma lowerChar_idempotent c : lowerChar (lowerChar c) = lowerChar c.
Proof. by destruct c as [[] [] [] [] [] [] [] []]. Qed.

Lemma toLowerCase_idempotent s : toLowerCase (toLowerCase s) = toLowerCase s.
Proof.
  induction s as [|c s IH]; [done|]. cbn [toLowerCase]. by rewrite lowerChar_idempotent, IH.
Qed.

Lemma length_append (s t : string) :
  String.length (s ++ t) = (String.length s + String.length t)%nat.
Proof.
  induction s as [|c s IH]; [done|].
  change (S (String.length (s ++ t)) = S (String.length s + String.length t)%nat).
  by rewrite IH.
Qed.

Lemma append_assoc (s t u : string) : (s ++ t) ++ u = s ++ (t ++ u).
Proof.
  induction s as [|c s IH]; [done|].
  change (String c ((s ++ t) ++ u) = String c (s ++ (t ++ u))). by rewrite IH.
Qed.

Lemma slice_prefix p rest : slice (p ++ rest) (String.length p) = rest.
Proof.
  induction p as [|c p IH]; [by destruct rest|].
  change (slice (p ++ rest) (String.length p) = rest). exact IH.
Qed.

Lemma prefixed_differs p rest : p <> "" -> String.eqb rest (p ++ rest) = false.
Proof.
  intros Ne. apply String.eqb_neq. intros E.
  apply (f_equal String.length) in E. rewrite length_append in E.
  destruct p; [done|]. cbn in E. lia.
Qed.

(** X25. A sender is allowed by a list put together from two lists
    exactly when one of the two allows it: what the configuration allows
    stays allowed whatever the pairing store adds. *)
Theorem sender_allowed_by_either_list senderId configAllowFrom storeAllowFrom :
  Zalouser.isSenderAllowed senderId (configAllowFrom ++ storeAllowFrom)
  = Zalouser.isSenderAllowed senderId configAllowFrom
    || Zalouser.isSenderAllowed senderId storeAllowFrom.
Proof.
  unfold Zalouser.isSenderAllowed. cbv zeta. rewrite !existsb_app.
  repeat match goal with
         | |- context [existsb ?f ?l] => destruct (existsb f l)
         end; reflexivity.
Qed.

(** X26. An entry of the allow list allows a sender whatever the letter
    case of either: the entry may be the sender id with the channel
    prefix [zalouser:] or [zlu:] in front, or the sender id alone when
    that does not itself begin with one of the two prefixes. *)
Theorem allow_entry_ignores_case_and_prefix senderId entry allowFrom :
  entry ∈ allowFrom ->
  toLowerCase entry = "zalouser:" ++ toLowerCase senderId
  \/ toLowerCase entry = "zlu:" ++ toLowerCase senderId
  \/ (toLowerCase entry = toLowerCase senderId
      /\ Zalouser.stripChannelPrefix (toLowerCase senderId) = toLowerCase senderId) ->
  Zalouser.isSenderAllowed senderId allowFrom = true.
Proof.
  intros In H. unfold Zalouser.isSenderAllowed. cbv zeta.
  destruct (existsb (String.eqb "*") allowFrom); [done|].
  apply existsb_exists. exists entry. split; [by apply list_elem_of_In|].
  apply String.eqb_eq.
  destruct H as [->|[->|[-> E]]]; [| |done].
  - unfold Zalouser.stripChannelPrefix.
    change (toLowerCase ("zalouser:" ++ toLowerCase senderId))
      with ("zalouser:" ++ toLowerCase (toLowerCase senderId)).
    rewrite toLowerCase_idempotent.
    change (startsWith ("zalouser:" ++ toLowerCase senderId) "zalouser:") with true.
    apply (slice_prefix "zalouser:").
  - unfold Zalouser.stripChannelPrefix, stripPrefixIgnoreCase.
    change (toLowerCase ("zlu:" ++ toLowerCase senderId))
      with ("zlu:" ++ toLowerCase (toLowerCase senderId)).
    rewrite toLowerCase_idempotent.
    change (startsWith ("zlu:" ++ toLowerCase senderId) "zalouser:") with false.
    change (startsWith ("zlu:" ++ toLowerCase senderId) "zlu:") with true.
    apply (slice_prefix "zlu:").
Qed.

(** X27. The prefix is dropped from the entry only, never from the
    sender: a sender id allows itself exactly when it is the wild card or
    does not itself begin, in any letter case, with [zalouser:] or
    [zlu:]. *)
Theorem sender_allows_itself_iff_unprefixed senderId :
  Zalouser.isSenderAllowed senderId [senderId] = true
  <-> senderId = "*"
      \/ (startsWith (toLowerCase senderId) "zalouser:" = false
          /\ startsWith (toLowerCase senderId) "zlu:" = false).
Proof.
  unfold Zalouser.isSenderAllowed. cbv zeta. cbn [existsb]. rewrite !orb_false_r.
  destruct (String.eqb_spec "*" senderId) as [<-|Ne]; [by split; [left|]|].
  unfold Zalouser.stripChannelPrefix, stripPrefixIgnoreCase.
  rewrite toLowerCase_idempotent.
  destruct (startsWith (toLowerCase senderId) "zalouser:") eqn:P1.
  { apply startsWith_inv in P1 as [rest ->].
    replace (slice ("zalouser:" ++ rest) 9) with rest
      by (symmetry; apply (slice_prefix "zalouser:")).
    rewrite prefixed_differs by done. split; [done|]. intros [?|[? _]]; congruence. }
  destruct (startsWith (toLowerCase senderId) "zlu:") eqn:P2.
  { apply startsWith_inv in P2 as [rest ->].
    rewrite (slice_prefix "zlu:" rest).
    rewrite prefixed_differs by done. split; [done|]. intros [?|[_ ?]]; congruence. }
  rewrite String.eqb_refl. split; auto.
Qed.

Lemma allow_entry_ignores_case_and_prefix_witness :
  "ZLU:Abc123" ∈ ["someone"; "ZLU:Abc123"] /\
  Zalouser.isSenderAllowed "aBC123" ["someone"; "ZLU:Abc123"] = true.
Proof.
  split; [right; left|].
  apply (allow_entry_ignores_case_and_prefix "aBC123" "ZLU:Abc123").
  - right; left.
  - right; left. reflexivity.
Defined.

(** ** The listener's line buffer *)

Lemma split_newline_nonempty s : Zalouser.split_newline s <> [].
Proof.
  destruct s as [|c s]; [done|]. cbn [Zalouser.split_newline].
  destruct (Ascii.eqb c _); [done|]. by destruct (Zalouser.split_newline s).
Qed.

Lemma last_app_nonempty {A} (l l' : list A) d :
  l' <> [] -> List.last (l ++ l') d = List.last l' d.
Proof.
  intros Ne. induction l as [|x l IH]; [done|].
  cbn [app List.last]. rewrite IH. destruct (l ++ l')%list eqn:E; [|done].
  apply app_eq_nil in E as [_ ->]. done.
Qed.

Lemma split_newline_app s t :
  Zalouser.split_newline (s ++ t)
  = (List.removelast (Zalouser.split_newline s)
     ++ Zalouser.split_newline (List.last (Zalouser.split_newline s) "" ++ t))%list.
Proof.
  induction s as [|c s IH]; [done|].
  change (String c s ++ t) with (String c (s ++ t)). cbn [Zalouser.split_newline].
  pose proof (split_newline_nonempty s) as Ne.
  destruct (Ascii.eqb c (ascii_of_nat 10)) eqn:Ec.
  - rewrite IH. destruct (Zalouser.split_newline s) as [|l ls]; [done|]. reflexivity.
  - rewrite IH. destruct (Zalouser.split_newline s) as [|l [|l' ls]]; [done| |].
    + cbn [List.removelast List.last app].
      change (String c l ++ t) with (String c (l ++ t)).
      cbn [Zalouser.split_newline]. rewrite Ec.
      pose proof (split_newline_nonempty (l ++ t)).
      by destruct (Zalouser.split_newline (l ++ t)).
    + cbn [List.removelast List.last app].
      reflexivity.
Qed.

Lemma last_split_newline_singleLine s :
  singleLine (List.last (Zalouser.split_newline s) "").
Proof.
  unfold singleLine. induction s as [|c s IH]; [done|].
  cbn [Zalouser.split_newline]. pose proof (split_newline_nonempty s) as Ne.
  destruct (Ascii.eqb c (ascii_of_nat 10)) eqn:Ec.
  - destruct (Zalouser.split_newline s) as [|l ls]; [done|]. exact IH.
  - destruct (Zalouser.split_newline s) as [|l [|l' ls]]; [done| |exact IH].
    cbn [List.last] in *. cbn [Zalouser.split_newline]. by rewrite Ec, IH.
Qed.

Lemma forEach_app {S A} (body : A -> M S unit) xs ys s :
  Zalouser.forEach body (xs ++ ys) s
  = bind (Zalouser.forEach body xs) (fun _ => Zalouser.forEach body ys) s.
Proof.
  revert s. induction xs as [|x xs IH]; intros s; [done|].
  cbn [app Zalouser.forEach]. rewrite bind_assoc. unfold bind at 1 2.
  destruct (body x s) as [[[]|] s1]; [apply IH | done].
Qed.

Section ListenerFacts.

Variables Msg S : Type.
Variable JSON_parse : string -> option Msg.
Variable onMessage : Msg -> M S unit.

Local Abbreviation handleLine := (Zalouser.handleLine Msg S JSON_parse onMessage).
Local Abbreviation onData := (Zalouser.onData Msg S JSON_parse onMessage).

(** A line is handled without throwing, whatever [JSON.parse] and the
    callback do. *)
Lemma handleLine_returns line s : exists s', handleLine line s = (Returned tt, s').
Proof.
  unfold Zalouser.handleLine. cbv zeta. destruct (negb _); [by eexists|].
  unfold tryCatch. destruct (JSON_parse _) as [parsed|]; [|by eexists].
  destruct (onMessage parsed s) as [[[]|] s']; by eexists.
Qed.

Lemma forEach_handleLine_returns lines : forall s,
  exists s', Zalouser.forEach handleLine lines s = (Returned tt, s').
Proof.
  induction lines as [|line lines IH]; intros s; [by eexists|].
  cbn [Zalouser.forEach]. destruct (handleLine_returns line s) as [s1 E].
  rewrite (bind_returned _ _ _ _ _ E). apply IH.
Qed.

(** X28. How the stream is cut into chunks does not matter: receiving a
    text in two chunks handles the same lines in the same order, and
    leaves the same buffer, as receiving it in one. *)
Theorem listener_chunking_is_irrelevant chunk1 chunk2 (l : Zalouser.Listener S) :
  onData (chunk1 ++ chunk2) l = (onData chunk1 ;; onData chunk2) l.
Proof.
  unfold Zalouser.onData, bind. cbv zeta.
  rewrite <- append_assoc, split_newline_app.
  pose proof (split_newline_nonempty
                (List.last (Zalouser.split_newline (Zalouser.buffer l ++ chunk1)) ""
                 ++ chunk2)) as Ne.
  rewrite (removelast_app _ Ne), (last_app_nonempty _ _ _ Ne), forEach_app.
  unfold bind.
  destruct (forEach_handleLine_returns
              (List.removelast (Zalouser.split_newline (Zalouser.buffer l ++ chunk1)))
              (Zalouser.outside l)) as [s1 E].
  rewrite E. reflexivity.
Qed.

(** X29. The callback never throws, and what it keeps in the buffer is
    the line not yet complete: the buffer holds no line feed; a chunk
    that completes no line is added to the buffer and nothing is
    handled. *)
Theorem listener_buffers_partial_line chunk (l : Zalouser.Listener S) :
  exists l',
    onData chunk l = (Returned tt, l') /\
    singleLine (Zalouser.buffer l') /\
    (singleLine (Zalouser.buffer l ++ chunk) ->
     l' = {| Zalouser.buffer := Zalouser.buffer l ++ chunk;
             Zalouser.outside := Zalouser.outside l |}).
Proof.
  unfold Zalouser.onData. cbv zeta.
  destruct (forEach_handleLine_returns
              (List.removelast (Zalouser.split_newline (Zalouser.buffer l ++ chunk)))
              (Zalouser.outside l)) as [s1 E].
  rewrite E. eexists. split; [reflexivity|]. cbn [Zalouser.buffer].
  split; [apply last_split_newline_singleLine|].
  intros One. unfold singleLine in One. rewrite One in E |- *.
  cbn in E. by injection E as <-.
Qed.

End ListenerFacts.

(** ** Delivery of a reply *)

Section DeliverFacts.

Import Zalouser.

Variable chunkMarkdownText : string -> Z -> list string.
Variable params : DeliverParams.

Lemma delivers_nothing w failure : delivers params w (Returned tt, w) failure [].
Proof.
  exists w, []. rewrite app_nil_r. repeat split; try done. by destruct (statusSink params).
Qed.

Lemma delivers_bind (m : M Wire unit) (k : M Wire unit) w failure sends1 sends2 :
  delivers params w (m w) failure sends1 ->
  (forall w', rejects w' = rejects w ->
              delivers params w' (k w') failure sends2) ->
  delivers params w (bind m (fun _ => k) w) failure (sends1 ++ sends2).
Proof.
  intros (w1 & t1 & E1 & Ev1 & R1 & V1 & S1 & Er1 & Rp1) K.
  destruct (K w1 R1) as (w2 & t2 & E2 & Ev2 & R2 & V2 & S2 & Er2 & Rp2).
  exists w2, (t1 ++ t2)%list. rewrite (bind_returned _ _ _ _ _ E1).
  unfold rejectionsOf, acceptedBy in *. rewrite R1 in Er2, Rp2.
  split; [done|]. split; [by rewrite Ev2, Ev1, app_assoc|].
  split; [by rewrite R2|]. split; [by rewrite V2|].
  split; [by unfold sendsOf in *; rewrite omap_app, S1, S2|].
  split; [by unfold errorsOf in *; rewrite !omap_app, Er1, Er2|].
  unfold reportsOf in *. rewrite omap_app, List.filter_app, !List.length_app, Rp1, Rp2.
  by destruct (statusSink params).
Qed.

Lemma logVerbose_delivers message w failure :
  delivers params w (logVerbose message w) failure [].
Proof.
  unfold logVerbose. rewrite bind_gets. destruct (shouldLogVerbose w) eqn:V;
    [|apply delivers_nothing].
  eexists _, [_]. split; [reflexivity|]. cbn. repeat split; try done.
  by destruct (statusSink params).
Qed.

Lemma trySend_delivers announce send failure w :
  announce = ret tt \/ (exists message, announce = logVerbose message) ->
  delivers params w (trySend params announce send failure w) failure [send].
Proof.
  intros A. unfold delivers, rejectionsOf, acceptedBy. cbn [omap List.filter].
  destruct A as [->|[message ->]];
    unfold trySend, tryCatch, logVerbose, sendMessageZalouser, reportOutbound,
      runtime_error, emit, Date_now, bind, gets, modify, ret, throw;
    cbn [rejects shouldLogVerbose events clock ticks].
  all: destruct (shouldLogVerbose w) eqn:V;
    cbn [rejects shouldLogVerbose events clock ticks];
    destruct (rejects w send) as [err|] eqn:R;
    cbn [rejects shouldLogVerbose events clock ticks]; rewrite ?R;
    destruct (statusSink params);
    cbn [rejects shouldLogVerbose events clock ticks];
    eexists _, _; (split; [reflexivity|]); cbn [events rejects shouldLogVerbose];
    rewrite <- ?app_assoc; (split; [reflexivity|]); cbn; rewrite ?V, ?R; done.
Qed.

Lemma mediaSends_rest urls : mediaSends params urls false = map (mediaSend params None) urls.
Proof. by destruct urls. Qed.

Lemma sendMedia_delivers mediaList : forall first w,
  delivers params w (sendMedia params mediaList first w) "Zalouser media send failed: "
    (mediaSends params mediaList first).
Proof.
  induction mediaList as [|url urls IH]; intros first w; [apply delivers_nothing|].
  cbn [sendMedia]. cbv zeta.
  change (mediaSends params (url :: urls) first)
    with ([mediaSend params (if first then text (payload params) else None) url]
          ++ map (mediaSend params None) urls)%list.
  apply delivers_bind.
  - apply trySend_delivers. right. by eexists.
  - intros w' _. rewrite <- mediaSends_rest. apply IH.
Qed.

Lemma sendChunks_deliver chunks : forall w,
  delivers params w (forEach (sendChunk params) chunks w) "Zalouser message send failed: "
    (map (chunkSend params) chunks).
Proof.
  induction chunks as [|chunk chunks IH]; intros w; [apply delivers_nothing|].
  cbn [forEach map].
  change (chunkSend params chunk :: map (chunkSend params) chunks)
    with ([chunkSend params chunk] ++ map (chunkSend params) chunks)%list.
  apply delivers_bind; [|intros w' _; apply IH].
  apply trySend_delivers. by left.
Qed.

(** X30. A reply is delivered part by part, and a part that fails stops
    nothing.  With media, [sendMessageZalouser] is called once for each
    media, in order, the text going as caption with the first and with
    no other, and the text is not sent on its own.  Without media a text
    that is not empty is sent chunk by chunk.  Each rejected send is
    reported to [runtime.error], each accepted one to the status sink,
    and the delivery returns.  A reply with neither media nor text does
    nothing. *)
Theorem reply_is_delivered_part_by_part w :
  let run := deliverZalouserReply chunkMarkdownText params w in
  match mediaListOf (payload params), text (payload params) with
  | url :: urls, caption =>
      delivers params w run "Zalouser media send failed: "
        (mediaSend params caption url :: map (mediaSend params None) urls)
  | [], Some (String c rest) =>
      delivers params w run "Zalouser message send failed: "
        (map (chunkSend params) (chunkMarkdownText (String c rest) ZALOUSER_TEXT_LIMIT))
  | [], _ => run = (Returned tt, w)
  end.
Proof.
  unfold deliverZalouserReply. cbv zeta.
  destruct (mediaListOf (payload params)) as [|url urls] eqn:L.
  - cbn [length Nat.ltb Nat.leb].
    destruct (text (payload params)) as [[|c rest]|]; [done| |done].
    cbn [nonEmpty].
    change (map (chunkSend params) (chunkMarkdownText (String c rest) ZALOUSER_TEXT_LIMIT))
      with ([] ++ map (chunkSend params)
                    (chunkMarkdownText (String c rest) ZALOUSER_TEXT_LIMIT))%list.
    apply delivers_bind; [apply logVerbose_delivers|].
    intros w' _. apply sendChunks_deliver.
  - change (0 <? length (url :: urls))%nat with true. cbv iota.
    apply (sendMedia_delivers (url :: urls) true w).
Qed.

End DeliverFacts.
